(** * Obsigent: streaming provider adapters, tool-call accumulation,
      tool execution and the turn orchestrator

    A shallow embedding of the TypeScript sources
    - [src/api/OpenAIProvider.ts], [src/api/OllamaProvider.ts],
      [src/api/AnthropicProvider.ts], [src/api/LLMProvider.ts],
    - [src/services/LocalToolService.ts] in its two generations: the one
      that also serves Obsidian commands, registration of the commands as
      tools included, and the earlier one with the three vault tools,
    - [src/main.ts] of the plugin core, in its two generations: the one
      with [onUpdate]/[onToolCall] and [continueGenerationWithTools], and
      the earlier one with [onContent]/[onToolCallsDone] and
      [processLlmTurn],
    and the properties of the specification checked against them.

    Conventions.  A JavaScript value that may be [undefined]/[null] is an
    [option]; a thrown exception is the left injection of a sum; callbacks
    are state transformers over the state of whoever supplied them.  A
    JavaScript array with holes is a [list (option _)].  [JSON.parse],
    [JSON.stringify], [toLowerCase], [fetch] and the host application are
    parameters: a frame is parsed at the record type of the fields the
    code reads.  Loops over a buffer take fuel, and [BufferLoops] shows
    that the fuel given is never used up. *)

From stdpp Require Import base option list strings pretty gmap sorting.
From Stdlib Require Import Ascii.


(** ** JavaScript strings and truthiness *)

Module JS.

(** [if (s)] for a value of type [string | undefined | null]. *)
Definition truthy (s : option string) : bool :=
  match s with
  | Some s => negb (String.eqb s "")
  | None => false
  end.

(** [a || b] on possibly absent strings. *)
Definition or (a b : option string) : option string :=
  if truthy a then a else b.

(** [a || "literal"]. *)
Definition or_default (a : option string) (b : string) : string :=
  match a with
  | Some s => if String.eqb s "" then b else s
  | None => b
  end.

(** The string behind a truthy value, as the code uses it once
    [if (!x) return] has been passed. *)
Definition nonempty (a : option string) : option string :=
  if truthy a then a else None.

(** A thrown value: [error.name] and [error.message]. *)
Record Exn := mkExn { exn_name : string; exn_message : string }.

End JS.

(** ** String primitives of the stream parsers *)

Module Str.

(** The backslash character. *)
Definition BS : string := String (ascii_of_nat 92) "".

(** The double quote character. *)
Definition DQ : string := String (ascii_of_nat 34) "".

(** ["\n"] *)
Definition LF : string := String (ascii_of_nat 10) "".

(** [s.indexOf(pat)]; [None] is [-1]. *)
Definition indexOf (pat s : string) : option nat := String.index 0 pat s.

(** [s.substring(from)] *)
Definition substring_from (from : nat) (s : string) : string :=
  String.substring from (String.length s - from) s.

(** [s.substring(0, to)] *)
Definition substring_to (to : nat) (s : string) : string :=
  String.substring 0 to s.

(** [s.startsWith(p)] *)
Definition startsWith (p s : string) : bool := String.prefix p s.

(** The white space [trim] removes, within ASCII: tab, line feed,
    vertical tab, form feed, carriage return and space. *)
Definition is_white (a : ascii) : bool :=
  let n := nat_of_ascii a in
  (Nat.leb 9 n && Nat.leb n 13) || Nat.eqb n 32.

Fixpoint trimStart (s : string) : string :=
  match s with
  | String a s' => if is_white a then trimStart s' else s
  | EmptyString => EmptyString
  end.

Fixpoint trimEnd (s : string) : string :=
  match s with
  | String a s' =>
      match trimEnd s' with
      | EmptyString => if is_white a then EmptyString else String a EmptyString
      | t => String a t
      end
  | EmptyString => EmptyString
  end.

(** [s.trim()] *)
Definition trim (s : string) : string := trimEnd (trimStart s).

(** [s.split('\n')] *)
Fixpoint split_lines_go (cur : string) (s : string) : list string :=
  match s with
  | EmptyString => [String.rev cur]
  | String a s' =>
      if Ascii.eqb a (ascii_of_nat 10)
      then String.rev cur :: split_lines_go EmptyString s'
      else split_lines_go (String a cur) s'
  end.

Definition split_lines (s : string) : list string := split_lines_go EmptyString s.

(** [s.replace(/\/+$/, '')] *)
Fixpoint strip_trailing_slashes (s : string) : string :=
  match s with
  | String a s' =>
      match strip_trailing_slashes s' with
      | EmptyString => if Ascii.eqb a "/" then EmptyString else String a EmptyString
      | t => String a t
      end
  | EmptyString => EmptyString
  end.

(** [s.substring(a, b)]; the smaller argument is the start. *)
Definition substring (a b : nat) (s : string) : string :=
  String.substring (a `min` b) (a `max` b - a `min` b) s.

(** [s.lastIndexOf(pat)] *)
Fixpoint lastIndexOf_go (pat : string) (s : string) (i : nat) (found : option nat)
  : option nat :=
  let found := if String.prefix pat s then Some i else found in
  match s with
  | String _ s' => lastIndexOf_go pat s' (S i) found
  | EmptyString => found
  end.

Definition lastIndexOf (pat s : string) : option nat := lastIndexOf_go pat s 0 None.

(** [`${x}`] for a possibly undefined string. *)
Definition template (x : option string) : string := default "undefined" x.

End Str.

(** ** Tool calls ([LLMProvider.ts], [OpenAIProvider.ts]) *)

Record ToolCallFunction := mkToolCallFunction {
  name : string;
  arguments : string
}.

Record OpenAIToolCall := mkOpenAIToolCall {
  id : string;
  type : string;
  function : ToolCallFunction
}.

(** One element of [delta.tool_calls] as it arrives on the wire. *)
Record ToolCallFunctionChunk := mkToolCallFunctionChunk {
  chunk_name : option string;
  chunk_arguments : option string
}.

Record ToolCallChunk := mkToolCallChunk {
  chunk_index : nat;
  chunk_id : option string;
  chunk_type : option string;
  chunk_function : option ToolCallFunctionChunk
}.

(** ** The tool-call accumulator of [OpenAIProvider.generateResponse] *)

Module Accumulator.

(** [currentToolCallsAccumulator: OpenAIToolCall[]], an array that is
    written by index and therefore may have holes. *)
Abbreviation SparseArray := (list (option OpenAIToolCall)).

(** [arr[i]]: [undefined] for a hole and beyond the length. *)
Definition get (arr : SparseArray) (i : nat) : option OpenAIToolCall :=
  mjoin (arr !! i).

(** [arr[i] = v]: in range it overwrites, out of range the array is
    extended and the positions in between stay holes. *)
Definition set (arr : SparseArray) (i : nat) (v : OpenAIToolCall) : SparseArray :=
  if decide (i < length arr)
  then <[i := Some v]> arr
  else arr ++ replicate (i - length arr) None ++ [Some v].

(** [{ id: '', type: 'function', function: { name: '', arguments: '' } }] *)
Definition fresh : OpenAIToolCall :=
  mkOpenAIToolCall "" "function" (mkToolCallFunction "" "").

(** The four conditional updates of the record in slot [index]. *)
Definition merge (tc : OpenAIToolCall) (tcChunk : ToolCallChunk) : OpenAIToolCall :=
  let tc :=
    match chunk_id tcChunk with
    | Some s => if JS.truthy (Some s) then mkOpenAIToolCall s (type tc) (function tc) else tc
    | None => tc
    end in
  let tc :=
    match chunk_type tcChunk with
    | Some s => if JS.truthy (Some s) then mkOpenAIToolCall (id tc) s (function tc) else tc
    | None => tc
    end in
  let tc :=
    match chunk_function tcChunk ≫= chunk_name with
    | Some s =>
        if JS.truthy (Some s)
        then mkOpenAIToolCall (id tc) (type tc)
               (mkToolCallFunction (name (function tc) +:+ s) (arguments (function tc)))
        else tc
    | None => tc
    end in
  match chunk_function tcChunk ≫= chunk_arguments with
  | Some s =>
      if JS.truthy (Some s)
      then mkOpenAIToolCall (id tc) (type tc)
             (mkToolCallFunction (name (function tc)) (arguments (function tc) +:+ s))
      else tc
  | None => tc
  end.

(** The body of [delta.tool_calls.forEach(tcChunk => ...)].  The record
    in the slot is mutated in place; here it is read, merged and
    written back. *)
Definition accumulate (acc : SparseArray) (tcChunk : ToolCallChunk) : SparseArray :=
  let index := chunk_index tcChunk in
  let acc := match get acc index with
             | Some _ => acc
             | None => set acc index fresh
             end in
  match get acc index with
  | Some tc => set acc index (merge tc tcChunk)
  | None => acc
  end.

Definition accumulate_all (acc : SparseArray) (l : list ToolCallChunk) : SparseArray :=
  foldl accumulate acc l.

(** [tc && tc.id && tc.function.name && tc.function.arguments] *)
Definition complete (tc : OpenAIToolCall) : bool :=
  JS.truthy (Some (id tc)) && JS.truthy (Some (name (function tc)))
  && JS.truthy (Some (arguments (function tc))).

(** [currentToolCallsAccumulator.filter(...)]: [filter] visits the
    existing elements in ascending index order and skips holes. *)
Definition completed (acc : SparseArray) : list OpenAIToolCall :=
  omap (fun slot => slot ≫= fun tc => if complete tc then Some tc else None) acc.

(** The fragments of one index, in arrival order. *)
Definition per_index (i : nat) (l : list ToolCallChunk) : list ToolCallChunk :=
  filter (fun c => chunk_index c = i) l.

(** What a slot holds after a sequence of fragments for it. *)
Definition merge_all (slot : option OpenAIToolCall) (l : list ToolCallChunk)
  : option OpenAIToolCall :=
  foldl (fun slot c => Some (merge (default fresh slot) c)) slot l.

(** Delivery in index order: all fragments of index 0, then of 1, ... *)
Definition index_order (l : list ToolCallChunk) : list ToolCallChunk :=
  mbind (fun i => per_index i l) (seq 0 (S (max_list (chunk_index <$> l)))).

(** The id, name and arguments pieces a fragment carries, as the
    [if (tcChunk.id)] ... tests see them. *)
Definition id_part (c : ToolCallChunk) : option string :=
  if JS.truthy (chunk_id c) then chunk_id c else None.

Definition name_part (c : ToolCallChunk) : string :=
  default "" (chunk_function c ≫= chunk_name).

Definition arguments_part (c : ToolCallChunk) : string :=
  default "" (chunk_function c ≫= chunk_arguments).

Definition join (l : list string) : string := foldr String.append "" l.

End Accumulator.

(** ** Messages, settings and callbacks ([LLMProvider.ts], [main.ts]) *)

Inductive Role := system | user | assistant | tool.

Global Instance Role_eq_dec : EqDecision Role.
Proof. solve_decision. Defined.

Record OpenAIMessage := mkMessage {
  role : Role;
  content : option string;
  tool_calls : option (list OpenAIToolCall);
  tool_call_id : option string
}.

(** A numeric setting is only ever copied into the request body; it is
    carried as its decimal literal. *)
Definition number := string.

Record ProviderSettings := mkProviderSettings {
  apiKey : option string;
  apiEndpoint : option string;
  defaultModel : option string;
  temperature : option number;
  max_tokens : option number
}.

Inductive LLMProviderType := openai | anthropic | google | cohere | ollama.

(** [ObsigentPluginSettings]; the three [global_] fields are the
    top-level [apiKey], [defaultModel] and [apiEndpoint] kept as fallback. *)
Record ObsigentPluginSettings := mkSettings {
  global_apiKey : string;
  global_defaultModel : option string;
  global_apiEndpoint : option string;
  selectedProvider : LLMProviderType;
  providerSettings : LLMProviderType -> option ProviderSettings
}.

(** [{}] as [ProviderSettings] *)
Definition noProviderSettings : ProviderSettings :=
  mkProviderSettings None None None None None.

(** [StreamCallbacks] of [src/api/LLMProvider.ts].  The callbacks act on
    the state [S] of their owner.  [onToolCall] is asynchronous and is
    awaited by the adapter: it may reject, which the adapter observes. *)
Record StreamCallbacks (S : Type) := mkCallbacks {
  onUpdate : string -> bool -> S -> S;
  onToolCall : option (list OpenAIToolCall -> S -> S * option JS.Exn);
  onError : string -> S -> S;
  onFinish : string -> S -> S
}.
Arguments onUpdate {S}. Arguments onToolCall {S}.
Arguments onError {S}. Arguments onFinish {S}.
Arguments mkCallbacks {S}.

(** The earlier [StreamCallbacks] (content through [onContent], tool
    calls through [onToolCallsDone]) that [OllamaProvider] and
    [AnthropicProvider] are written against.  [onToolCallsDone] is
    asynchronous and may reject. *)
Module Legacy.
Record StreamCallbacks (S : Type) := mkCallbacks {
  onContent : string -> bool -> S -> S;
  onToolCallsDone : option (list OpenAIToolCall -> S -> S * option JS.Exn);
  onError : string -> S -> S;
  onFinish : string -> S -> S
}.
Arguments onContent {S}. Arguments onToolCallsDone {S}.
Arguments onError {S}. Arguments onFinish {S}.
Arguments mkCallbacks {S}.
End Legacy.

(** ** The network as the adapters see it *)

Module Net.

Record AnthropicMessage := mkAnthropicMessage {
  a_role : Role;
  a_text : string          (* content: [{ type: 'text', text }] *)
}.

Inductive RequestBody :=
| OpenAIRequest (model : string) (messages : list OpenAIMessage)
    (stream : bool) (temperature max_tokens : option number)
| OllamaChatRequest (model : string) (messages : list OpenAIMessage) (stream : bool)
| AnthropicRequest (model : string) (messages : list AnthropicMessage)
    (max_tokens : number) (stream : bool) (temperature : number)
    (system_prompt : option string).

(** The arguments of one [fetch] call. *)
Record Request := mkRequest {
  url : string;
  method : string;
  headers : list (string * string);
  body : RequestBody;
  signal : bool            (* an abort signal is attached *)
}.

(** The JSON of an error response, at the fields the adapters read. *)
Record ApiError := mkApiError {
  error_type : option string;
  error_message : option string
}.

Record ErrorJson := mkErrorJson {
  error : option ApiError;       (* OpenAI, Anthropic: [error] is an object *)
  error_text : option string;    (* Ollama: [error] is a string *)
  detail : option string
}.

(** [response.body.getReader()]: the decoded text of the successive
    [read()] results, then either [done] or a rejected read. *)
Record Body := mkBody {
  reads : list string;
  failure : option JS.Exn
}.

Record Response := mkResponse {
  ok : bool;
  status : nat;
  json : JS.Exn + ErrorJson;     (* [await response.json()] *)
  text : JS.Exn + string;        (* [await response.text()] *)
  stream : option Body           (* [response.body] *)
}.

Inductive FetchResult :=
| Rejects (e : JS.Exn)
| Resolves (r : Response).

(** What happens when the loop over one buffer is left. *)
Inductive Flow := Next | Return.

End Net.

(** ** [OpenAIProvider.generateResponse] *)

Module OpenAIProvider.
Import Net.

Definition providerName : LLMProviderType := openai.

(** One parsed SSE payload, at the fields the adapter reads:
    [parsed.choices[0].delta.content], [.delta.tool_calls] and
    [.finish_reason]. *)
Record Delta := mkDelta {
  delta_content : option string;
  delta_tool_calls : option (list ToolCallChunk)
}.

Record Choice := mkChoice {
  delta : option Delta;
  finish_reason : option string
}.

Record StreamChunk := mkStreamChunk {
  choices : option (list Choice)
}.

Section Adapter.
Context {S : Type}.
(** [JSON.parse] at the type above; [None] when it throws (the
    adapter's [catch] logs and goes on to the next chunk). *)
Variable JSON_parse : string -> option StreamChunk.
(** The network: what [fetch] does with a request. *)
Variable fetch : Request -> FetchResult.
Variable callbacks : StreamCallbacks S.

(** The body of the inner [while (boundary !== -1)] loop for one
    [chunk], from [if (chunk.startsWith('data: '))] on. *)
Definition processChunk (chunk : string)
    (currentToolCallsAccumulator : list (option OpenAIToolCall)) (s : S)
  : Flow * list (option OpenAIToolCall) * S :=
  if Str.startsWith "data: " chunk then
    let jsonData := Str.substring_from 6 chunk in
    if String.eqb (Str.trim jsonData) "[DONE]" then
      (Next, currentToolCallsAccumulator, s)                     (* continue *)
    else
      match JSON_parse jsonData with
      | None => (Next, currentToolCallsAccumulator, s)           (* catch (e) *)
      | Some parsed =>
          match choices parsed with
          | Some (choice :: _) =>
              let finishReason := finish_reason choice in
              let s :=
                match delta choice ≫= delta_content with
                | Some c => if JS.truthy (Some c) then onUpdate callbacks c false s else s
                | None => s
                end in
              let currentToolCallsAccumulator :=
                match delta choice ≫= delta_tool_calls with
                | Some tcs => foldl Accumulator.accumulate currentToolCallsAccumulator tcs
                | None => currentToolCallsAccumulator
                end in
              match finishReason with
              | Some reason =>
                  if JS.truthy (Some reason) then
                    if String.eqb reason "tool_calls" then
                      match onToolCall callbacks with
                      | Some f =>
                          match f (Accumulator.completed currentToolCallsAccumulator) s with
                          | (s, None) =>
                              (Return, currentToolCallsAccumulator, onFinish callbacks reason s)
                          | (s, Some _) =>
                              (* the rejection lands in catch (e) *)
                              (Next, currentToolCallsAccumulator, s)
                          end
                      | None =>
                          (Return, currentToolCallsAccumulator, onFinish callbacks reason s)
                      end
                    else
                      (Return, currentToolCallsAccumulator,
                       onFinish callbacks reason (onUpdate callbacks "" true s))
                  else (Next, currentToolCallsAccumulator, s)
              | None => (Next, currentToolCallsAccumulator, s)
              end
          | _ => (Next, currentToolCallsAccumulator, s)
          end
      end
  else (Next, currentToolCallsAccumulator, s).

(** [while (boundary !== -1) { ... }] over the current buffer.  Every
    turn removes at least the two characters of the boundary, so
    [fuel] beyond the buffer's length is never used up. *)
Fixpoint drain (fuel : nat) (buffer : string)
    (acc : list (option OpenAIToolCall)) (s : S)
  : Flow * string * list (option OpenAIToolCall) * S :=
  match fuel with
  | 0 => (Next, buffer, acc, s)
  | Datatypes.S fuel =>
      match Str.indexOf (Str.LF +:+ Str.LF) buffer with
      | None => (Next, buffer, acc, s)
      | Some boundary =>
          let chunk := Str.substring_to boundary buffer in
          let buffer := Str.substring_from (boundary + 2) buffer in
          match processChunk chunk acc s with
          | (Return, acc, s) => (Return, buffer, acc, s)
          | (Next, acc, s) => drain fuel buffer acc s
          end
      end
  end.

(** [while (true) { const { done, value } = await reader.read(); ... }]
    The result is [inl e] when a read rejects with [e]. *)
Fixpoint readLoop (reads : list string) (failure : option JS.Exn)
    (buffer : string) (acc : list (option OpenAIToolCall)) (s : S)
  : (JS.Exn + unit) * S :=
  match reads with
  | [] =>
      match failure with
      | Some e => (inl e, s)
      | None => (inr (), s)                                      (* done: break *)
      end
  | value :: reads =>
      let buffer := buffer +:+ value in
      match drain (Datatypes.S (String.length buffer)) buffer acc s with
      | (Return, _, _, s) => (inr (), s)
      | (Next, buffer, acc, s) => readLoop reads failure buffer acc s
      end
  end.

(** The error text for a response that is not [ok]; [inl e] when
    [response.text()] throws outside the inner [try]. *)
Definition errorDetails (response : Response) : JS.Exn + string :=
  let in_catch :=
    match text response with
    | inr t => inr ("HTTP Error " +:+ pretty (status response) +:+ ": "
                    +:+ JS.or_default (Some t) "Failed to parse error response.")
    | inl e => inl e
    end in
  match json response with
  | inr errorJson =>
      match error errorJson with
      | Some e =>
          inr (JS.or_default (error_type e) "API Error" +:+ ": "
               +:+ Str.template (error_message e))
      | None =>
          match text response with
          | inr t => inr ("HTTP Error " +:+ pretty (status response) +:+ ": "
                          +:+ JS.or_default (Some t) "No additional details")
          | inl _ => in_catch
          end
      end
  | inl _ => in_catch
  end.

(** The outer [catch (error: any)]. *)
Definition catch (error : JS.Exn) (s : S) : S :=
  if String.eqb (JS.exn_name error) "AbortError" then onFinish callbacks "aborted" s
  else onError callbacks
         ("Failed to connect to OpenAI API (stream): "
          +:+ JS.or_default (Some (JS.exn_message error)) "Unknown error") s.

(** [generateResponse]; the result lists the [fetch] calls made and
    gives the callbacks' state. *)
Definition generateResponse (messages : list OpenAIMessage)
    (settings : ObsigentPluginSettings) (abortController : bool) (s : S)
  : list Request * S :=
  let providerSettings :=
    default noProviderSettings (providerSettings settings providerName) in
  let apiKey := JS.or (apiKey providerSettings) (Some (global_apiKey settings)) in
  let apiEndpoint := JS.or (apiEndpoint providerSettings) (global_apiEndpoint settings) in
  let defaultModel := JS.or (defaultModel providerSettings) (global_defaultModel settings) in
  match JS.nonempty apiEndpoint with
  | None =>
      ([], onError callbacks
             "OpenAI API endpoint is not set. Please configure it in settings." s)
  | Some apiEndpoint =>
      match JS.nonempty defaultModel with
      | None =>
          ([], onError callbacks
                 "OpenAI Default model is not set. Please configure it in settings." s)
      | Some defaultModel =>
          let requestBody :=
            OpenAIRequest defaultModel messages true
              (temperature providerSettings) (max_tokens providerSettings) in
          let headers :=
            [("Content-Type", "application/json")] ++
            match JS.nonempty apiKey with
            | Some k =>
                if negb (String.eqb (Str.trim k) "")
                then [("Authorization", "Bearer " +:+ k)] else []
            | None => []
            end in
          let request := mkRequest apiEndpoint "POST" headers requestBody abortController in
          ([request],
           match fetch request with
           | Rejects error => catch error s
           | Resolves response =>
               if negb (ok response) then
                 match errorDetails response with
                 | inr details => onError callbacks details s
                 | inl error => catch error s
                 end
               else
                 match stream response with
                 | None => onError callbacks "Response body is null." s
                 | Some body =>
                     match readLoop (reads body) (failure body) "" [] s with
                     | (inl error, s) => catch error s
                     | (inr _, s) => s
                     end
                 end
           end)
      end
  end.

End Adapter.
End OpenAIProvider.

(** ** [OllamaProvider.generateResponse] *)

Module OllamaProvider.
Import Net.

Definition providerName : LLMProviderType := ollama.

(** [OllamaChatStreamResponse], at the fields read. *)
Record OllamaChatStreamResponse := mkLine {
  message_content : option string;       (* [parsed.message?.content] *)
  done : bool;
  line_error : option string             (* [parsed.error] *)
}.

Section Adapter.
Context {S : Type}.
Variable JSON_parse : string -> option OllamaChatStreamResponse.
Variable fetch : Request -> FetchResult.
Variable callbacks : Legacy.StreamCallbacks S.

(** One [line] of the inner [while] loop. *)
Definition processLine (line : string) (s : S) : Flow * S :=
  if String.eqb (Str.trim line) "" then (Next, s)                (* continue *)
  else
    match JSON_parse line with
    | None => (Next, s)                                          (* catch (e) *)
    | Some parsed =>
        if JS.truthy (line_error parsed) then
          (Return,
           Legacy.onFinish callbacks "error"
             (Legacy.onError callbacks
                ("Ollama stream error: " +:+ Str.template (line_error parsed)) s))
        else
          let s :=
            match message_content parsed with
            | Some c => if JS.truthy (Some c) then Legacy.onContent callbacks c false s else s
            | None => s
            end in
          if done parsed then
            (Return,
             Legacy.onFinish callbacks "stop" (Legacy.onContent callbacks "" true s))
          else (Next, s)
    end.

(** [while ((newlineIndex = buffer.indexOf('\n')) !== -1) { ... }] *)
Fixpoint drain (fuel : nat) (buffer : string) (s : S) : Flow * string * S :=
  match fuel with
  | 0 => (Next, buffer, s)
  | Datatypes.S fuel =>
      match Str.indexOf Str.LF buffer with
      | None => (Next, buffer, s)
      | Some newlineIndex =>
          let line := Str.substring_to newlineIndex buffer in
          let buffer := Str.substring_from (newlineIndex + 1) buffer in
          match processLine line s with
          | (Return, s) => (Return, buffer, s)
          | (Next, s) => drain fuel buffer s
          end
      end
  end.

(** The [if (done) { ... break; }] branch of the outer loop. *)
Definition atEnd (buffer : string) (s : S) : S :=
  if negb (String.eqb (Str.trim buffer) "") then
    match JSON_parse buffer with
    | Some parsed =>
        let s :=
          match message_content parsed with
          | Some c =>
              if JS.truthy (Some c)
              then Legacy.onContent callbacks c (done parsed) s else s
          | None => s
          end in
        if done parsed then
          Legacy.onFinish callbacks
            (if JS.truthy (line_error parsed) then "error" else "stop") s   (* break *)
        else Legacy.onFinish callbacks "stop" s
    | None => Legacy.onFinish callbacks "stop" s
    end
  else Legacy.onFinish callbacks "stop" s.

Fixpoint readLoop (reads : list string) (failure : option JS.Exn)
    (buffer : string) (s : S) : (JS.Exn + unit) * S :=
  match reads with
  | [] =>
      match failure with
      | Some e => (inl e, s)
      | None => (inr (), atEnd buffer s)
      end
  | value :: reads =>
      let buffer := buffer +:+ value in
      match drain (Datatypes.S (String.length buffer)) buffer s with
      | (Return, _, s) => (inr (), s)
      | (Next, buffer, s) => readLoop reads failure buffer s
      end
  end.

Definition errorDetails (response : Response) : JS.Exn + string :=
  let in_catch :=
    match text response with
    | inr t => inr ("HTTP Error " +:+ pretty (status response) +:+ ": "
                    +:+ JS.or_default (Some t) "Failed to parse error response.")
    | inl e => inl e
    end in
  match json response with
  | inr errorJson =>
      match JS.nonempty (error_text errorJson) with
      | Some e => inr ("Ollama API Error: " +:+ e)
      | None =>
          match text response with
          | inr t => inr ("Ollama API Error: " +:+ t)
          | inl _ => in_catch
          end
      end
  | inl _ => in_catch
  end.

Definition catch (error : JS.Exn) (s : S) : S :=
  if String.eqb (JS.exn_name error) "AbortError"
  then Legacy.onFinish callbacks "aborted" s
  else Legacy.onFinish callbacks "error"
         (Legacy.onError callbacks
            ("Failed to connect to Ollama API: "
             +:+ JS.or_default (Some (JS.exn_message error)) "Unknown error") s).

Definition generateResponse (messages : list OpenAIMessage)
    (settings : ObsigentPluginSettings) (abortController : bool) (s : S)
  : list Request * S :=
  match providerSettings settings providerName with
  | None => ([], Legacy.onError callbacks "Ollama API endpoint or default model is not set." s)
  | Some providerSettings =>
      match JS.nonempty (apiEndpoint providerSettings),
            JS.nonempty (defaultModel providerSettings) with
      | Some apiEndpoint, Some defaultModel =>
          let requestBody := OllamaChatRequest defaultModel messages true in
          let request :=
            mkRequest apiEndpoint "POST" [("Content-Type", "application/json")]
              requestBody abortController in
          ([request],
           match fetch request with
           | Rejects error => catch error s
           | Resolves response =>
               if negb (ok response) then
                 match errorDetails response with
                 | inr details => Legacy.onError callbacks details s
                 | inl error => catch error s
                 end
               else
                 match stream response with
                 | None => Legacy.onError callbacks "Response body is null from Ollama." s
                 | Some body =>
                     match readLoop (reads body) (failure body) "" s with
                     | (inl error, s) => catch error s
                     | (inr _, s) => s
                     end
                 end
           end)
      | _, _ =>
          ([], Legacy.onError callbacks "Ollama API endpoint or default model is not set." s)
      end
  end.

End Adapter.
End OllamaProvider.

(** ** [AnthropicProvider.generateResponse] *)

Module AnthropicProvider.
Import Net.

Definition providerName : LLMProviderType := anthropic.

(** [AnthropicStreamEvent], at the fields read. *)
Record AnthropicStreamEvent := mkEvent {
  delta_type : option string;            (* [parsedData.delta?.type] *)
  delta_text : option string;            (* [parsedData.delta.text] *)
  event_error_message : option string    (* [parsedData.error?.message] *)
}.

(** The loop of [convertToAnthropicMessages]. *)
Fixpoint convert (messages : list OpenAIMessage)
    (anthropicMessages : list AnthropicMessage) (systemPrompt : option string)
  : list AnthropicMessage * option string :=
  match messages with
  | [] => (anthropicMessages, systemPrompt)
  | msg :: messages =>
      match role msg with
      | system =>
          convert messages anthropicMessages
            (if JS.truthy (content msg) then content msg else systemPrompt)
      | user | assistant =>
          match JS.nonempty (content msg) with
          | Some c =>
              convert messages
                (anthropicMessages ++ [mkAnthropicMessage (role msg) c]) systemPrompt
          | None => convert messages anthropicMessages systemPrompt
          end
      | tool => convert messages anthropicMessages systemPrompt
      end
  end.

Definition convertToAnthropicMessages (messages : list OpenAIMessage)
  : list AnthropicMessage * option string :=
  convert messages [] None.

Section Adapter.
Context {S : Type}.
Variable JSON_parse : string -> option AnthropicStreamEvent.
Variable fetch : Request -> FetchResult.
Variable callbacks : Legacy.StreamCallbacks S.

(** [for (const line of eventLines) { ... }] *)
Definition scanLines (eventLines : list string) : string * string :=
  foldl (fun '(eventType, eventData) line =>
           if Str.startsWith "event: " line
           then (Str.trim (Str.substring_from 7 line), eventData)
           else if Str.startsWith "data: " line
           then (eventType, Str.trim (Str.substring_from 6 line))
           else (eventType, eventData))
        ("", "") eventLines.

(** One SSE event, from [const eventLines = ...] on. *)
Definition processEvent (event : string) (s : S) : Flow * S :=
  let '(eventType, eventData) := scanLines (Str.split_lines event) in
  if negb (String.eqb eventData "") then
    match JSON_parse eventData with
    | None => (Next, s)                                          (* catch (e) *)
    | Some parsedData =>
        if String.eqb eventType "content_block_delta" then
          match delta_type parsedData, delta_text parsedData with
          | Some ty, Some t =>
              if String.eqb ty "text_delta" && JS.truthy (Some t)
              then (Next, Legacy.onContent callbacks t false s)
              else (Next, s)
          | _, _ => (Next, s)
          end
        else if String.eqb eventType "message_stop" then
          (Return, Legacy.onFinish callbacks "stop" s)
        else if String.eqb eventType "error" then
          (Return,
           Legacy.onError callbacks
             ("Anthropic API Error: "
              +:+ JS.or_default (event_error_message parsedData) "Unknown stream error") s)
        else (Next, s)              (* message_start, message_delta, ping, default *)
    end
  else (Next, s).

(** [while ((eventEndIndex = buffer.indexOf('\n\n')) !== -1) { ... }] *)
Fixpoint drain (fuel : nat) (buffer : string) (s : S) : Flow * string * S :=
  match fuel with
  | 0 => (Next, buffer, s)
  | Datatypes.S fuel =>
      match Str.indexOf (Str.LF +:+ Str.LF) buffer with
      | None => (Next, buffer, s)
      | Some eventEndIndex =>
          let event := Str.substring_to eventEndIndex buffer in
          let buffer := Str.substring_from (eventEndIndex + 2) buffer in
          match processEvent event s with
          | (Return, s) => (Return, buffer, s)
          | (Next, s) => drain fuel buffer s
          end
      end
  end.

Fixpoint readLoop (reads : list string) (failure : option JS.Exn)
    (buffer : string) (s : S) : (JS.Exn + unit) * S :=
  match reads with
  | [] =>
      match failure with
      | Some e => (inl e, s)
      | None => (inr (), Legacy.onFinish callbacks "done_outside_loop" s)
      end
  | value :: reads =>
      let buffer := buffer +:+ value in
      match drain (Datatypes.S (String.length buffer)) buffer s with
      | (Return, _, s) => (inr (), s)
      | (Next, buffer, s) => readLoop reads failure buffer s
      end
  end.

Definition errorDetails (response : Response) : JS.Exn + string :=
  let in_catch :=
    match text response with
    | inr t => inr ("HTTP Error " +:+ pretty (status response) +:+ ": "
                    +:+ JS.or_default (Some t) "Failed to parse error response.")
    | inl e => inl e
    end in
  match json response with
  | inr errorJson =>
      match error errorJson ≫= fun e => JS.nonempty (error_message e) with
      | Some m =>
          inr (JS.or_default (error errorJson ≫= error_type) "API Error" +:+ ": " +:+ m)
      | None =>
          match JS.nonempty (detail errorJson) with
          | Some d => inr ("API Error: " +:+ d)
          | None =>
              match text response with
              | inr t => inr ("HTTP Error " +:+ pretty (status response) +:+ ": "
                              +:+ JS.or_default (Some t) "No additional details")
              | inl _ => in_catch
              end
          end
      end
  | inl _ => in_catch
  end.

Definition catch (error : JS.Exn) (s : S) : S :=
  if String.eqb (JS.exn_name error) "AbortError"
  then Legacy.onFinish callbacks "aborted" s
  else Legacy.onError callbacks
         ("Failed to connect to Anthropic API: "
          +:+ JS.or_default (Some (JS.exn_message error)) "Unknown error") s.

Definition generateResponse (messages : list OpenAIMessage)
    (settings : ObsigentPluginSettings) (abortController : bool) (s : S)
  : list Request * S :=
  let providerSettings :=
    default noProviderSettings (providerSettings settings providerName) in
  let apiKey := apiKey providerSettings in
  let apiBaseUrl := JS.or_default (apiEndpoint providerSettings) "https://api.anthropic.com" in
  let defaultModel :=
    JS.or_default (defaultModel providerSettings) "claude-3-haiku-20240307" in
  match JS.nonempty apiKey with
  | None => ([], Legacy.onError callbacks "Anthropic API key is not set." s)
  | Some apiKey =>
      if String.eqb defaultModel "" then
        ([], Legacy.onError callbacks "Anthropic Default model is not set." s)
      else
        let '(anthropicMessages, systemPrompt) := convertToAnthropicMessages messages in
        if Nat.eqb (length anthropicMessages) 0 && negb (JS.truthy systemPrompt) then
          ([], Legacy.onError callbacks "No messages to send to Anthropic." s)
        else
          let requestBody :=
            AnthropicRequest defaultModel anthropicMessages "4096" true "0.7"
              (JS.nonempty systemPrompt) in
          let fullApiUrl := Str.strip_trailing_slashes apiBaseUrl +:+ "/v1/messages" in
          let request :=
            mkRequest fullApiUrl "POST"
              [("Content-Type", "application/json"); ("x-api-key", apiKey);
               ("anthropic-version", "2023-06-01")]
              requestBody abortController in
          ([request],
           match fetch request with
           | Rejects error => catch error s
           | Resolves response =>
               if negb (ok response) then
                 match errorDetails response with
                 | inr details => Legacy.onError callbacks details s
                 | inl error => catch error s
                 end
               else
                 match stream response with
                 | None => Legacy.onError callbacks "Response body is null." s
                 | Some body =>
                     match readLoop (reads body) (failure body) "" s with
                     | (inl error, s) => catch error s
                     | (inr _, s) => s
                     end
                 end
           end)
  end.

End Adapter.
End AnthropicProvider.

(** ** [LocalToolService] (the generation with Obsidian commands as tools) *)

Module LocalToolService.

Record McpToolSchema := mkSchema {               (* type: "object" *)
  properties : list (string * (string * string)); (* name, type, description *)
  required : list string
}.

Record McpToolAnnotations := mkAnnotations {
  title : option string;
  readOnlyHint : option bool;
  destructiveHint : option bool;
  idempotentHint : option bool;
  openWorldHint : option bool
}.

Record McpTool := mkTool {
  tool_name : string;
  description : option string;
  inputSchema : option McpToolSchema;
  annotations : option McpToolAnnotations
}.

Record CachedCommandMcpDetails := mkCached {
  cached_id : string;
  originalName : string;
  cached_description : option string;
  cached_inputSchema : McpToolSchema;
  cached_annotations : option McpToolAnnotations
}.

(** An Obsidian [Command], at the fields read. *)
Record Command := mkCommand {
  command_id : string;
  command_name : string
}.

(** [McpToolCallResult]; every content block has type ["text"]. *)
Record McpToolCallResult := mkResult {
  isError : bool;
  result_content : list string
}.

(** The parsed arguments of a tool call, at the keys the tools read. *)
Record Args := mkArgs {
  arg_path : option string;
  arg_content : option string;
  arg_query : option string;
  arg_max_results : option nat
}.

Inductive AbstractFile := TFile | TFolder.

(** The host application as an oracle: what each primitive answers.
    [inl e] is a thrown or rejected [e]. *)
Record App := mkApp {
  listCommands : list Command;
  executeCommandById : string -> JS.Exn + bool;
  getAbstractFileByPath : string -> option AbstractFile;
  read : string -> JS.Exn + string;
  createFolder : string -> JS.Exn + unit;
  create : string -> string -> JS.Exn + unit;
  modify : string -> string -> JS.Exn + unit;
  getMarkdownFiles : list string;
  cachedRead : string -> JS.Exn + string
}.

(** What a tool does to the host, in order. *)
Inductive Effect :=
| ExecuteCommandById (id : string)
| CreateFolder (path : string)
| Create (path content : string)
| Modify (path content : string)
| Notice (message : string)
| SaveCommandMcpCacheToFile (cache : gmap string CachedCommandMcpDetails).

Record Service := mkService {
  localTools : list McpTool;
  commandMcpCache : gmap string CachedCommandMcpDetails
}.

Definition failed (text : string) : McpToolCallResult := mkResult true [text].
Definition succeeded (text : string) : McpToolCallResult := mkResult false [text].

(** The static tools of [registerLocalTools]. *)
Definition registerLocalTools (localTools : list McpTool) : list McpTool :=
  let addToolIfNotExists (localTools : list McpTool) (tool : McpTool) :=
    if existsb (fun t => String.eqb (tool_name t) (tool_name tool)) localTools
    then localTools else localTools ++ [tool] in
  let localTools := addToolIfNotExists localTools
    (mkTool "obsidian_readFile"
       (Some "Reads the content of a specified file in the Obsidian vault. Provide the full path to the file.")
       (Some (mkSchema
          [("path", ("string", "The full path to the file within the Obsidian vault (e.g., " +:+ Str.DQ +:+ "folder/note.md" +:+ Str.DQ +:+ ")."))]
          ["path"]))
       (Some (mkAnnotations (Some "Read File") (Some true) None None (Some false)))) in
  let localTools := addToolIfNotExists localTools
    (mkTool "obsidian_writeFile"
       (Some "Writes or overwrites content to a specified file in the Obsidian vault. Provide the full path and content. If the file does not exist, it will be created.")
       (Some (mkSchema
          [("path", ("string", "The full path to the file within the Obsidian vault (e.g., " +:+ Str.DQ +:+ "folder/note.md" +:+ Str.DQ +:+ ")."));
           ("content", ("string", "The content to write to the file."))]
          ["path"; "content"]))
       (Some (mkAnnotations (Some "Write File") (Some false) (Some true) (Some false) (Some false)))) in
  addToolIfNotExists localTools
    (mkTool "obsidian_searchNotes"
       (Some "Searches the content of all notes in the Obsidian vault for a given query string. Returns a list of matching file paths and a brief snippet from each.")
       (Some (mkSchema
          [("query", ("string", "The search query string."));
           ("max_results", ("number", "Optional. The maximum number of search results to return. Defaults to 5."))]
          ["query"]))
       (Some (mkAnnotations (Some "Search Notes") (Some true) None None (Some false)))).

Section Tools.
Variable app : App.
(** [String.prototype.toLowerCase] and [JSON.stringify] of the list of
    [{ path, contentSnippet }] objects. *)
Variable toLowerCase : string -> string.
Variable JSON_stringify : list (string * string) -> string.

Definition readFile (path : option string) : McpToolCallResult * list Effect :=
  match JS.nonempty path with
  | None => (failed "Path is required for readFile.", [])
  | Some path =>
      match getAbstractFileByPath app path with
      | None => (failed ("File not found at path: " +:+ path), [])
      | Some TFolder => (failed ("Path does not point to a file: " +:+ path), [])
      | Some TFile =>
          match read app path with
          | inr content => (succeeded content, [])
          | inl e =>
              let errorMsg :=
                "Error reading file '" +:+ path +:+ "': " +:+ JS.exn_message e in
              (failed errorMsg, [Notice errorMsg])
          end
      end
  end.

Definition writeFile (path content : option string) : McpToolCallResult * list Effect :=
  match JS.nonempty path with
  | None => (failed "Path is required for writeFile.", [])
  | Some path =>
      match content with
      | None => (failed "Content is required for writeFile.", [])
      | Some content =>
          let caught (e : JS.Exn) (done : list Effect) :=
            let errorMsg :=
              "Error writing file '" +:+ path +:+ "': " +:+ JS.exn_message e in
            (failed errorMsg, done ++ [Notice errorMsg]) in
          let written (done : list Effect) :=
            (succeeded ("Successfully wrote to file: " +:+ path), done) in
          match getAbstractFileByPath app path with
          | Some TFolder => (failed ("Path exists but is not a file: " +:+ path), [])
          | Some TFile =>
              match modify app path content with
              | inr _ => written [Modify path content]
              | inl e => caught e []
              end
          | None =>
              let parentPath := Str.substring_to (default 0 (Str.lastIndexOf "/" path)) path in
              let makeFile (done : list Effect) :=
                match create app path content with
                | inr _ => written (done ++ [Create path content])
                | inl e => caught e done
                end in
              if negb (String.eqb parentPath "")
                 && negb (bool_decide (is_Some (getAbstractFileByPath app parentPath)))
              then
                match createFolder app parentPath with
                | inr _ => makeFile [CreateFolder parentPath]
                | inl e => caught e []
                end
              else makeFile []
          end
      end
  end.

(** [for (const file of files) { ... }] of [searchNotes]. *)
Fixpoint searchLoop (query : string) (limit : nat) (files : list string)
    (searchResults : list (string * string)) : JS.Exn + list (string * string) :=
  match files with
  | [] => inr searchResults
  | file :: files =>
      if Nat.leb limit (length searchResults) then inr searchResults   (* break *)
      else
        match cachedRead app file with
        | inl e => inl e
        | inr fileContent =>
            match Str.indexOf (toLowerCase query) (toLowerCase fileContent) with
            | Some queryIndex =>
                let snippetStart := queryIndex - 50 in
                let snippetEnd :=
                  String.length fileContent `min` (queryIndex + String.length query + 150) in
                let snippet := Str.substring snippetStart snippetEnd fileContent in
                let snippet := if Nat.ltb 0 snippetStart then "..." +:+ snippet else snippet in
                let snippet :=
                  if Nat.ltb snippetEnd (String.length fileContent)
                  then snippet +:+ "..." else snippet in
                searchLoop query limit files (searchResults ++ [(file, snippet)])
            | None => searchLoop query limit files searchResults
            end
        end
  end.

Definition searchNotes (query : option string) (max_results : option nat)
  : McpToolCallResult * list Effect :=
  match JS.nonempty query with
  | None => (failed "Query is required for searchNotes.", [])
  | Some query =>
      let MAX_RESULTS_DEFAULT := 5 in
      let limit :=
        match max_results with
        | Some (Datatypes.S n) => Datatypes.S n
        | _ => MAX_RESULTS_DEFAULT
        end in
      match searchLoop query limit (getMarkdownFiles app) [] with
      | inr searchResults => (succeeded (JSON_stringify searchResults), [])
      | inl e =>
          let errorMsg := "Error searching notes: " +:+ JS.exn_message e in
          (failed errorMsg, [Notice errorMsg])
      end
  end.

(** [executeTool(toolName, args)] *)
Definition executeTool (service : Service) (toolName : string) (args : Args)
  : McpToolCallResult * Service * list Effect :=
  let obsidianCommand :=
    find (fun cmd => String.eqb (command_id cmd) toolName) (listCommands app) in
  match obsidianCommand with
  | Some obsidianCommand =>
      let '(result, effects) :=
        match executeCommandById app toolName with
        | inr _ =>
            (succeeded ("Successfully executed Obsidian command: "
                        +:+ command_name obsidianCommand),
             [ExecuteCommandById toolName])
        | inl e =>
            let errorMsg :=
              "Error executing Obsidian command '" +:+ toolName +:+ "': "
              +:+ JS.exn_message e in
            (failed errorMsg, [ExecuteCommandById toolName; Notice errorMsg])
        end in
      (* the cache entry of the executed command is refreshed *)
      match find (fun t => String.eqb (tool_name t) toolName) (localTools service) with
      | Some toolDefinition =>
          let commandMcpCache :=
            <[toolName :=
                mkCached toolName (command_name obsidianCommand)
                  (Some (JS.or_default (description toolDefinition)
                           ("Obsidian Command: " +:+ command_name obsidianCommand)))
                  (default (mkSchema [] []) (inputSchema toolDefinition))
                  (Some (default
                           (mkAnnotations (Some (command_name obsidianCommand))
                              None None None None)
                           (annotations toolDefinition)))]>
              (commandMcpCache service) in
          (result, mkService (localTools service) commandMcpCache,
           effects ++ [SaveCommandMcpCacheToFile commandMcpCache])
      | None => (result, service, effects)
      end
  | None =>                            (* non-Obsidian commands (local tools) *)
      let '(result, effects) :=
        if String.eqb toolName "obsidian_readFile" then readFile (arg_path args)
        else if String.eqb toolName "obsidian_writeFile"
        then writeFile (arg_path args) (arg_content args)
        else if String.eqb toolName "obsidian_searchNotes"
        then searchNotes (arg_query args) (arg_max_results args)
        else (failed ("Local tool '" +:+ toolName +:+ "' not found."), []) in
      (result, service, effects)
  end.

(** The [switch] over the built-in local tools, on its own: what the
    built-in handler of [toolName] answers, if there is one. *)
Definition builtin (toolName : string) (args : Args)
  : option (McpToolCallResult * list Effect) :=
  if String.eqb toolName "obsidian_readFile" then Some (readFile (arg_path args))
  else if String.eqb toolName "obsidian_writeFile"
  then Some (writeFile (arg_path args) (arg_content args))
  else if String.eqb toolName "obsidian_searchNotes"
  then Some (searchNotes (arg_query args) (arg_max_results args))
  else None.

End Tools.

(** The lookup order as the specification states it: a name of a
    built-in local tool is served by the built-in handler, whatever the
    host commands are. *)
Definition builtin_first_as_stated : Prop :=
  forall (app : App) (toLowerCase : string -> string)
         (JSON_stringify : list (string * string) -> string)
         (service : Service) (toolName : string) (args : Args)
         (result : McpToolCallResult) (effects : list Effect),
    builtin app toLowerCase JSON_stringify toolName args = Some (result, effects) ->
    executeTool app toLowerCase JSON_stringify service toolName args
    = (result, service, effects).

End LocalToolService.

(** ** [ObsigentPluginCore] ([main.ts], the [onUpdate]/[onToolCall]
       generation with [continueGenerationWithTools]) *)

Module Core.
Import LocalToolService.

(** The id of a message of the chat view. *)
Definition MessageEl := string.

(** The calls made on the chat view, in order. *)
Inductive ViewEvent :=
| DisplayMessage (text sender : string)
| StartStreamingResponse
| UpdateStreamingResponse (el : MessageEl) (newContent : string)
| FinalizeStreamingResponse (el : MessageEl) (finalContent : string)
| OnGenerationFinished.

Record State := mkState {
  chatHistory : list OpenAIMessage;
  localToolService : Service;
  chatView : list ViewEvent;
  host : list Effect;
  requests : list Net.Request;
  (** calls of [continueGenerationWithTools] that were started and not
      awaited; they go on once the running adapter call is over *)
  continuations : nat
}.

Definition push (msgs : list OpenAIMessage) (st : State) : State :=
  mkState (chatHistory st ++ msgs) (localToolService st) (chatView st) (host st)
    (requests st) (continuations st).

Definition view (evs : list ViewEvent) (st : State) : State :=
  mkState (chatHistory st) (localToolService st) (chatView st ++ evs) (host st)
    (requests st) (continuations st).

Definition toolMessage (tool_call_id content : string) : OpenAIMessage :=
  mkMessage tool (Some content) None (Some tool_call_id).

(** The content of the tool entry for a name without handler. *)
Definition not_recognized (toolName : string) : string :=
  "Error: Tool '" +:+ toolName +:+ "' is not a recognized local or Obsidian command.".


Section Orchestrator.
Variable app : App.
Variable toLowerCase : string -> string.
Variable JSON_stringify : list (string * string) -> string.
(** [JSON.parse(toolCall.function.arguments)]; [inl e] when it throws. *)
Variable JSON_parse : string -> JS.Exn + Args.
(** [JSON.stringify(toolArgs, null, 2)] *)
Variable JSON_stringify_pretty : Args -> string.
(** [chatView.startStreamingResponse()], given what the view has been
    asked so far; [None] is [null]. *)
Variable startStreamingResponse : list ViewEvent -> option MessageEl.
Variable settings : ObsigentPluginSettings.
(** [this.activeLLMProvider.generateResponse] *)
Variable activeLLMProvider :
  StreamCallbacks State -> list OpenAIMessage -> ObsigentPluginSettings -> bool ->
  State -> list Net.Request * State.

(** [for (const toolCall of toolCalls) { ... }] of [onToolCall].
    The result carries the exception when an iteration throws. *)
Fixpoint runToolCalls (toolCalls : list OpenAIToolCall)
    (toolResultMessages : list OpenAIMessage) (st : State)
  : State * list OpenAIMessage * option JS.Exn :=
  match toolCalls with
  | [] => (st, toolResultMessages, None)
  | toolCall :: toolCalls =>
      let toolName := name (function toolCall) in
      match JSON_parse (arguments (function toolCall)) with
      | inl e => (st, toolResultMessages, Some e)
      | inr toolArgs =>
          let st :=
            view [DisplayMessage
                    ("Running tool: " +:+ toolName +:+ " with arguments: "
                     +:+ JSON_stringify_pretty toolArgs) "tool"] st in
          match find (fun t => String.eqb (tool_name t) toolName)
                     (localTools (localToolService st)) with
          | Some localTool =>
              let '(result, service, effects) :=
                executeTool app toLowerCase JSON_stringify
                  (localToolService st) toolName toolArgs in
              let st :=
                mkState (chatHistory st) service (chatView st) (host st ++ effects)
                  (requests st) (continuations st) in
              let resultContentString := String.concat Str.LF (result_content result) in
              let resultContentString :=
                if isError result then "Error: " +:+ resultContentString
                else resultContentString in
              let toolResultMessages :=
                toolResultMessages ++ [toolMessage (id toolCall) resultContentString] in
              let st :=
                if isError result
                then view [DisplayMessage
                             ("Error executing tool " +:+ toolName +:+ ": "
                              +:+ resultContentString) "error"] st
                else st in
              runToolCalls toolCalls toolResultMessages st
          | None =>
              let errorMessage :=
                "Tool '" +:+ toolName
                +:+ "' is not a recognized local or Obsidian command." in
              let toolResultMessages :=
                toolResultMessages
                ++ [toolMessage (id toolCall) ("Error: " +:+ errorMessage)] in
              runToolCalls toolCalls toolResultMessages
                (view [DisplayMessage errorMessage "error"] st)
          end
      end
  end.

(** [streamCallbacks.onToolCall] *)
Definition onToolCall (toolCalls : list OpenAIToolCall) (st : State)
  : State * option JS.Exn :=
  match toolCalls with
  | [] => (st, None)
  | _ =>
      match runToolCalls toolCalls [] st with
      | (st, _, Some e) => (st, Some e)
      | (st, toolResultMessages, None) =>
          let st := push toolResultMessages st in
          (* this.continueGenerationWithTools(chatView, abortController) *)
          (mkState (chatHistory st) (localToolService st) (chatView st) (host st)
             (requests st) (Datatypes.S (continuations st)), None)
      end
  end.

(** [onFinish] and [onError], the same text in [handleUserMessage]
    and, with another prefix, in [continueGenerationWithTools]. *)
Definition onFinish (reason : string) (st : State) : State :=
  view [OnGenerationFinished] st.

Definition onError (prefix : string) (errorMsg : string) (st : State) : State :=
  view [DisplayMessage (prefix +:+ errorMsg) "error"; OnGenerationFinished] st.

(** The [onUpdate] of [currentCallStreamCallbacks].  It is asynchronous
    and the adapter does not await it; its effects are taken at the call,
    which only moves them before the adapter's next callback. *)
Definition onUpdate (activeStreamingMessageEl : option MessageEl)
    (chunk : string) (isFinal : bool) (st : State) : State :=
  match activeStreamingMessageEl with
  | Some el =>
      let st := view [UpdateStreamingResponse el chunk] st in
      if isFinal then
        push [mkMessage assistant (Some chunk) None None]
          (view [FinalizeStreamingResponse el chunk] st)
      else st
  | None => st
  end.

(** The [catch (error: unknown)] of both methods. *)
Definition failedTurn (activeStreamingMessageEl : option MessageEl)
    (errorMessage fallback : string) (st : State) : State :=
  let text := "Error: " +:+ JS.or_default (Some errorMessage) fallback in
  let st :=
    match activeStreamingMessageEl with
    | Some el => view [FinalizeStreamingResponse el text] st
    | None => view [DisplayMessage text "error"] st
    end in
  push [mkMessage assistant (Some text) None None] (view [OnGenerationFinished] st).

Definition generate (callbacks : StreamCallbacks State) (abortController : bool)
    (st : State) : State :=
  let '(sent, st') := activeLLMProvider callbacks (chatHistory st) settings abortController st in
  mkState (chatHistory st') (localToolService st') (chatView st') (host st')
    (requests st' ++ sent) (continuations st').

(** [continueGenerationWithTools] *)
Definition continueGenerationWithTools (abortController : bool) (st : State) : State :=
  let activeStreamingMessageEl := startStreamingResponse (chatView st) in
  let st := view [StartStreamingResponse] st in
  match activeStreamingMessageEl with
  | None =>
      failedTurn None
        "Could not create streaming message element for continued generation."
        "Failed to continue response." st
  | Some el =>
      generate
        (mkCallbacks (onUpdate (Some el)) None (onError "Error after tool use: ") onFinish)
        abortController st
  end.

(** The started continuations run to their end. *)
Definition settle (abortController : bool) (st : State) : State :=
  let n := continuations st in
  let st :=
    mkState (chatHistory st) (localToolService st) (chatView st) (host st)
      (requests st) 0 in
  Nat.iter n (continueGenerationWithTools abortController) st.

(** [handleUserMessage] *)
Definition handleUserMessage (messageText : string) (abortController : bool)
    (st : State) : State :=
  let st := push [mkMessage user (Some messageText) None None] st in
  let activeStreamingMessageEl := startStreamingResponse (chatView st) in
  let st := view [StartStreamingResponse] st in
  match activeStreamingMessageEl with
  | None =>
      failedTurn None "Could not create streaming message element."
        "Failed to get response." st
  | Some el =>
      settle abortController
        (generate
           (mkCallbacks (onUpdate (Some el)) (Some onToolCall) (onError "Error: ") onFinish)
           abortController st)
  end.

End Orchestrator.
End Core.

(** ** [ObsigentPluginCore] ([src/main.ts], the [onContent]/[onToolCallsDone]
       generation with [processLlmTurn]) *)

Module LegacyCore.
Import LocalToolService.

Definition MessageEl := string.

Inductive ViewEvent :=
| DisplayMessage (text sender : string)
| UpdateAIMessageContent (el : MessageEl) (newContent : string) (isFinal : bool)
| OnGenerationFinished.

(** What [LocalToolService.executeTool] of that generation returns:
    [{ result?, error? }], the result as its [JSON.stringify(result)]
    and [JSON.stringify(result, null, 2)] texts. *)
Record ToolExecutionResult := mkToolExecutionResult {
  result : option string;
  result_pretty : option string;
  error : option string
}.

Record State := mkState {
  chatHistory : list OpenAIMessage;
  accumulatedContent : string;
  aiMessageContentEl : option MessageEl;
  currentToolCalls : list OpenAIToolCall;
  view : list ViewEvent;
  notices : list string;
  requests : list Net.Request
}.

Definition push (msg : OpenAIMessage) (st : State) : State :=
  mkState (chatHistory st ++ [msg]) (accumulatedContent st) (aiMessageContentEl st)
    (currentToolCalls st) (view st) (notices st) (requests st).

Definition show (ev : ViewEvent) (st : State) : State :=
  mkState (chatHistory st) (accumulatedContent st) (aiMessageContentEl st)
    (currentToolCalls st) (view st ++ [ev]) (notices st) (requests st).

Section Orchestrator.
Variable toLowerCase : string -> string.
(** [JSON.parse(toolCall.function.arguments)]: [inl e] when it throws;
    the value parsed is [null] ([None]) or is read at the fields the
    tools look at. *)
Variable JSON_parse : string -> JS.Exn + option Args.
(** [JSON.stringify({ error: msg })] and
    [JSON.stringify({ error: msg }, null, 2)] *)
Variable JSON_stringify_error : string -> string.
Variable JSON_stringify_error_pretty : string -> string.
(** [JSON.stringify(args, null, 2)] *)
Variable JSON_stringify_pretty : option Args -> string.
(** [await this.localToolService.executeTool(name, args)]; [inl e] when
    the promise rejects, as it does when a tool reads a field of [null]. *)
Variable executeTool : string -> option Args -> JS.Exn + ToolExecutionResult.
(** [view.displayMessage(" ", 'ai')], given the view's history. *)
Variable displayMessage : list ViewEvent -> option MessageEl.
Variable settings : ObsigentPluginSettings.
Variable activeLLMProvider :
  Legacy.StreamCallbacks State -> list OpenAIMessage -> ObsigentPluginSettings -> bool ->
  State -> list Net.Request * State.

Definition onContent (contentChunk : string) (isFinal : bool) (st : State) : State :=
  match aiMessageContentEl st with
  | None => st
  | Some el =>
      let accumulatedContent := accumulatedContent st +:+ contentChunk in
      show (UpdateAIMessageContent el accumulatedContent isFinal)
        (mkState (chatHistory st) accumulatedContent (aiMessageContentEl st)
           (currentToolCalls st) (view st) (notices st) (requests st))
  end.

Definition onFinish (reason : string) (st : State) : State :=
  let st :=
    if String.eqb reason "stop" && Nat.eqb (length (currentToolCalls st)) 0
    then push (mkMessage assistant (Some (accumulatedContent st)) None None) st
    else st in
  show OnGenerationFinished st.

Definition onError (error : string) (st : State) : State :=
  let blank := String.eqb (Str.trim (accumulatedContent st)) "" in
  let unsupported :=
    bool_decide (is_Some (Str.indexOf "unsupported" (toLowerCase error))) in
  let st :=
    match aiMessageContentEl st with
    | Some el =>
        if blank && negb unsupported then show (UpdateAIMessageContent el error true) st
        else if negb blank then show (DisplayMessage error "error") st
        else st
    | None => show (DisplayMessage error "error") st
    end in
  show OnGenerationFinished st.

(** What the loop does with the result of one tool. *)
Definition report (toolCall : OpenAIToolCall) (toolExecutionResult : ToolExecutionResult)
    (st : State) : State :=
  let toolName := name (function toolCall) in
  let originalToolResultForHistory :=
    match JS.nonempty (error toolExecutionResult) with
    | Some e => Some (JSON_stringify_error e)
    | None => result toolExecutionResult
    end in
  let toolResponseMessageContent :=
    "```json" +:+ Str.LF
    +:+ match JS.nonempty (error toolExecutionResult) with
        | Some e => JSON_stringify_error_pretty e
        | None => Str.template (result_pretty toolExecutionResult)
        end
    +:+ Str.LF +:+ "```" in
  let st :=
    push (mkMessage tool originalToolResultForHistory None (Some (id toolCall))) st in
  show (DisplayMessage
          ("**Tool Result for `" +:+ toolName +:+ "`:**" +:+ Str.LF
           +:+ toolResponseMessageContent) "system") st.

(** [for (const toolCall of typedToolCalls) { ... }] of
    [onToolCallsDone].  The two [JSON.parse] are inside a [try]; the
    [await] of [executeTool] is not, so that a rejection leaves the loop
    and rejects [onToolCallsDone]: the result carries the exception. *)
Fixpoint runToolCalls (typedToolCalls : list OpenAIToolCall) (st : State)
  : State * option JS.Exn :=
  match typedToolCalls with
  | [] => (st, None)
  | toolCall :: typedToolCalls =>
      let toolName := name (function toolCall) in
      let argsStringForDisplay :=
        match JSON_parse (arguments (function toolCall)) with
        | inr args => "```json" +:+ Str.LF +:+ JSON_stringify_pretty args +:+ Str.LF +:+ "```"
        | inl _ => arguments (function toolCall)
        end in
      let st :=
        show (DisplayMessage
                ("**Calling Tool:** `" +:+ toolName +:+ "`" +:+ Str.LF
                 +:+ "**Arguments:**" +:+ Str.LF +:+ argsStringForDisplay) "system") st in
      match JSON_parse (arguments (function toolCall)) with
      | inl e =>
          let errorMsg :=
            "Error parsing arguments for tool " +:+ toolName +:+ ": " +:+ JS.exn_message e in
          let st := show (DisplayMessage errorMsg "error") st in
          let st :=
            push (mkMessage tool (Some (JSON_stringify_error errorMsg)) None
                    (Some (id toolCall))) st in
          runToolCalls typedToolCalls st                               (* continue *)
      | inr args =>
          if Str.startsWith "obsidian_" toolName then
            match executeTool toolName args with
            | inl e => (st, Some e)                                    (* rejected *)
            | inr toolExecutionResult =>
                runToolCalls typedToolCalls (report toolCall toolExecutionResult st)
            end
          else
            let toolExecutionResult :=
              mkToolExecutionResult None None
                (Some ("ToolHive-managed MCP tool execution for '" +:+ toolName
                       +:+ "' is not yet fully implemented here.")) in
            let st :=
              mkState (chatHistory st) (accumulatedContent st) (aiMessageContentEl st)
                (currentToolCalls st) (view st)
                (notices st ++ ["ToolHive tool '" +:+ toolName
                                +:+ "' execution is pending full integration."])
                (requests st) in
            runToolCalls typedToolCalls (report toolCall toolExecutionResult st)
      end
  end.

(** [processLlmTurn]; it calls itself from [onToolCallsDone], once
    per answer of the model that asks for tools, which [fuel] bounds. *)
Fixpoint processLlmTurn (fuel : nat) (messagesForLlm : list OpenAIMessage)
    (isFollowUp : bool) (abortController : bool) (st : State) : State :=
  match fuel with
  | 0 => st
  | S fuel =>
      let st :=
        mkState (chatHistory st) "" (aiMessageContentEl st) (currentToolCalls st)
          (view st) (notices st) (requests st) in
      let st :=
        if isFollowUp then
          let el := displayMessage (view st) in
          show (DisplayMessage " " "ai")
            (mkState (chatHistory st) (accumulatedContent st) el (currentToolCalls st)
               (view st) (notices st) (requests st))
        else
          match aiMessageContentEl st with
          | Some el => show (UpdateAIMessageContent el " " false) st
          | None => st
          end in
      let st :=
        mkState (chatHistory st) (accumulatedContent st) (aiMessageContentEl st) []
          (view st) (notices st) (requests st) in
      let onToolCallsDone (toolCallsFromProvider : list OpenAIToolCall) (st : State) :=
        match toolCallsFromProvider with
        | [] => (st, None)
        | typedToolCalls =>
            let st :=
              mkState (chatHistory st) (accumulatedContent st) (aiMessageContentEl st)
                typedToolCalls (view st) (notices st) (requests st) in
            let st :=
              push (mkMessage assistant (Some (accumulatedContent st))
                      (Some typedToolCalls) None) st in
            let st :=
              mkState (chatHistory st) "" (aiMessageContentEl st) (currentToolCalls st)
                (view st) (notices st) (requests st) in
            let st :=
              show (DisplayMessage
                      ("Assistant wants to use tool(s): "
                       +:+ String.concat ", "
                             ((fun tc => "`" +:+ name (function tc) +:+ "`")
                                <$> typedToolCalls)) "system") st in
            match runToolCalls typedToolCalls st with
            | (st, Some e) => (st, Some e)
            | (st, None) =>
                let st :=
                  show (DisplayMessage "Sending tool results back to assistant..." "system")
                    st in
                (processLlmTurn fuel (chatHistory st) true abortController st, None)
            end
        end in
      let streamCallbacks :=
        Legacy.mkCallbacks onContent (Some onToolCallsDone) onError onFinish in
      let '(sent, st) :=
        activeLLMProvider streamCallbacks messagesForLlm settings abortController st in
      mkState (chatHistory st) (accumulatedContent st) (aiMessageContentEl st)
        (currentToolCalls st) (view st) (notices st) (requests st ++ sent)
  end.

End Orchestrator.
End LegacyCore.

(** ** Observing an adapter: the callbacks it invokes, in order *)

Module Trace.

Inductive Event :=
| Update (contentChunk : string) (isFinal : bool)         (* onUpdate *)
| Content (contentChunk : string) (isFinal : bool)        (* onContent *)
| ToolCall (toolCalls : list OpenAIToolCall)              (* onToolCall *)
| Error (errorMsg : string)                               (* onError *)
| Finish (reason : string).                               (* onFinish *)

Definition recorder : StreamCallbacks (list Event) :=
  mkCallbacks
    (fun contentChunk isFinal t => t ++ [Update contentChunk isFinal])
    (Some (fun toolCalls t => (t ++ [ToolCall toolCalls], None)))
    (fun errorMsg t => t ++ [Error errorMsg])
    (fun reason t => t ++ [Finish reason]).

Definition legacy_recorder : Legacy.StreamCallbacks (list Event) :=
  Legacy.mkCallbacks
    (fun contentChunk isFinal t => t ++ [Content contentChunk isFinal])
    None
    (fun errorMsg t => t ++ [Error errorMsg])
    (fun reason t => t ++ [Finish reason]).

Inductive Adapter := OpenAI | Ollama | Anthropic.

(** [JSON.parse] at the type each adapter reads its frames at. *)
Record JSON := mkJSON {
  parse_openai : string -> option OpenAIProvider.StreamChunk;
  parse_ollama : string -> option OllamaProvider.OllamaChatStreamResponse;
  parse_anthropic : string -> option AnthropicProvider.AnthropicStreamEvent
}.

(** One call of [generateResponse]: the requests sent and the
    callbacks invoked. *)
Definition run (a : Adapter) (json : JSON) (fetch : Net.Request -> Net.FetchResult)
    (messages : list OpenAIMessage) (settings : ObsigentPluginSettings)
    (abortController : bool) : list Net.Request * list Event :=
  match a with
  | OpenAI =>
      OpenAIProvider.generateResponse (parse_openai json) fetch recorder
        messages settings abortController []
  | Ollama =>
      OllamaProvider.generateResponse (parse_ollama json) fetch legacy_recorder
        messages settings abortController []
  | Anthropic =>
      AnthropicProvider.generateResponse (parse_anthropic json) fetch legacy_recorder
        messages settings abortController []
  end.

(** The settings in effect for an adapter: its own entry and, where the
    adapter consults them, the top-level fallback fields. *)
Definition effectiveEndpoint (a : Adapter) (settings : ObsigentPluginSettings)
  : option string :=
  match a with
  | OpenAI =>
      JS.or (apiEndpoint (default noProviderSettings (providerSettings settings openai)))
        (global_apiEndpoint settings)
  | Ollama => providerSettings settings ollama ≫= apiEndpoint
  | Anthropic => providerSettings settings anthropic ≫= apiEndpoint
  end.

Definition effectiveModel (a : Adapter) (settings : ObsigentPluginSettings)
  : option string :=
  match a with
  | OpenAI =>
      JS.or (defaultModel (default noProviderSettings (providerSettings settings openai)))
        (global_defaultModel settings)
  | Ollama => providerSettings settings ollama ≫= defaultModel
  | Anthropic => providerSettings settings anthropic ≫= defaultModel
  end.

(** The settings supply no endpoint or no model. *)
Definition lacks_endpoint_or_model (a : Adapter) (settings : ObsigentPluginSettings)
  : Prop :=
  JS.truthy (effectiveEndpoint a settings) = false
  \/ JS.truthy (effectiveModel a settings) = false.

(** The call reported one error through [onError] and sent nothing. *)
Definition configuration_error (a : Adapter) (json : JSON)
    (fetch : Net.Request -> Net.FetchResult) (messages : list OpenAIMessage)
    (settings : ObsigentPluginSettings) (abortController : bool) : Prop :=
  exists errorMsg, run a json fetch messages settings abortController = ([], [Error errorMsg]).

(** The configuration rule as the specification states it: whatever
    the adapter, settings without an endpoint or without a model end in
    a configuration error and no request. *)
Definition configuration_rule_as_stated : Prop :=
  forall (a : Adapter) (json : JSON) (fetch : Net.Request -> Net.FetchResult)
         (messages : list OpenAIMessage) (settings : ObsigentPluginSettings)
         (abortController : bool),
    lacks_endpoint_or_model a settings ->
    configuration_error a json fetch messages settings abortController.

(** [onFinish] and [onError] end a generation. *)
Definition terminal (e : Event) : bool :=
  match e with Finish _ | Error _ => true | _ => false end.

(** A trace without terminal callback, and one closed by [last]. *)
Definition ongoing (evs : list Event) : Prop := Forall (fun ev => terminal ev = false) evs.

Definition closed_by (last : Event) (evs : list Event) : Prop :=
  exists pre, evs = pre ++ [last] /\ ongoing pre.

Definition is_error (e : Event) : bool :=
  match e with Error _ => true | _ => false end.

End Trace.

(** ** Concrete streams and hosts used to run the code *)

Module Sample.
Import Str.

(** A JSON string literal and an SSE frame. *)
Definition q (s : string) : string := DQ +:+ s +:+ DQ.
Definition frame (payload : string) : string := "data: " +:+ payload +:+ LF +:+ LF.

(** [JSON.parse] on the finitely many texts of a sample; it throws on
    every other text. *)
Definition table {A} (entries : list (string * A)) (s : string) : option A :=
  snd <$> find (fun e => String.eqb (fst e) s) entries.

(** [{"choices":[{"delta":{"content":c}}]}] *)
Definition content_json (c : string) : string :=
  "{" +:+ q "choices" +:+ ":[{" +:+ q "delta" +:+ ":{" +:+ q "content" +:+ ":" +:+ q c +:+ "}}]}".
Definition content_chunk (c : string) : OpenAIProvider.StreamChunk :=
  OpenAIProvider.mkStreamChunk
    (Some [OpenAIProvider.mkChoice (Some (OpenAIProvider.mkDelta (Some c) None)) None]).

(** [{"choices":[{"delta":{},"finish_reason":r}]}] *)
Definition finish_json (r : string) : string :=
  "{" +:+ q "choices" +:+ ":[{" +:+ q "delta" +:+ ":{}," +:+ q "finish_reason" +:+ ":"
  +:+ q r +:+ "}]}".
Definition finish_chunk (r : string) : OpenAIProvider.StreamChunk :=
  OpenAIProvider.mkStreamChunk
    (Some [OpenAIProvider.mkChoice (Some (OpenAIProvider.mkDelta None None)) (Some r)]).

Definition openai_settings : ObsigentPluginSettings :=
  mkSettings "" None None openai
    (fun p =>
       match p with
       | openai =>
           Some (mkProviderSettings (Some "")
                   (Some "https://api.openai.com/v1/chat/completions")
                   (Some "gpt-3.5-turbo") None None)
       | _ => None
       end).

Definition streaming (reads : list string) (failure : option JS.Exn)
  : Net.Request -> Net.FetchResult :=
  fun _ =>
    Net.Resolves
      (Net.mkResponse true 200 (inl (JS.mkExn "SyntaxError" "Unexpected token"))
         (inr "") (Some (Net.mkBody reads failure))).

Definition hello : list OpenAIMessage := [mkMessage user (Some "hello") None None].

Definition ollama_settings : ObsigentPluginSettings :=
  mkSettings "" None None ollama
    (fun p =>
       match p with
       | ollama =>
           Some (mkProviderSettings None (Some "http://localhost:11434/api/chat")
                   (Some "llama3") None None)
       | _ => None
       end).

(** Anthropic with an API key and neither endpoint nor model. *)
Definition anthropic_key_only : ObsigentPluginSettings :=
  mkSettings "" None None anthropic
    (fun p =>
       match p with
       | anthropic => Some (mkProviderSettings (Some "sk-ant-test") None None None None)
       | _ => None
       end).

(** Nothing configured at all. *)
Definition no_settings : ObsigentPluginSettings :=
  mkSettings "" None None openai (fun _ => None).

(** [fetch] under a fired abort signal. *)
Definition aborted : Net.Request -> Net.FetchResult :=
  fun _ => Net.Rejects (JS.mkExn "AbortError" "The user aborted a request.").

(** Fragments of two tool calls: index 0 arrives in two pieces. *)
Definition f0a : ToolCallChunk :=
  mkToolCallChunk 0 (Some "call_0") (Some "function")
    (Some (mkToolCallFunctionChunk (Some "obsidian_readFile")
             (Some ("{" +:+ q "path" +:+ ":")))).
Definition f0b : ToolCallChunk :=
  mkToolCallChunk 0 None None
    (Some (mkToolCallFunctionChunk None (Some (q "a.md" +:+ "}")))).
Definition f1a : ToolCallChunk :=
  mkToolCallChunk 1 (Some "call_1") (Some "function")
    (Some (mkToolCallFunctionChunk (Some "foo_bar") (Some "{}"))).
(** A later fragment of index 0 that carries an id again. *)
Definition f0c : ToolCallChunk :=
  mkToolCallChunk 0 (Some "call_0_bis") None None.

(** A frame of tool-call fragments,
    [{"choices":[{"delta":{"tool_calls":[...]}}]}], for the fragments
    [f0a] and [f1a] together and for [f1a] alone. *)
Definition f0a_json : string :=
  "{" +:+ q "index" +:+ ":0," +:+ q "id" +:+ ":" +:+ q "call_0" +:+ "," +:+ q "type" +:+ ":"
  +:+ q "function" +:+ "," +:+ q "function" +:+ ":{" +:+ q "name" +:+ ":"
  +:+ q "obsidian_readFile" +:+ "," +:+ q "arguments" +:+ ":"
  +:+ q ("{" +:+ BS +:+ DQ +:+ "path" +:+ BS +:+ DQ +:+ ":") +:+ "}}".
Definition f1a_json : string :=
  "{" +:+ q "index" +:+ ":1," +:+ q "id" +:+ ":" +:+ q "call_1" +:+ "," +:+ q "type" +:+ ":"
  +:+ q "function" +:+ "," +:+ q "function" +:+ ":{" +:+ q "name" +:+ ":"
  +:+ q "foo_bar" +:+ "," +:+ q "arguments" +:+ ":" +:+ q "{}" +:+ "}}".
Definition tool_calls_json (fragments : string) : string :=
  "{" +:+ q "choices" +:+ ":[{" +:+ q "delta" +:+ ":{" +:+ q "tool_calls" +:+ ":["
  +:+ fragments +:+ "]}}]}".
Definition tool_calls_chunk (fragments : list ToolCallChunk) : OpenAIProvider.StreamChunk :=
  OpenAIProvider.mkStreamChunk
    (Some [OpenAIProvider.mkChoice (Some (OpenAIProvider.mkDelta None (Some fragments))) None]).

(** [JSON.parse] on the frames of the tool-call answers of the samples. *)
Definition tools_json : string -> option OpenAIProvider.StreamChunk :=
  table [(tool_calls_json (f0a_json +:+ "," +:+ f1a_json), tool_calls_chunk [f0a; f1a]);
         (tool_calls_json f1a_json, tool_calls_chunk [f1a]);
         (finish_json "tool_calls", finish_chunk "tool_calls");
         (content_json "Sorry", content_chunk "Sorry");
         (finish_json "stop", finish_chunk "stop")].

(** The network of a tool turn: the first request is answered by
    [first], the one that carries tool results by [second]. *)
Definition two_turns (first second : list string) : Net.Request -> Net.FetchResult :=
  fun request =>
    match Net.body request with
    | Net.OpenAIRequest _ messages _ _ _ =>
        if existsb (fun m => bool_decide (role m = tool)) messages
        then streaming second None request
        else streaming first None request
    | _ => streaming first None request
    end.

(** The frame [{"choices":[{"delta":{"tool_calls":[f0b]},
    "finish_reason":"tool_calls"}]}] that closes a tool-call answer. *)
Definition tool_calls_done_json : string :=
  "{" +:+ q "choices" +:+ ":[{" +:+ q "delta" +:+ ":{" +:+ q "tool_calls" +:+ ":[{"
  +:+ q "index" +:+ ":0," +:+ q "function" +:+ ":{" +:+ q "arguments" +:+ ":"
  +:+ q (BS +:+ DQ +:+ "a.md" +:+ BS +:+ DQ +:+ "}") +:+ "}}]}," +:+ q "finish_reason" +:+ ":"
  +:+ q "tool_calls" +:+ "}]}".
Definition tool_calls_done_chunk : OpenAIProvider.StreamChunk :=
  OpenAIProvider.mkStreamChunk
    (Some [OpenAIProvider.mkChoice
             (Some (OpenAIProvider.mkDelta None (Some [f0b]))) (Some "tool_calls")]).

(** [JSON.parse] on the frames of the plain answer "Hi", " there", stop. *)
Definition hi_there_json : Trace.JSON :=
  Trace.mkJSON
    (table [(content_json "Hi", content_chunk "Hi");
            (content_json " there", content_chunk " there");
            (finish_json "stop", finish_chunk "stop")])
    (fun _ => None) (fun _ => None).

(** A host with the file [a.md] and one command whose id is the name of
    a built-in tool. *)
Definition shadowing_app : LocalToolService.App :=
  LocalToolService.mkApp
    [LocalToolService.mkCommand "obsidian_readFile" "Shadow"]
    (fun _ => inr true)
    (fun path => if String.eqb path "a.md" then Some LocalToolService.TFile else None)
    (fun _ => inr "hello")
    (fun _ => inr ()) (fun _ _ => inr ()) (fun _ _ => inr ())
    ["a.md"] (fun _ => inr "hello").

(** The same host without commands. *)
Definition plain_app : LocalToolService.App :=
  LocalToolService.mkApp []
    (fun _ => inr true)
    (fun path => if String.eqb path "a.md" then Some LocalToolService.TFile else None)
    (fun _ => inr "hello")
    (fun _ => inr ()) (fun _ _ => inr ()) (fun _ _ => inr ())
    ["a.md"] (fun _ => inr "hello").

(** The service once [registerLocalTools] has run. *)
Definition service : LocalToolService.Service :=
  LocalToolService.mkService (LocalToolService.registerLocalTools []) ∅.

Definition read_a_md : LocalToolService.Args :=
  LocalToolService.mkArgs (Some "a.md") None None None.

(** [toLowerCase] restricted to texts without upper case letters, and a
    [JSON.stringify] of result lists that is not exercised. *)
Definition lower : string -> string := fun s => s.
Definition stringify : list (string * string) -> string := fun _ => "[]".

(** The plugin core after [onload], with the OpenAI-compatible adapter
    as the active provider and a chat view that is ready. *)
Definition system_prompt : OpenAIMessage :=
  mkMessage system (Some "You are a helpful assistant integrated into Obsidian.") None None.

Definition loaded : Core.State := Core.mkState [system_prompt] service [] [] [] 0.

Definition ready_view : list Core.ViewEvent -> option string :=
  fun asked => Some ("message-" +:+ pretty (length asked)).

(** [JSON.parse] of tool-call arguments: the two texts of the samples
    that are JSON; it throws on the others. *)
Definition parse_args (s : string) : JS.Exn + LocalToolService.Args :=
  match table [("{" +:+ q "path" +:+ ":" +:+ q "a.md" +:+ "}", read_a_md);
               ("{}", LocalToolService.mkArgs None None None None)] s with
  | Some args => inr args
  | None => inl (JS.mkExn "SyntaxError" "Unexpected end of JSON input")
  end.

Definition pretty_args (args : LocalToolService.Args) : string :=
  match LocalToolService.arg_path args with
  | Some path => "{" +:+ Str.LF +:+ "  " +:+ q "path" +:+ ": " +:+ q path +:+ Str.LF +:+ "}"
  | None => "{}"
  end.

(** One user turn of the core against the OpenAI-compatible adapter. *)
Definition turn (app : LocalToolService.App)
  (JSON_parse : string -> option OpenAIProvider.StreamChunk)
  (fetch : Net.Request -> Net.FetchResult) (messageText : string) : Core.State :=
  Core.handleUserMessage app lower stringify parse_args pretty_args ready_view
    openai_settings (OpenAIProvider.generateResponse JSON_parse fetch)
    messageText true loaded.

(** The NDJSON lines of an Ollama answer:
    [{"message":{"role":"assistant","content":c},"done":false}] and the
    closing [{"message":{"role":"assistant","content":""},"done":true}]. *)
Definition ollama_json (c : string) (done : string) : string :=
  "{" +:+ q "message" +:+ ":{" +:+ q "role" +:+ ":" +:+ q "assistant" +:+ ","
  +:+ q "content" +:+ ":" +:+ q c +:+ "}," +:+ q "done" +:+ ":" +:+ done +:+ "}".

Definition ollama_parse : string -> option OllamaProvider.OllamaChatStreamResponse :=
  table [(ollama_json "Hi" "false", OllamaProvider.mkLine (Some "Hi") false None);
         (ollama_json " there" "false", OllamaProvider.mkLine (Some " there") false None);
         (ollama_json "" "true", OllamaProvider.mkLine (Some "") true None)].

(** The earlier core in the middle of [handleUserMessage]: the user
    entry is in the transcript and the "thinking" message is on display. *)
Definition legacy_asked : LegacyCore.State :=
  LegacyCore.mkState [system_prompt; mkMessage user (Some "hello") None None]
    "" (Some "thinking") [] [] [] [].

(** [JSON.parse] of the arguments as the earlier core reads them: the
    text [null] is JSON too. *)
Definition legacy_parse_args (s : string) : JS.Exn + option LocalToolService.Args :=
  if String.eqb s "null" then inr None else
  match parse_args s with
  | inr args => inr (Some args)
  | inl e => inl e
  end.

Definition legacy_pretty_args (args : option LocalToolService.Args) : string :=
  match args with
  | Some args => pretty_args args
  | None => "null"
  end.

(** A tool service that answers every call with an empty result, and
    rejects when the arguments are [null]. *)
Definition legacy_executeTool (toolName : string) (args : option LocalToolService.Args)
  : JS.Exn + LegacyCore.ToolExecutionResult :=
  match args with
  | Some _ => inr (LegacyCore.mkToolExecutionResult None None None)
  | None => inl (JS.mkExn "TypeError" "Cannot read properties of null (reading 'path')")
  end.

Definition legacy_turn (fetch : Net.Request -> Net.FetchResult) : LegacyCore.State :=
  LegacyCore.processLlmTurn lower legacy_parse_args (fun e => e) (fun e => e)
    legacy_pretty_args legacy_executeTool
    (fun _ => Some "follow-up") ollama_settings
    (OllamaProvider.generateResponse ollama_parse fetch)
    1 (LegacyCore.chatHistory legacy_asked) false true legacy_asked.

Definition no_json : Trace.JSON :=
  Trace.mkJSON (fun _ => None) (fun _ => None) (fun _ => None).

End Sample.

(** ** How a generation ends *)

Module Shape.
Import Trace.

(** How a run of the Ollama adapter ends once the body is being read:
    with one [onFinish], which is the last callback.  [onError] is
    invoked at most once, and then directly before a final
    [onFinish("error")].  The converse does not hold: [onFinish("error")]
    also closes a run in which [onError] was never invoked. *)
Definition finished (evs : list Event) : Prop :=
  (exists reason, closed_by (Finish reason) evs)
  \/ (exists pre errorMsg, evs = pre ++ [Error errorMsg; Finish "error"] /\ ongoing pre).

End Shape.

(** ** What [convertToAnthropicMessages] keeps *)

Module Conversion.
Import Net.

(** What the loop keeps of one transcript entry. *)
Definition kept (msg : OpenAIMessage) : option AnthropicMessage :=
  match role msg with
  | user | assistant => mkAnthropicMessage (role msg) <$> JS.nonempty (content msg)
  | system | tool => None
  end.

(** The system prompt an entry supplies. *)
Definition prompt (msg : OpenAIMessage) : option string :=
  match role msg with
  | system => JS.nonempty (content msg)
  | _ => None
  end.

End Conversion.

(** ** Tools and their effects *)

Module ToolEffects.
Import LocalToolService.

(** The effects that write a file of the vault. *)
Definition writes (e : Effect) : bool :=
  match e with Create _ _ | Modify _ _ => true | _ => false end.

(** The effects that concern the host's commands and the command cache. *)
Definition on_commands (e : Effect) : bool :=
  match e with ExecuteCommandById _ | SaveCommandMcpCacheToFile _ => true | _ => false end.

(** The names of the static tools. *)
Definition static_names : list string :=
  ["obsidian_readFile"; "obsidian_writeFile"; "obsidian_searchNotes"].

(** [localTools.some(t => t.name === name)] *)
Definition registered (name : string) (localTools : list McpTool) : bool :=
  existsb (fun t => String.eqb (tool_name t) name) localTools.

(** [addToolIfNotExists] of [registerLocalTools]. *)
Definition addToolIfNotExists (localTools : list McpTool) (tool : McpTool)
  : list McpTool :=
  if existsb (fun t => String.eqb (tool_name t) (tool_name tool)) localTools
  then localTools else localTools ++ [tool].

(** A file of the vault whose text contains the query, both in lower
    case. *)
Definition matches (app : App) (toLowerCase : string -> string)
    (query file : string) : Prop :=
  exists fileContent,
    cachedRead app file = inr fileContent
    /\ is_Some (Str.indexOf (toLowerCase query) (toLowerCase fileContent)).

End ToolEffects.

(** ** The per-command generation flags of the plugin core
       ([isCommandGenerationInProgress], [setCommandGenerationInProgress]) *)

Module CommandGeneration.

(** [commandGenerationStatus: Record<string, boolean> = {}]: the own
    properties of a plain object, whose prototype is [Object.prototype]. *)
Abbreviation Status := (gmap string bool).

(** The properties of [Object.prototype].  Read through a plain object
    each gives a truthy value: a function, and for ["__proto__"] the
    prototype itself. *)
Definition Object_prototype : list string :=
  ["constructor"; "__defineGetter__"; "__defineSetter__"; "hasOwnProperty";
   "__lookupGetter__"; "__lookupSetter__"; "isPrototypeOf"; "propertyIsEnumerable";
   "toString"; "valueOf"; "__proto__"; "toLocaleString"].

Definition inherited (key : string) : bool := bool_decide (key ∈ Object_prototype).

(** [!!this.commandGenerationStatus[commandId]]: the own property, and
    without one the property found on the prototype. *)
Definition isCommandGenerationInProgress (commandGenerationStatus : Status)
    (commandId : string) : bool :=
  match commandGenerationStatus !! commandId with
  | Some isInProgress => isInProgress
  | None => inherited commandId
  end.

(** [this.commandGenerationStatus[commandId] = true] and
    [delete this.commandGenerationStatus[commandId]].  An assignment to
    ["__proto__"] runs the setter of [Object.prototype], which ignores a
    value that is no object and creates no own property. *)
Definition setCommandGenerationInProgress (commandGenerationStatus : Status)
    (commandId : string) (isInProgress : bool) : Status :=
  if isInProgress then
    if String.eqb commandId "__proto__" then commandGenerationStatus
    else <[commandId := true]> commandGenerationStatus
  else delete commandId commandGenerationStatus.

(** The record after the calls [ops] of [setCommandGenerationInProgress],
    starting from the empty object the field is initialised with. *)
Definition after (ops : list (string * bool)) : Status :=
  foldl (fun commandGenerationStatus op =>
           setCommandGenerationInProgress commandGenerationStatus op.1 op.2)
    ∅ ops.

(** The argument of the last call of [ops] for [commandId]. *)
Definition lastSet (commandId : string) (ops : list (string * bool)) : option bool :=
  last (omap (fun op => if decide (op.1 = commandId) then Some op.2 else None) ops).

End CommandGeneration.

(** ** The active provider ([updateActiveLLMProvider],
       [getActiveLLMProvider], [ensureLLMProviderReady]) and the checks
       [handleUserMessage] of [src/main.ts] makes before a turn *)

Module ProviderSelection.

(** [LLM_PROVIDER_NAMES] *)
Definition LLM_PROVIDER_NAMES (p : LLMProviderType) : string :=
  match p with
  | openai => "OpenAI"
  | anthropic => "Anthropic"
  | google => "Google AI"
  | cohere => "Cohere"
  | ollama => "Ollama (Self-Hosted)"
  end.

(** [this.activeLLMProvider]: one of the three adapters, or an object
    whose [generateResponse] does nothing but report [errorMsg]. *)
Inductive ActiveProvider :=
| Implemented (a : Trace.Adapter)
| ErrorProvider (providerName : string) (errorMsg : string).

Definition providerName (p : ActiveProvider) : string :=
  match p with
  | Implemented Trace.OpenAI => "openai"
  | Implemented Trace.Ollama => "ollama"
  | Implemented Trace.Anthropic => "anthropic"
  | ErrorProvider providerName _ => providerName
  end.

(** [updateActiveLLMProvider].  Every name of [LLM_PROVIDER_NAMES] is
    non-empty, so [LLM_PROVIDER_NAMES[providerType] || providerType] is
    the name; the [default] branch of the [switch] and the check after it
    are not reached at the type [LLMProviderType]. *)
Definition updateActiveLLMProvider (settings : ObsigentPluginSettings) : ActiveProvider :=
  let providerType := selectedProvider settings in
  match providerType with
  | openai => Implemented Trace.OpenAI
  | ollama => Implemented Trace.Ollama
  | anthropic => Implemented Trace.Anthropic
  | google | cohere =>
      let providerFriendlyName := LLM_PROVIDER_NAMES providerType in
      ErrorProvider "error_unimplemented"
        ("The selected LLM provider " +:+ Str.DQ +:+ providerFriendlyName +:+ Str.DQ
         +:+ " is not yet supported by Obsigent. Please choose a different provider or wait for an update.")
  end.

(** [!this.activeLLMProvider ||
     this.activeLLMProvider.providerName.startsWith("error_")] *)
Definition notReady (activeLLMProvider : option ActiveProvider) : bool :=
  match activeLLMProvider with
  | None => true
  | Some p => Str.startsWith "error_" (providerName p)
  end.

(** [getActiveLLMProvider] *)
Definition getActiveLLMProvider (activeLLMProvider : option ActiveProvider)
  : option ActiveProvider :=
  if notReady activeLLMProvider then None else activeLLMProvider.

(** [ensureLLMProviderReady]: the provider afterwards and the notices
    raised. *)
Definition ensureLLMProviderReady (settings : ObsigentPluginSettings)
    (activeLLMProvider : option ActiveProvider) : option ActiveProvider * list string :=
  if notReady activeLLMProvider then
    let activeLLMProvider := Some (updateActiveLLMProvider settings) in
    if notReady activeLLMProvider then
      (activeLLMProvider,
       ["Obsigent: Could not initialize LLM provider. Command description generation will be skipped."])
    else (activeLLMProvider, [])
  else (activeLLMProvider, []).

(** One call of [activeLLMProvider.generateResponse], observed as
    [Trace.run] observes an adapter. *)
Definition generateResponse (p : ActiveProvider) (json : Trace.JSON)
    (fetch : Net.Request -> Net.FetchResult) (messages : list OpenAIMessage)
    (settings : ObsigentPluginSettings) (abortController : bool)
  : list Net.Request * list Trace.Event :=
  match p with
  | Implemented a => Trace.run a json fetch messages settings abortController
  | ErrorProvider _ errorMsg => ([], [Trace.Error errorMsg])
  end.

(** The [missingFields] of [handleUserMessage] ([src/main.ts]). *)
Definition missingFields (settings : ObsigentPluginSettings) : list string :=
  let selectedProviderType := selectedProvider settings in
  let providerSettings := providerSettings settings selectedProviderType in
  let missing (field : option string) (label : string) : list string :=
    if negb (JS.truthy field) then [label] else [] in
  match selectedProviderType with
  | openai => missing (providerSettings ≫= defaultModel) "Default Model"
  | ollama =>
      missing (providerSettings ≫= defaultModel) "Default Model"
      ++ missing (providerSettings ≫= apiEndpoint) "API Endpoint"
  | anthropic =>
      missing (providerSettings ≫= apiKey) "API Key"
      ++ missing (providerSettings ≫= defaultModel) "Default Model"
  | _ => []
  end.

(** What the checks at the head of [handleUserMessage] decide. *)
Inductive Preflight :=
| Proceed (notices : list string)
| Misconfigured (message : string).   (* shown as notice and as error message *)

Definition preflight (activeLLMProvider : ActiveProvider)
    (settings : ObsigentPluginSettings) : Preflight :=
  if Str.startsWith "error_" (providerName activeLLMProvider) then
    let userFriendlyMessage :=
      if String.eqb (providerName activeLLMProvider) "error_unimplemented" then
        "The selected LLM provider " +:+ Str.DQ
        +:+ LLM_PROVIDER_NAMES (selectedProvider settings) +:+ Str.DQ
        +:+ " is not yet supported."
      else if String.eqb (providerName activeLLMProvider) "error_unknown_type" then
        "An unknown LLM provider type was selected. Please check settings."
      else if String.eqb (providerName activeLLMProvider) "error_critical_init" then
        "A critical error occurred initializing the LLM provider."
      else "LLM Provider issue. Please check Obsigent settings." in
    Proceed [userFriendlyMessage]
  else
    match missingFields settings with
    | [] => Proceed []
    | missingFields =>
        Misconfigured
          (LLM_PROVIDER_NAMES (selectedProvider settings)
           +:+ " provider is not configured correctly. Missing: "
           +:+ String.concat ", " missingFields +:+ ". Please check Obsigent settings.")
    end.

End ProviderSelection.

(** ** [LocalToolService] of [src/services/LocalToolService.ts]: the
       generation with the three vault tools only *)

Module LegacyLocalToolService.
Import LocalToolService.

(** The [result] of a tool: a text, the hits of a search as
    [{ path, snippet }], or the [{ message }] that stands for no hit. *)
Inductive Value :=
| Text (text : string)
| Hits (results : list (string * string))
| Messages (messages : list string).

(** [{ result?: any; error?: string }]; every [return] sets exactly one
    of the two. *)
Inductive Outcome :=
| Result (result : Value)
| Error (error : string).

Section Tools.
Variable app : App.
Variable toLowerCase : string -> string.

Definition readFile (path : option string) : Outcome :=
  match JS.nonempty path with
  | None => Error "Path is required for readFile."
  | Some path =>
      match getAbstractFileByPath app path with
      | None => Error ("File not found at path: " +:+ path)
      | Some TFolder => Error ("Path does not point to a file: " +:+ path)
      | Some TFile =>
          match read app path with
          | inr content => Result (Text content)
          | inl e => Error ("Error reading file: " +:+ JS.exn_message e)
          end
      end
  end.

(** The effects are those of [LocalToolService.Effect]; a rejected
    [createFolder] is caught on the spot and the file is created all the
    same. *)
Definition writeFile (path content : option string) : Outcome * list Effect :=
  match path with
  | None => (Error "Path is required for writeFile.", [])
  | Some path =>
      match content with
      | None => (Error "Content is required for writeFile.", [])
      | Some content =>
          let caught (e : JS.Exn) := Error ("Error writing file: " +:+ JS.exn_message e) in
          match getAbstractFileByPath app path with
          | Some TFolder => (Error ("Path exists but is not a file: " +:+ path), [])
          | None =>
              let parentDir := Str.substring_to (default 0 (Str.lastIndexOf "/" path)) path in
              let folder :=
                if negb (String.eqb parentDir "")
                   && negb (bool_decide (is_Some (getAbstractFileByPath app parentDir)))
                then
                  match createFolder app parentDir with
                  | inr _ => [CreateFolder parentDir]
                  | inl _ => []                                  (* .catch(e => {}) *)
                  end
                else [] in
              match create app path content with
              | inr _ =>
                  (Result (Text ("File created and content written to " +:+ path)),
                   folder ++ [Create path content])
              | inl e => (caught e, folder)
              end
          | Some TFile =>
              match modify app path content with
              | inr _ =>
                  (Result (Text ("Content written to existing file " +:+ path)),
                   [Modify path content])
              | inl e => (caught e, [])
              end
          end
      end
  end.

(** [for (const file of markdownFiles) { try { ... } catch { } }] *)
Fixpoint searchLoop (query : string) (max_results : nat) (markdownFiles : list string)
    (results : list (string * string)) : list (string * string) :=
  match markdownFiles with
  | [] => results
  | file :: markdownFiles =>
      match cachedRead app file with
      | inl _ => searchLoop query max_results markdownFiles results   (* catch: next file *)
      | inr content =>
          let lowerCaseContent := toLowerCase content in
          match Str.indexOf (toLowerCase query) lowerCaseContent with
          | Some matchIndex =>
              let snippetStart := matchIndex - 50 in
              let snippetEnd :=
                String.length lowerCaseContent `min` (matchIndex + String.length query + 50) in
              let snippet := Str.substring snippetStart snippetEnd content in
              let snippet := if Nat.ltb 0 snippetStart then "..." +:+ snippet else snippet in
              let snippet :=
                if Nat.ltb snippetEnd (String.length content)
                then snippet +:+ "..." else snippet in
              let results := results ++ [(file, snippet)] in
              if Nat.leb max_results (length results) then results            (* break *)
              else searchLoop query max_results markdownFiles results
          | None => searchLoop query max_results markdownFiles results
          end
      end
  end.

Definition searchNotes (query : option string) (max_results : option nat) : Outcome :=
  match JS.nonempty query with
  | None => Error "Query is required for searchNotes."
  | Some query =>
      let max_results := default 5 max_results in
      match searchLoop query max_results (getMarkdownFiles app) [] with
      | [] => Result (Messages ["No notes found matching your query."])
      | results => Result (Hits results)
      end
  end.

(** What [args.field] throws when [args] is [null]. *)
Definition nullRead (field : string) : JS.Exn :=
  JS.mkExn "TypeError" ("Cannot read properties of null (reading '" +:+ field +:+ "')").

(** [executeTool(toolName, args)] with [args: any], as [JSON.parse] gave
    it: [None] is [null], and a [case] that reads [args.path] or
    [args.query] of [null] throws, which rejects the call ([inl]). *)
Definition executeTool (toolName : string) (args : option Args)
  : JS.Exn + Outcome * list Effect :=
  if String.eqb toolName "obsidian_readFile" then
    match args with
    | Some args => inr (readFile (arg_path args), [])
    | None => inl (nullRead "path")
    end
  else if String.eqb toolName "obsidian_writeFile" then
    match args with
    | Some args => inr (writeFile (arg_path args) (arg_content args))
    | None => inl (nullRead "path")
    end
  else if String.eqb toolName "obsidian_searchNotes" then
    match args with
    | Some args => inr (searchNotes (arg_query args) (arg_max_results args), [])
    | None => inl (nullRead "query")
    end
  else inr (Error ("Local tool '" +:+ toolName +:+ "' not found."), []).

End Tools.
End LegacyLocalToolService.

(** ** [LocalToolService.registerObsidianCommandsAsTools] while no
       description is generated *)

Module CommandTools.
Import LocalToolService.

(** [{ type: "object", properties: {} }] *)
Definition emptySchema : McpToolSchema := mkSchema [] [].

(** [{ title: command.name, readOnlyHint: false, destructiveHint: false,
      idempotentHint: false, openWorldHint: false }] *)
Definition defaultAnnotations (command : Command) : McpToolAnnotations :=
  mkAnnotations (Some (command_name command)) (Some false) (Some false) (Some false)
    (Some false).

(** The tools the [filter] before the re-registration keeps. *)
Definition isStatic (tool : McpTool) : bool :=
  String.eqb (tool_name tool) "obsidian_readFile"
  || String.eqb (tool_name tool) "obsidian_writeFile"
  || String.eqb (tool_name tool) "obsidian_searchNotes".

(** [findIndex] by name, then [push] or replace in place. *)
Definition upsert (localTools : list McpTool) (tool : McpTool) : list McpTool :=
  match list_find (fun t => tool_name t = tool_name tool) localTools with
  | Some (existingToolIndex, _) => <[existingToolIndex := tool]> localTools
  | None => localTools ++ [tool]
  end.

(** The first loop: a cached id that is no command any more is deleted,
    unless a tool of that name is registered. *)
Definition isStale (obsidianCommands : list Command) (localTools : list McpTool)
    (cachedId : string) : bool :=
  negb (bool_decide (cachedId ∈ command_id <$> obsidianCommands))
  && negb (existsb (fun lt => String.eqb (tool_name lt) cachedId) localTools).

Definition dropStale (obsidianCommands : list Command) (localTools : list McpTool)
    (cachedCommands : gmap string CachedCommandMcpDetails)
  : gmap string CachedCommandMcpDetails :=
  filter (fun entry => isStale obsidianCommands localTools entry.1 = false) cachedCommands.

(** The [else if] branch of the second loop, which is the one taken
    while [getActiveLLMProvider()] is [null]: a command without entry, or
    whose name has changed, gets an entry; the flag says whether it did. *)
Definition cacheCommand (cachedCommands : gmap string CachedCommandMcpDetails)
    (command : Command) : gmap string CachedCommandMcpDetails * bool :=
  let cachedDetail := cachedCommands !! command_id command in
  let stale :=
    match cachedDetail with
    | Some d => negb (String.eqb (originalName d) (command_name command))
    | None => true
    end in
  if stale then
    (<[command_id command :=
         mkCached (command_id command) (command_name command)
           (Some (JS.or_default (cachedDetail ≫= cached_description)
                    ("Obsidian Command: " +:+ command_name command)))
           (default emptySchema (cached_inputSchema <$> cachedDetail))
           (Some (default (defaultAnnotations command)
                    (cachedDetail ≫= cached_annotations)))]> cachedCommands,
     true)
  else (cachedCommands, false).

(** The second loop, [for (const command of obsidianCommands)], with
    [newCacheRequired] as it stands before and after. *)
Definition cacheCommands (cachedCommands : gmap string CachedCommandMcpDetails)
    (newCacheRequired : bool) (obsidianCommands : list Command)
  : gmap string CachedCommandMcpDetails * bool :=
  foldl (fun '(cachedCommands, newCacheRequired) command =>
           let '(cachedCommands, changed) := cacheCommand cachedCommands command in
           (cachedCommands, newCacheRequired || changed))
    (cachedCommands, newCacheRequired) obsidianCommands.

Section Registration.
Variable app : App.
(** [command.hotkeys.map(hk => hk.key)]; [None] without [hotkeys]. *)
Variable hotkeys : Command -> option (list string).

(** The tool of the third loop for one command. *)
Definition toolOf (cachedCommands : gmap string CachedCommandMcpDetails)
    (command : Command) : McpTool :=
  let finalCachedDetail := cachedCommands !! command_id command in
  let finalMcpDescription :=
    "Obsidian Command: " +:+ command_name command
    +:+ match hotkeys command with
        | Some (key :: keys) => " (Hotkey: " +:+ String.concat ", " (key :: keys) +:+ ")"
        | _ => ""
        end in
  match finalCachedDetail with
  | Some d =>
      match JS.nonempty (cached_description d) with
      | Some description =>
          if negb (String.eqb (Str.trim description) "") then
            mkTool (command_id command) (Some description)
              (Some (cached_inputSchema d))
              (Some (default (defaultAnnotations command) (cached_annotations d)))
          else
            mkTool (command_id command) (Some finalMcpDescription) (Some emptySchema)
              (Some (defaultAnnotations command))
      | None =>
          mkTool (command_id command) (Some finalMcpDescription) (Some emptySchema)
            (Some (defaultAnnotations command))
      end
  | None =>
      mkTool (command_id command) (Some finalMcpDescription) (Some emptySchema)
        (Some (defaultAnnotations command))
  end.

(** The third loop: every command is registered as a tool. *)
Definition registerTools (cachedCommands : gmap string CachedCommandMcpDetails)
    (localTools : list McpTool) (obsidianCommands : list Command) : list McpTool :=
  foldl (fun localTools command => upsert localTools (toolOf cachedCommands command))
    localTools obsidianCommands.

(** [registerObsidianCommandsAsTools] while [getActiveLLMProvider()] is
    [null], so that no generation task is started.  [ready] is
    [this.initialized || layoutReady].  A cache entry is taken to hold an
    [inputSchema], as every entry this code writes does. *)
Definition registerObsidianCommandsAsTools (ready : bool) (service : Service)
  : Service * list Effect :=
  if negb ready then (service, [])
  else
    let obsidianCommands := listCommands app in
    let kept := dropStale obsidianCommands (localTools service) (commandMcpCache service) in
    let newCacheRequired :=
      existsb (fun entry => isStale obsidianCommands (localTools service) entry.1)
        (map_to_list (commandMcpCache service)) in
    let '(cachedCommands, newCacheRequired) :=
      cacheCommands kept newCacheRequired obsidianCommands in
    let localTools := filter (fun tool => isStatic tool = true) (localTools service) in
    let localTools := registerTools cachedCommands localTools obsidianCommands in
    (mkService localTools cachedCommands,
     if newCacheRequired then [SaveCommandMcpCacheToFile cachedCommands] else []).

End Registration.
End CommandTools.

(** ** Streams that are cut off, for the cancellation properties *)

Module Fixtures.
Import Str.

Definition abortError : JS.Exn := JS.mkExn "AbortError" "The user aborted a request.".

(** [JSON.parse] on the one frame of an answer that never gets to a
    finish reason. *)
Definition content_only : string -> option OpenAIProvider.StreamChunk :=
  Sample.table [(Sample.content_json "Hi", Sample.content_chunk "Hi")].

(** A body that delivers "Hi" and whose next read rejects with an
    [AbortError]. *)
Definition cut_off_response : Net.Response :=
  Net.mkResponse true 200 (inl (JS.mkExn "SyntaxError" "Unexpected token"))
    (inr "") (Some (Net.mkBody [Sample.frame (Sample.content_json "Hi")] (Some abortError))).

Definition cut_off : Net.Request -> Net.FetchResult :=
  fun _ => Net.Resolves cut_off_response.




(** The two completed calls of the samples. *)
Definition read_call : OpenAIToolCall :=
  mkOpenAIToolCall "call_0" "function"
    (mkToolCallFunction "obsidian_readFile" ("{" +:+ Sample.q "path" +:+ ":" +:+ Sample.q "a.md" +:+ "}")).

Definition foo_call : OpenAIToolCall :=
  mkOpenAIToolCall "call_1" "function" (mkToolCallFunction "foo_bar" "{}").

(** A host with two commands, one of them under the name of a static
    tool. *)
Definition editor_app : LocalToolService.App :=
  LocalToolService.mkApp
    [LocalToolService.mkCommand "editor:save-file" "Save current file";
     LocalToolService.mkCommand "obsidian_readFile" "Shadow"]
    (fun _ => inr true)
    (fun path => if String.eqb path "a.md" then Some LocalToolService.TFile else None)
    (fun _ => inr "hello")
    (fun _ => inr ()) (fun _ _ => inr ()) (fun _ _ => inr ())
    ["a.md"] (fun _ => inr "hello").

Definition no_hotkeys : LocalToolService.Command -> option (list string) :=
  fun _ => None.

(** The NDJSON text [{"done":true,"error":"boom"}], and [JSON.parse]
    on it. *)
Definition failed_json : string :=
  "{" +:+ Sample.q "done" +:+ ":true," +:+ Sample.q "error" +:+ ":" +:+ Sample.q "boom" +:+ "}".

Definition failed_line : Trace.JSON :=
  Trace.mkJSON (fun _ => None)
    (Sample.table [(failed_json, OllamaProvider.mkLine None true (Some "boom"))])
    (fun _ => None).

End Fixtures.

(** * Properties *)

(** ** The sparse array *)

Module AccumulatorFacts.
Import Accumulator.

Lemma lookup_get (arr : SparseArray) (i : nat) :
  i < length arr -> arr !! i = Some (get arr i).
Proof.
  intros Hi. unfold get.
  destruct (arr !! i) as [x|] eqn:E; [reflexivity|].
  apply lookup_ge_None_1 in E. lia.
Qed.

Lemma sparse_ext (a b : SparseArray) :
  length a = length b -> (forall i, get a i = get b i) -> a = b.
Proof.
  intros Hlen Hget. apply list_eq. intros i.
  destruct (decide (i < length a)) as [Hi|Hi].
  - rewrite (lookup_get a i Hi), (lookup_get b i) by lia. by rewrite Hget.
  - rewrite !lookup_ge_None_2 by lia. reflexivity.
Qed.

Lemma length_set (arr : SparseArray) i v :
  length (set arr i v) = length arr `max` S i.
Proof.
  unfold set. case_decide.
  - rewrite length_insert. lia.
  - rewrite !length_app, length_replicate. simpl. lia.
Qed.

Lemma get_set_eq (arr : SparseArray) i v : get (set arr i v) i = Some v.
Proof.
  unfold get, set. case_decide.
  - by rewrite list_lookup_insert_eq.
  - rewrite lookup_app_r by lia.
    rewrite lookup_app_r by (rewrite length_replicate; lia).
    rewrite length_replicate. by rewrite Nat.sub_diag.
Qed.

Lemma get_set_ne (arr : SparseArray) i j v :
  i <> j -> get (set arr i v) j = get arr j.
Proof.
  intros Hij. unfold get, set. case_decide.
  - by rewrite list_lookup_insert_ne.
  - destruct (decide (j < length arr)).
    + by rewrite lookup_app_l.
    + rewrite (lookup_ge_None_2 arr j) by lia.
      rewrite lookup_app_r by lia.
      destruct (decide (j - length arr < i - length arr)).
      * rewrite lookup_app_l by (rewrite length_replicate; lia).
        by rewrite lookup_replicate_2.
      * rewrite lookup_app_r by (rewrite length_replicate; lia).
        rewrite length_replicate.
        destruct (j - length arr - (i - length arr)) as [|k] eqn:E; [lia|].
        reflexivity.
Qed.

Lemma get_set (arr : SparseArray) i j v :
  get (set arr i v) j = if decide (i = j) then Some v else get arr j.
Proof.
  case_decide; subst; auto using get_set_eq, get_set_ne.
Qed.

Lemma set_set (arr : SparseArray) i v w : set (set arr i v) i w = set arr i w.
Proof.
  apply sparse_ext.
  - rewrite !length_set. lia.
  - intros j. rewrite !get_set. by case_decide.
Qed.

(** [accumulate] writes to the slot of the fragment's index only. *)
Lemma accumulate_set acc c :
  accumulate acc c =
  set acc (chunk_index c) (merge (default fresh (get acc (chunk_index c))) c).
Proof.
  unfold accumulate. destruct (get acc (chunk_index c)) as [tc|] eqn:E.
  - by rewrite E.
  - rewrite get_set_eq. simpl. apply set_set.
Qed.

Lemma get_accumulate acc c i :
  get (accumulate acc c) i =
  if decide (chunk_index c = i)
  then Some (merge (default fresh (get acc i)) c)
  else get acc i.
Proof.
  rewrite accumulate_set, get_set. case_decide; by subst.
Qed.

Lemma length_accumulate acc c :
  length (accumulate acc c) = length acc `max` S (chunk_index c).
Proof. by rewrite accumulate_set, length_set. Qed.

(** A slot sees exactly the fragments of its own index, in order. *)
Lemma get_accumulate_all l : forall acc i,
  get (accumulate_all acc l) i = merge_all (get acc i) (per_index i l).
Proof.
  induction l as [|c l IH]; intros acc i; [reflexivity|].
  unfold accumulate_all, per_index in *. simpl.
  rewrite IH, get_accumulate. rewrite filter_cons.
  destruct (decide (chunk_index c = i)); reflexivity.
Qed.

Lemma length_accumulate_all l : forall acc,
  length (accumulate_all acc l) = length acc `max` max_list (S ∘ chunk_index <$> l).
Proof.
  induction l as [|c l IH]; intros acc; simpl.
  - lia.
  - unfold accumulate_all in *. rewrite IH, length_accumulate.
    change (max_list (S ∘ chunk_index <$> c :: l))
      with (S (chunk_index c) `max` max_list (S ∘ chunk_index <$> l)).
    symmetry. apply Nat.max_assoc.
Qed.

End AccumulatorFacts.

(** ** Order independence of the accumulator *)

Module AccumulatorOrder.
Import Accumulator AccumulatorFacts.

Lemma per_index_elem (l : list ToolCallChunk) c : c ∈ l <-> c ∈ per_index (chunk_index c) l.
Proof. unfold per_index. rewrite list_elem_of_filter. tauto. Qed.

Lemma same_elements (l1 l2 : list ToolCallChunk) :
  (forall i, per_index i l1 = per_index i l2) -> forall c, c ∈ l1 <-> c ∈ l2.
Proof. intros H c. rewrite (per_index_elem l1), (per_index_elem l2), H. done. Qed.

Lemma max_list_fmap_le {A} (f : A -> nat) (l1 l2 : list A) :
  (forall x, x ∈ l1 -> x ∈ l2) -> max_list (f <$> l1) <= max_list (f <$> l2).
Proof.
  intros Hsub. destruct l1 as [|a l1]; [simpl; lia|].
  assert (max_list (f <$> a :: l1) ∈ f <$> a :: l1) as Hin
    by (apply max_list_elem_of; discriminate).
  apply list_elem_of_fmap in Hin as (x & -> & Hx).
  apply max_list_elem_of_le, list_elem_of_fmap. eauto.
Qed.

Lemma max_list_fmap_ext {A} (f : A -> nat) (l1 l2 : list A) :
  (forall x, x ∈ l1 <-> x ∈ l2) -> max_list (f <$> l1) = max_list (f <$> l2).
Proof.
  intros H. apply Nat.le_antisymm; apply max_list_fmap_le; intros x; apply H.
Qed.

(** The final array is a function of the per-index sequences alone. *)
Lemma accumulate_all_per_index acc (l1 l2 : list ToolCallChunk) :
  (forall i, per_index i l1 = per_index i l2) ->
  accumulate_all acc l1 = accumulate_all acc l2.
Proof.
  intros H. apply sparse_ext.
  - rewrite !length_accumulate_all.
    by rewrite (max_list_fmap_ext _ l1 l2) by by apply same_elements.
  - intros i. by rewrite !get_accumulate_all, H.
Qed.

Lemma per_index_bind (l : list ToolCallChunk) (js : list nat) i :
  NoDup js ->
  per_index i (js ≫= fun j => per_index j l) =
  if decide (i ∈ js) then per_index i l else [].
Proof.
  induction 1 as [|j js Hj Hnd IH]; [reflexivity|].
  rewrite bind_cons. unfold per_index in *. rewrite filter_app, IH.
  destruct (decide (i = j)) as [->|Hij].
  - rewrite (decide_False (P := j ∈ js)) by done.
    rewrite (decide_True (P := j ∈ j :: js)) by apply list_elem_of_here.
    rewrite app_nil_r. rewrite list_filter_filter.
    apply list_filter_iff. tauto.
  - replace (filter (fun c => chunk_index c = i) (filter (fun c => chunk_index c = j) l))
      with (@nil ToolCallChunk).
    + simpl. destruct (decide (i ∈ js)) as [Hin|Hout], (decide (i ∈ j :: js)) as [Hin'|Hout'];
        try done.
      * exfalso. apply Hout'. by right.
      * exfalso. apply elem_of_cons in Hin' as [?|?]; auto.
    + symmetry. rewrite list_filter_filter.
      clear IH. induction l as [|c l IHl]; [done|].
      rewrite filter_cons. case_decide as Hc; [|exact IHl].
      destruct Hc; congruence.
Qed.

Lemma per_index_index_order (l : list ToolCallChunk) i :
  per_index i (index_order l) = per_index i l.
Proof.
  unfold index_order. rewrite per_index_bind by apply NoDup_seq.
  case_decide as Hi; [done|].
  symmetry. unfold per_index.
  induction l as [|c l IH]; [done|].
  rewrite filter_cons. case_decide as Hc.
  - exfalso. apply Hi. apply elem_of_seq. subst i.
    pose proof (max_list_elem_of_le (chunk_index c) (chunk_index <$> c :: l)) as Hle.
    rewrite fmap_cons in Hle. specialize (Hle ltac:(left)). simpl in Hle |- *. lia.
  - apply IH. intros Hin. apply Hi.
    apply elem_of_seq. apply elem_of_seq in Hin.
    rewrite fmap_cons. simpl in Hin |- *. lia.
Qed.

End AccumulatorOrder.

(** ** What a slot accumulates *)

Module AccumulatorFields.
Import Accumulator AccumulatorFacts.

Lemma append_nil_r (s : string) : s +:+ "" = s.
Proof.
  induction s as [|a s IH]; [reflexivity|].
  change (String a (s +:+ "") = String a s). congruence.
Qed.

Lemma append_assoc (s t u : string) : (s +:+ t) +:+ u = s +:+ t +:+ u.
Proof.
  induction s as [|a s IH]; [reflexivity|].
  change (String a ((s +:+ t) +:+ u) = String a (s +:+ t +:+ u)). congruence.
Qed.

Lemma merge_id tc c : id (merge tc c) = default (id tc) (id_part c).
Proof.
  unfold merge, id_part.
  destruct c as [i [cid|] [cty|] [[[cn|] [ca|]]|]]; simpl;
    repeat match goal with |- context [String.eqb ?x ""] => destruct (String.eqb x "") end;
    reflexivity.
Qed.

Lemma merge_name tc c :
  name (function (merge tc c)) = name (function tc) +:+ name_part c.
Proof.
  unfold merge, name_part.
  destruct c as [i [cid|] [cty|] [[[cn|] [ca|]]|]]; simpl;
    repeat match goal with
           | |- context [String.eqb ?x ""] => destruct (String.eqb_spec x ""); subst
           end;
    simpl; rewrite ?append_nil_r; reflexivity.
Qed.

Lemma merge_arguments tc c :
  arguments (function (merge tc c)) = arguments (function tc) +:+ arguments_part c.
Proof.
  unfold merge, arguments_part.
  destruct c as [i [cid|] [cty|] [[[cn|] [ca|]]|]]; simpl;
    repeat match goal with
           | |- context [String.eqb ?x ""] => destruct (String.eqb_spec x ""); subst
           end;
    simpl; rewrite ?append_nil_r; reflexivity.
Qed.

Lemma merge_all_foldl l : forall slot,
  l <> [] -> merge_all slot l = Some (foldl merge (default fresh slot) l).
Proof.
  induction l as [|c l IH]; intros slot Hne; [done|].
  destruct l as [|c' l]; [reflexivity|].
  change (merge_all slot (c :: c' :: l))
    with (merge_all (Some (merge (default fresh slot) c)) (c' :: l)).
  by rewrite IH.
Qed.

Lemma foldl_merge_id l : forall tc,
  id (foldl merge tc l) = default (id tc) (last (omap id_part l)).
Proof.
  induction l as [|c l IH]; intros tc; [reflexivity|].
  simpl foldl. rewrite IH, merge_id. simpl omap.
  destruct (id_part c) as [s|]; simpl.
  - rewrite last_cons. by destruct (last _).
  - reflexivity.
Qed.

Lemma foldl_merge_name l : forall tc,
  name (function (foldl merge tc l)) = name (function tc) +:+ join (name_part <$> l).
Proof.
  induction l as [|c l IH]; intros tc; simpl.
  - by rewrite append_nil_r.
  - by rewrite IH, merge_name, append_assoc.
Qed.

Lemma foldl_merge_arguments l : forall tc,
  arguments (function (foldl merge tc l)) =
  arguments (function tc) +:+ join (arguments_part <$> l).
Proof.
  induction l as [|c l IH]; intros tc; simpl.
  - by rewrite append_nil_r.
  - by rewrite IH, merge_arguments, append_assoc.
Qed.

End AccumulatorFields.

(** ** Cancellation and configuration of the adapters *)

Module AdapterFacts.
Import Trace.

(** C1. For each of the three adapters: when the request that was sent
    is aborted, that is [fetch] rejects with an [AbortError], the only
    callback invoked is [onFinish("aborted")]; [onError] is not invoked. *)
Theorem abort_is_finish_aborted (a : Adapter) (json : JSON)
    (fetch : Net.Request -> Net.FetchResult) (messages : list OpenAIMessage)
    (settings : ObsigentPluginSettings) (abortController : bool)
    (request : Net.Request) (e : JS.Exn) :
  fst (run a json fetch messages settings abortController) = [request] ->
  fetch request = Net.Rejects e ->
  JS.exn_name e = "AbortError" ->
  snd (run a json fetch messages settings abortController) = [Finish "aborted"]
  /\ Forall (fun ev => is_error ev = false)
       (snd (run a json fetch messages settings abortController)).
Proof.
  intros Hsent Hfetch Hname.
  assert (snd (run a json fetch messages settings abortController) = [Finish "aborted"])
    as ->; [|split; [reflexivity|repeat constructor]].
  destruct a; unfold run in *.
  - unfold OpenAIProvider.generateResponse in *.
    destruct (JS.nonempty (JS.or _ (global_apiEndpoint settings))); [|discriminate].
    destruct (JS.nonempty (JS.or _ (global_defaultModel settings))); [|discriminate].
    simpl in Hsent |- *. injection Hsent as Hreq. rewrite Hreq, Hfetch.
    unfold OpenAIProvider.catch. by rewrite Hname.
  - unfold OllamaProvider.generateResponse in *.
    destruct (providerSettings settings OllamaProvider.providerName); [|discriminate].
    destruct (JS.nonempty (apiEndpoint _)); [|discriminate].
    destruct (JS.nonempty (defaultModel _)); [|discriminate].
    simpl in Hsent |- *. injection Hsent as Hreq. rewrite Hreq, Hfetch.
    unfold OllamaProvider.catch. by rewrite Hname.
  - unfold AnthropicProvider.generateResponse in *.
    destruct (JS.nonempty (apiKey _)); [|discriminate].
    destruct (String.eqb _ ""); [discriminate|].
    destruct (AnthropicProvider.convertToAnthropicMessages messages) as [ms sp].
    destruct (Nat.eqb (length ms) 0 && negb (JS.truthy sp)); [discriminate|].
    simpl in Hsent |- *. injection Hsent as Hreq. rewrite Hreq, Hfetch.
    unfold AnthropicProvider.catch. by rewrite Hname.
Qed.

Lemma abort_is_finish_aborted_witness :
  snd (run OpenAI Sample.no_json Sample.aborted Sample.hello Sample.openai_settings true)
    = [Finish "aborted"]
  /\ snd (run Ollama Sample.no_json Sample.aborted Sample.hello Sample.ollama_settings true)
    = [Finish "aborted"]
  /\ snd (run Anthropic Sample.no_json Sample.aborted Sample.hello
            Sample.anthropic_key_only true)
    = [Finish "aborted"].
Proof.
  split; [|split].
  - refine (proj1 (abort_is_finish_aborted OpenAI Sample.no_json Sample.aborted
                     Sample.hello Sample.openai_settings true _ _ _ _ _));
      [vm_compute; reflexivity | reflexivity | reflexivity].
  - refine (proj1 (abort_is_finish_aborted Ollama Sample.no_json Sample.aborted
                     Sample.hello Sample.ollama_settings true _ _ _ _ _));
      [vm_compute; reflexivity | reflexivity | reflexivity].
  - refine (proj1 (abort_is_finish_aborted Anthropic Sample.no_json Sample.aborted
                     Sample.hello Sample.anthropic_key_only true _ _ _ _ _));
      [vm_compute; reflexivity | reflexivity | reflexivity].
Defined.

(** C6, counterexample. The Anthropic adapter, given an API key and
    neither endpoint nor model, sends a request to its built-in
    endpoint with its built-in model. *)
Lemma anthropic_defaults_endpoint_and_model : ~ configuration_rule_as_stated.
Proof.
  intros H.
  destruct (H Anthropic Sample.no_json Sample.aborted Sample.hello
              Sample.anthropic_key_only true) as [msg Hmsg].
  - left. reflexivity.
  - vm_compute in Hmsg. discriminate Hmsg.
Qed.

(** C6, amended. The OpenAI-compatible and the Ollama adapter report a
    configuration error through [onError] and send no request when the
    settings in effect lack the endpoint or the model.  The Anthropic
    adapter does so when the API key is missing; a missing endpoint or
    model is replaced by its built-in default. *)
Theorem configuration_checked_before_fetch (a : Adapter) (json : JSON)
    (fetch : Net.Request -> Net.FetchResult) (messages : list OpenAIMessage)
    (settings : ObsigentPluginSettings) (abortController : bool) :
  (a <> Anthropic -> lacks_endpoint_or_model a settings ->
   configuration_error a json fetch messages settings abortController)
  /\ (a = Anthropic ->
      let providerSettings :=
        default noProviderSettings (providerSettings settings anthropic) in
      (JS.truthy (apiKey providerSettings) = false ->
       run a json fetch messages settings abortController
       = ([], [Error "Anthropic API key is not set."]))
      /\ (forall request,
            request ∈ fst (run a json fetch messages settings abortController) ->
            Net.url request
            = Str.strip_trailing_slashes
                (JS.or_default (apiEndpoint providerSettings) "https://api.anthropic.com")
              +:+ "/v1/messages"
            /\ exists ms mt st te sp,
                Net.body request
                = Net.AnthropicRequest
                    (JS.or_default (defaultModel providerSettings)
                       "claude-3-haiku-20240307") ms mt st te sp)).
Proof.
  split.
  - intros Ha [He|Hm]; destruct a; try done; unfold configuration_error, run.
    + unfold OpenAIProvider.generateResponse. simpl in He.
      change OpenAIProvider.providerName with openai.
      unfold JS.nonempty. rewrite He. eauto.
    + unfold OllamaProvider.generateResponse. simpl in He.
      destruct (providerSettings settings OllamaProvider.providerName) as [ps|] eqn:E;
        [|eauto].
      unfold OllamaProvider.providerName in E. rewrite E in He. simpl in He.
      unfold JS.nonempty. rewrite He. eauto.
    + unfold OpenAIProvider.generateResponse. simpl in Hm.
      change OpenAIProvider.providerName with openai.
      destruct (JS.nonempty (JS.or _ (global_apiEndpoint settings))); [|eauto].
      unfold JS.nonempty. rewrite Hm. eauto.
    + unfold OllamaProvider.generateResponse. simpl in Hm.
      destruct (providerSettings settings OllamaProvider.providerName) as [ps|] eqn:E;
        [|eauto].
      unfold OllamaProvider.providerName in E. rewrite E in Hm. simpl in Hm.
      destruct (JS.nonempty (apiEndpoint ps)); [|eauto].
      unfold JS.nonempty. rewrite Hm. eauto.
  - intros ->. simpl. unfold AnthropicProvider.generateResponse.
    change AnthropicProvider.providerName with anthropic.
    split.
    + intros Hk. unfold JS.nonempty. by rewrite Hk.
    + intros request.
      destruct (JS.nonempty (apiKey _)); [|by intros ?%elem_of_nil].
      destruct (String.eqb _ ""); [by intros ?%elem_of_nil|].
      destruct (AnthropicProvider.convertToAnthropicMessages messages) as [ms sp].
      destruct (Nat.eqb (length ms) 0 && negb (JS.truthy sp)); [by intros ?%elem_of_nil|].
      simpl. intros ->%list_elem_of_singleton. simpl. eauto 10.
Qed.

Lemma configuration_checked_before_fetch_witness :
  configuration_error OpenAI Sample.no_json Sample.aborted Sample.hello
    Sample.no_settings true
  /\ configuration_error Ollama Sample.no_json Sample.aborted Sample.hello
       Sample.no_settings true
  /\ run Anthropic Sample.no_json Sample.aborted Sample.hello Sample.no_settings true
     = ([], [Error "Anthropic API key is not set."]).
Proof.
  split; [|split].
  - apply (proj1 (configuration_checked_before_fetch OpenAI Sample.no_json Sample.aborted
                    Sample.hello Sample.no_settings true));
      [discriminate | left; reflexivity].
  - apply (proj1 (configuration_checked_before_fetch Ollama Sample.no_json Sample.aborted
                    Sample.hello Sample.no_settings true));
      [discriminate | left; reflexivity].
  - apply (proj2 (configuration_checked_before_fetch Anthropic Sample.no_json
                    Sample.aborted Sample.hello Sample.no_settings true));
      reflexivity.
Defined.

End AdapterFacts.

(** ** The accumulator: interleaving, ids and the completed batch *)

Module AccumulatorClaims.
Import Accumulator AccumulatorFacts AccumulatorOrder AccumulatorFields.

(** C2. Two deliveries of the tool-call fragments that agree on the
    sequence of fragments of every index leave the same array of
    records; in particular any interleaving leaves what delivery in
    index order leaves.  A fragment for an index without a record
    starts from the record whose id, name and arguments are empty
    strings. *)
Theorem accumulation_is_order_independent (arrival family : list ToolCallChunk) :
  (forall i, per_index i arrival = per_index i family) ->
  accumulate_all [] arrival = accumulate_all [] (index_order family)
  /\ (forall acc c,
        get acc (chunk_index c) = None ->
        get (accumulate acc c) (chunk_index c) = Some (merge fresh c))
  /\ id fresh = "" /\ name (function fresh) = "" /\ arguments (function fresh) = "".
Proof.
  intros Hsame. split; [|split; [|done]].
  - apply accumulate_all_per_index. intros i.
    by rewrite per_index_index_order.
  - intros acc c Hnone. rewrite get_accumulate, decide_True by done.
    by rewrite Hnone.
Qed.

(** C10. After any fragment sequence, the id of the record of an index
    is the id of the last fragment of that index that carries one
    (it is overwritten), whereas its name and its arguments are the
    concatenation of all name and argument pieces of that index. *)
Theorem id_is_last_id_fragment (l : list ToolCallChunk) (i : nat) (s : string) :
  last (omap id_part (per_index i l)) = Some s ->
  exists tc,
    get (accumulate_all [] l) i = Some tc
    /\ id tc = s
    /\ name (function tc) = join (name_part <$> per_index i l)
    /\ arguments (function tc) = join (arguments_part <$> per_index i l).
Proof.
  intros Hlast. rewrite get_accumulate_all.
  assert (per_index i l <> []) as Hne by (intros E; by rewrite E in Hlast).
  rewrite merge_all_foldl by done.
  eexists. split; [reflexivity|].
  rewrite foldl_merge_id, foldl_merge_name, foldl_merge_arguments, Hlast.
  done.
Qed.

Lemma accumulation_is_order_independent_witness :
  accumulate_all [] [Sample.f0a; Sample.f1a; Sample.f0b]
  = accumulate_all [] (index_order [Sample.f1a; Sample.f0a; Sample.f0b]).
Proof.
  apply (proj1 (accumulation_is_order_independent
                  [Sample.f0a; Sample.f1a; Sample.f0b]
                  [Sample.f1a; Sample.f0a; Sample.f0b]
                  ltac:(intros [|[|i]]; reflexivity))).
Defined.

Lemma id_is_last_id_fragment_witness :
  exists tc,
    get (accumulate_all [] [Sample.f0a; Sample.f1a; Sample.f0c; Sample.f0b]) 0 = Some tc
    /\ id tc = "call_0_bis"
    /\ name (function tc)
       = join (name_part <$> per_index 0 [Sample.f0a; Sample.f1a; Sample.f0c; Sample.f0b])
    /\ arguments (function tc)
       = join (arguments_part
                 <$> per_index 0 [Sample.f0a; Sample.f1a; Sample.f0c; Sample.f0b]).
Proof.
  apply (id_is_last_id_fragment [Sample.f0a; Sample.f1a; Sample.f0c; Sample.f0b] 0
           "call_0_bis").
  reflexivity.
Defined.

Lemma complete_true (tc : OpenAIToolCall) :
  complete tc = true
  <-> id tc <> "" /\ name (function tc) <> "" /\ arguments (function tc) <> "".
Proof.
  unfold complete. rewrite !andb_true_iff.
  unfold JS.truthy. rewrite !negb_true_iff, !String.eqb_neq. tauto.
Qed.

(** The batch is read off the array from the left. *)
Lemma completed_indices (acc : list (option OpenAIToolCall)) : forall k,
  exists indices : list nat,
    StronglySorted lt indices
    /\ (forall i, i ∈ indices <->
                  k <= i /\ exists tc, acc !! (i - k) = Some (Some tc) /\ complete tc = true)
    /\ Forall2 (fun i tc => k <= i /\ acc !! (i - k) = Some (Some tc))
         indices (completed acc).
Proof.
  induction acc as [|slot acc IH]; intros k.
  - exists []. split; [constructor|]. split; [|constructor].
    intros i. split; [by intros ?%elem_of_nil|]. by intros (_ & tc & ? & _).
  - destruct (IH (S k)) as (indices & Hsorted & Hmem & Hall).
    assert (Forall2 (fun i tc => k <= i /\ (slot :: acc) !! (i - k) = Some (Some tc))
              indices (completed acc)) as Hall'.
    { eapply Forall2_impl; [exact Hall|].
      intros i tc [Hle Hi]. split; [lia|].
      replace (i - k) with (S (i - S k)) by lia. exact Hi. }
    assert (forall i, i ∈ indices <->
              S k <= i /\ exists tc, (slot :: acc) !! (i - k) = Some (Some tc)
                                     /\ complete tc = true) as Hmem'.
    { intros i. rewrite Hmem. split; intros (Hle & tc & Hi & Hc); split; try done;
        exists tc; split; try done.
      - replace (i - k) with (S (i - S k)) by lia. exact Hi.
      - replace (i - k) with (S (i - S k)) in Hi by lia. exact Hi. }
    unfold completed. simpl.
    destruct slot as [tc|]; simpl; [destruct (complete tc) eqn:Hc; simpl|].
    + exists (k :: indices). split; [|split].
      * constructor; [done|]. apply Forall_forall. intros i Hi.
        apply Hmem in Hi. lia.
      * intros i. rewrite elem_of_cons, Hmem'. split.
        -- intros [->|(Hle & tc' & Hi & Hc')].
           ++ split; [lia|]. exists tc. by rewrite Nat.sub_diag.
           ++ split; [lia|]. eauto.
        -- intros (Hle & tc' & Hi & Hc').
           destruct (decide (i = k)) as [->|Hne]; [by left|right].
           split; [lia|]. eauto.
      * constructor; [by rewrite Nat.sub_diag|done].
    + exists indices. split; [done|]. split; [|done].
      intros i. rewrite Hmem'. split.
      * intros (Hle & tc' & Hi & Hc'). split; [lia|]. eauto.
      * intros (Hle & tc' & Hi & Hc').
        destruct (decide (i = k)) as [->|Hne].
        -- rewrite Nat.sub_diag in Hi. simpl in Hi. congruence.
        -- split; [lia|]. eauto.
    + exists indices. split; [done|]. split; [|done].
      intros i. rewrite Hmem'. split.
      * intros (Hle & tc' & Hi & Hc'). split; [lia|]. eauto.
      * intros (Hle & tc' & Hi & Hc').
        destruct (decide (i = k)) as [->|Hne].
        -- rewrite Nat.sub_diag in Hi. simpl in Hi. congruence.
        -- split; [lia|]. eauto.
Qed.

(** The batch [completed acc]: the records with non-empty id, name and
    arguments, each once, by ascending index. *)
Lemma completed_spec (acc : list (option OpenAIToolCall)) :
  exists indices : list nat,
    StronglySorted lt indices
    /\ (forall i, i ∈ indices <->
                  exists tc, get acc i = Some tc
                             /\ id tc <> "" /\ name (function tc) <> ""
                             /\ arguments (function tc) <> "")
    /\ Forall2 (fun i tc => get acc i = Some tc) indices (completed acc).
Proof.
  destruct (completed_indices acc 0) as (indices & Hsorted & Hmem & Hall).
  exists indices. split; [done|]. split.
  - intros i. rewrite Hmem, Nat.sub_0_r. unfold get. split.
    + intros (_ & tc & Hi & Hc). exists tc. rewrite Hi. split; [done|].
      by apply complete_true.
    + intros (tc & Hi & Hc). split; [lia|]. exists tc.
      destruct (acc !! i) as [[tc'|]|]; simplify_eq/=. split; [done|].
      by apply complete_true.
  - eapply Forall2_impl; [exact Hall|].
    intros i tc [_ Hi]. rewrite Nat.sub_0_r in Hi. unfold get. by rewrite Hi.
Qed.

End AccumulatorClaims.

(** ** The OpenAI-compatible stream *)

Module OpenAIStreamFacts.
Import OpenAIProvider Trace Accumulator.

(** C3. A frame whose [finish_reason] is ["tool_calls"] makes the
    adapter pass to [onToolCall], and then finish with, the batch of the
    accumulated records (the fragments of this frame included) whose
    id, function name and arguments are all non-empty, by ascending
    index. *)
Theorem tool_calls_batch (JSON_parse : string -> option StreamChunk)
    (chunk : string) (acc : list (option OpenAIToolCall)) (trace : list Event)
    (parsed : StreamChunk) (choice : Choice) (others : list Choice) :
  Str.startsWith "data: " chunk = true ->
  Str.trim (Str.substring_from 6 chunk) <> "[DONE]" ->
  JSON_parse (Str.substring_from 6 chunk) = Some parsed ->
  choices parsed = Some (choice :: others) ->
  finish_reason choice = Some "tool_calls" ->
  exists (shown : list Event) (batch : list OpenAIToolCall) (indices : list nat),
    let acc' := accumulate_all acc (default [] (delta choice ≫= delta_tool_calls)) in
    processChunk JSON_parse recorder chunk acc trace
    = (Net.Return, acc', trace ++ shown ++ [ToolCall batch; Finish "tool_calls"])
    /\ Forall (fun ev => exists c, ev = Update c false) shown
    /\ StronglySorted lt indices
    /\ (forall i, i ∈ indices <->
                  exists tc, get acc' i = Some tc
                             /\ id tc <> "" /\ name (function tc) <> ""
                             /\ arguments (function tc) <> "")
    /\ Forall2 (fun i tc => get acc' i = Some tc) indices batch.
Proof.
  intros Hdata Hdone Hparse Hchoices Hreason.
  set (acc' := accumulate_all acc (default [] (delta choice ≫= delta_tool_calls))).
  destruct (AccumulatorClaims.completed_spec acc') as (indices & Hsorted & Hmem & Hall).
  exists (match delta choice ≫= delta_content with
          | Some c => if JS.truthy (Some c) then [Update c false] else []
          | None => []
          end), (completed acc'), indices.
  split; [|split; [|done]].
  - unfold processChunk. rewrite Hdata.
    apply String.eqb_neq in Hdone. rewrite Hdone, Hparse, Hchoices, Hreason.
    subst acc'. unfold accumulate_all.
    destruct (delta choice ≫= delta_content) as [c|];
      [destruct (JS.truthy (Some c))|];
      destruct (delta choice ≫= delta_tool_calls); simpl;
      rewrite <- ?app_assoc, ?app_nil_r; reflexivity.
  - destruct (delta choice ≫= delta_content) as [c|];
      [destruct (JS.truthy (Some c))|]; repeat constructor. eauto.
Qed.

Lemma tool_calls_batch_witness :
  exists (shown : list Event) (batch : list OpenAIToolCall) (indices : list nat),
    let acc' := accumulate_all [Some (merge fresh Sample.f0a); Some (merge fresh Sample.f1a)]
                  [Sample.f0b] in
    processChunk
      (Sample.table [(Sample.tool_calls_done_json, Sample.tool_calls_done_chunk)])
      recorder ("data: " +:+ Sample.tool_calls_done_json)
      [Some (merge fresh Sample.f0a); Some (merge fresh Sample.f1a)] []
    = (Net.Return, acc', [] ++ shown ++ [ToolCall batch; Finish "tool_calls"])
    /\ Forall (fun ev => exists c, ev = Update c false) shown
    /\ StronglySorted lt indices
    /\ (forall i, i ∈ indices <->
                  exists tc, get acc' i = Some tc
                             /\ id tc <> "" /\ name (function tc) <> ""
                             /\ arguments (function tc) <> "")
    /\ Forall2 (fun i tc => get acc' i = Some tc) indices batch.
Proof.
  apply (tool_calls_batch
           (Sample.table [(Sample.tool_calls_done_json, Sample.tool_calls_done_chunk)])
           ("data: " +:+ Sample.tool_calls_done_json)
           [Some (merge fresh Sample.f0a); Some (merge fresh Sample.f1a)] []
           Sample.tool_calls_done_chunk
           (mkChoice (Some (mkDelta None (Some [Sample.f0b]))) (Some "tool_calls")) []);
    try reflexivity.
  vm_compute. discriminate.
Defined.

(** The batch of the sample: both calls, index 0 before index 1. *)
Example tool_calls_batch_sample :
  snd (processChunk
         (Sample.table [(Sample.tool_calls_done_json, Sample.tool_calls_done_chunk)])
         recorder ("data: " +:+ Sample.tool_calls_done_json)
         [Some (merge fresh Sample.f0a); Some (merge fresh Sample.f1a)] [])
  = [ToolCall
       [mkOpenAIToolCall "call_0" "function"
          (mkToolCallFunction "obsidian_readFile"
             ("{" +:+ Sample.q "path" +:+ ":" +:+ Sample.q "a.md" +:+ "}"));
        mkOpenAIToolCall "call_1" "function" (mkToolCallFunction "foo_bar" "{}")];
     Finish "tool_calls"].
Proof. vm_compute. reflexivity. Qed.

(** C5, on the code. A stream of one content frame that is closed by
    the [[DONE]] sentinel alone, then ends: the adapter delivers the
    content and never calls [onFinish] (nor any other terminal callback). *)
Theorem done_sentinel_alone_never_finishes :
  run OpenAI Sample.hi_there_json
    (Sample.streaming [Sample.frame (Sample.content_json "Hi"); Sample.frame "[DONE]"] None)
    Sample.hello Sample.openai_settings true
  = ([Net.mkRequest "https://api.openai.com/v1/chat/completions" "POST"
        [("Content-Type", "application/json")]
        (Net.OpenAIRequest "gpt-3.5-turbo" Sample.hello true None None) true],
     [Update "Hi" false]).
Proof. vm_compute. reflexivity. Qed.

(** The same stream with a [finish_reason] frame before the sentinel
    finishes once. *)
Example finish_reason_frame_finishes_once :
  snd (run OpenAI Sample.hi_there_json
         (Sample.streaming
            [Sample.frame (Sample.content_json "Hi");
             Sample.frame (Sample.content_json " there");
             Sample.frame (Sample.finish_json "stop"); Sample.frame "[DONE]"] None)
         Sample.hello Sample.openai_settings true)
  = [Update "Hi" false; Update " there" false; Update "" true; Finish "stop"].
Proof. vm_compute. reflexivity. Qed.

(** Frames are recovered whatever the boundaries of the reads are. *)
Example frames_split_across_reads :
  snd (run OpenAI Sample.hi_there_json
         (Sample.streaming
            ["data: " +:+ Sample.content_json "Hi" +:+ Str.LF;
             Str.LF +:+ "data: ";
             Sample.content_json " there" +:+ Str.LF +:+ Str.LF
             +:+ Sample.frame (Sample.finish_json "stop")] None)
         Sample.hello Sample.openai_settings true)
  = [Update "Hi" false; Update " there" false; Update "" true; Finish "stop"].
Proof. vm_compute. reflexivity. Qed.

(** A frame with a [finish_reason] other than ["tool_calls"] ends the
    run with a final empty update and [onFinish] of that reason. *)
Lemma finish_reason_frame (JSON_parse : string -> option StreamChunk)
    (chunk : string) (acc : list (option OpenAIToolCall)) (trace : list Event)
    (parsed : StreamChunk) (choice : Choice) (others : list Choice) (reason : string) :
  Str.startsWith "data: " chunk = true ->
  Str.trim (Str.substring_from 6 chunk) <> "[DONE]" ->
  JSON_parse (Str.substring_from 6 chunk) = Some parsed ->
  choices parsed = Some (choice :: others) ->
  finish_reason choice = Some reason ->
  reason <> "" -> reason <> "tool_calls" ->
  exists shown,
    processChunk JSON_parse recorder chunk acc trace
    = (Net.Return, accumulate_all acc (default [] (delta choice ≫= delta_tool_calls)),
       trace ++ shown ++ [Update "" true; Finish reason])
    /\ Forall (fun ev => exists c, ev = Update c false) shown.
Proof.
  intros Hdata Hdone Hparse Hchoices Hreason Hne Htc.
  exists (match delta choice ≫= delta_content with
          | Some c => if JS.truthy (Some c) then [Update c false] else []
          | None => []
          end).
  split.
  - unfold processChunk. rewrite Hdata.
    apply String.eqb_neq in Hdone, Hne, Htc.
    rewrite Hdone, Hparse, Hchoices, Hreason.
    replace (JS.truthy (Some reason)) with true by (unfold JS.truthy; by rewrite Hne).
    rewrite Htc. unfold accumulate_all.
    destruct (delta choice ≫= delta_content) as [c|];
      [destruct (JS.truthy (Some c))|];
      destruct (delta choice ≫= delta_tool_calls); simpl;
      rewrite <- ?app_assoc, ?app_nil_r; reflexivity.
  - destruct (delta choice ≫= delta_content) as [c|];
      [destruct (JS.truthy (Some c))|]; repeat constructor. eauto.
Qed.

(** What one chunk adds to the trace: callbacks that are not terminal,
    closed by one [onFinish] exactly when the loop is left. *)
Lemma processChunk_shape JSON_parse chunk acc (t : list Event) flow acc' t' :
  processChunk JSON_parse recorder chunk acc t = (flow, acc', t') ->
  exists evs,
    t' = t ++ evs
    /\ match flow with
       | Net.Next => Forall (fun ev => terminal ev = false) evs
       | Net.Return =>
           exists pre r, evs = pre ++ [Finish r]
                         /\ Forall (fun ev => terminal ev = false) pre
       end.
Proof.
  unfold processChunk. intros H.
  repeat case_match; simplify_eq/=;
    try (exists []; split; [by rewrite app_nil_r|by constructor]);
    try (eexists; split; [rewrite <- ?app_assoc; reflexivity|];
         first [ by repeat constructor
               | eexists [], _; split; [reflexivity|by repeat constructor]
               | eexists [_], _; split; [reflexivity|by repeat constructor]
               | eexists [_; _], _; split; [reflexivity|by repeat constructor] ]).
Qed.

Lemma drain_shape JSON_parse fuel : forall buffer acc (t : list Event) flow buffer' acc' t',
  drain JSON_parse recorder fuel buffer acc t = (flow, buffer', acc', t') ->
  exists evs,
    t' = t ++ evs
    /\ match flow with
       | Net.Next => ongoing evs
       | Net.Return => exists r, closed_by (Finish r) evs
       end.
Proof.
  induction fuel as [|fuel IH]; intros buffer acc t flow buffer' acc' t' H; simpl in H.
  - simplify_eq. exists []. split; [by rewrite app_nil_r|constructor].
  - destruct (Str.indexOf _ buffer) as [boundary|].
    2: { simplify_eq. exists []. split; [by rewrite app_nil_r|constructor]. }
    destruct (processChunk _ _ _ acc t) as [[flow1 acc1] t1] eqn:Hchunk.
    apply processChunk_shape in Hchunk as (evs1 & -> & Hevs1).
    destruct flow1.
    + apply IH in H as (evs2 & -> & Hevs2).
      exists (evs1 ++ evs2). split; [by rewrite app_assoc|].
      destruct flow.
      * by apply Forall_app.
      * destruct Hevs2 as (r & pre & -> & Hpre). exists r, (evs1 ++ pre).
        split; [by rewrite app_assoc|by apply Forall_app].
    + simplify_eq. exists evs1. split; [done|].
      destruct Hevs1 as (pre & r & -> & Hpre). by exists r, pre.
Qed.

Lemma readLoop_shape JSON_parse reads failure :
  forall buffer acc (t : list Event) result t',
  readLoop JSON_parse recorder reads failure buffer acc t = (result, t') ->
  exists evs,
    t' = t ++ evs
    /\ match result with
       | inl e => failure = Some e /\ ongoing evs
       | inr _ => ongoing evs \/ exists r, closed_by (Finish r) evs
       end.
Proof.
  induction reads as [|value reads IH]; intros buffer acc t result t' H.
  - simpl in H.
    destruct failure; simplify_eq; exists []; (split; [by rewrite app_nil_r|]).
    + split; [done|constructor].
    + left. constructor.
  - change (match drain JSON_parse recorder (S (String.length (buffer +:+ value)))
                    (buffer +:+ value) acc t with
            | (Net.Return, _, _, s) => (inr (), s)
            | (Net.Next, buffer, acc, s) =>
                readLoop JSON_parse recorder reads failure buffer acc s
            end = (result, t')) in H.
    destruct (drain _ _ _ _ acc t) as [[[flow1 buffer1] acc1] t1] eqn:Hdrain.
    apply drain_shape in Hdrain as (evs1 & -> & Hevs1).
    destruct flow1.
    + apply IH in H as (evs2 & -> & Hevs2).
      exists (evs1 ++ evs2). split; [by rewrite app_assoc|].
      destruct result.
      * destruct Hevs2. split; [done|by apply Forall_app].
      * destruct Hevs2 as [Hon|(r & pre & -> & Hpre)].
        -- left. by apply Forall_app.
        -- right. exists r, (evs1 ++ pre).
           split; [by rewrite app_assoc|by apply Forall_app].
    + simplify_eq. exists evs1. split; [done|]. by right.
Qed.

(** X4. In every run of the OpenAI-compatible adapter a terminal
    callback ([onFinish] or [onError]), if there is one, is the last
    callback: there is at most one, and nothing is delivered after it. *)
Lemma terminal_callback_is_last json fetch messages settings abortController :
  let t := snd (run OpenAI json fetch messages settings abortController) in
  ongoing t \/ exists last, terminal last = true /\ closed_by last t.
Proof.
  assert (forall ev, terminal ev = true -> closed_by ev [ev]) as Hone.
  { intros ev _. exists []. split; [done|constructor]. }
  assert (forall e t, ongoing t ->
            exists last, terminal last = true
                         /\ closed_by last (OpenAIProvider.catch recorder e t)) as Hcatch.
  { intros e t Ht. unfold OpenAIProvider.catch. destruct (String.eqb _ _); simpl.
    - exists (Finish "aborted"). split; [done|]. by exists t.
    - eexists (Error _). split; [done|]. by exists t. }
  simpl. unfold run, generateResponse.
  repeat case_match; simpl; try (right; eexists; split; [|apply Hone]; done).
  all: try (right; apply (Hcatch _ []); constructor).
  all: match goal with
       | H : readLoop _ _ _ _ _ _ _ = _ |- _ =>
           apply readLoop_shape in H as (evs & -> & Hevs); simpl in *
       end.
  all: try (right; apply Hcatch; by destruct Hevs).
  all: destruct Hevs as [Hon|(reason & Hclosed)]; [by left|].
  all: right; by exists (Finish reason).
Qed.

(** When a read of the body rejects with an [AbortError] and the adapter
    gets to that read, the run ends in [onFinish("aborted")] and no
    [onError] has been invoked. *)
Lemma abort_in_stream JSON_parse reads e buffer acc (t' : list Event) :
  JS.exn_name e = "AbortError" ->
  readLoop JSON_parse recorder reads (Some e) buffer acc [] = (inl e, t') ->
  closed_by (Finish "aborted") (OpenAIProvider.catch recorder e t').
Proof.
  intros Hname H. apply readLoop_shape in H as (evs & -> & _ & Hevs).
  unfold OpenAIProvider.catch. rewrite Hname. simpl. by exists evs.
Qed.

End OpenAIStreamFacts.

(** ** The buffer loops never run out of fuel *)

Module BufferLoops.

Lemma substring_length_le (s : string) : forall n m,
  String.length (String.substring n m s) <= m.
Proof.
  induction s as [|a s IH]; intros [|n] [|m]; simpl; try lia.
  - specialize (IH 0 m). lia.
  - apply (IH n 0).
  - apply (IH n (S m)).
Qed.

(** What is left after a found separator is shorter than the buffer. *)
Lemma rest_shorter (pat buffer : string) (k j : nat) :
  pat <> "" -> 0 < j ->
  Str.indexOf pat buffer = Some k ->
  String.length (Str.substring_from (k + j) buffer) < String.length buffer.
Proof.
  intros Hpat Hj Hfound. unfold Str.substring_from.
  pose proof (substring_length_le buffer (k + j) (String.length buffer - (k + j))).
  assert (0 < String.length buffer); [|lia].
  destruct buffer; simpl; [|lia].
  destruct pat; [done|]. discriminate Hfound.
Qed.

Lemma LF_nonempty : Str.LF <> "" /\ Str.LF +:+ Str.LF <> "".
Proof. split; discriminate. Qed.

Section OpenAI.
Context {S : Type} (JSON_parse : string -> option OpenAIProvider.StreamChunk)
  (callbacks : StreamCallbacks S).

Lemma openai_drain_fuel (fuel1 : nat) : forall fuel2 buffer acc s,
  String.length buffer < fuel1 -> String.length buffer < fuel2 ->
  OpenAIProvider.drain JSON_parse callbacks fuel1 buffer acc s
  = OpenAIProvider.drain JSON_parse callbacks fuel2 buffer acc s.
Proof.
  induction fuel1 as [|fuel1 IH]; intros [|fuel2] buffer acc s H1 H2; try lia.
  simpl. destruct (Str.indexOf _ buffer) as [boundary|] eqn:Hfound; [|done].
  destruct (OpenAIProvider.processChunk _ _ _ acc s) as [[[] acc1] s1]; [|done].
  pose proof (rest_shorter _ _ _ 2 (proj2 LF_nonempty) ltac:(lia) Hfound).
  apply IH; lia.
Qed.
End OpenAI.

Section Ollama.
Context {S : Type} (JSON_parse : string -> option OllamaProvider.OllamaChatStreamResponse)
  (callbacks : Legacy.StreamCallbacks S).

Lemma ollama_drain_fuel (fuel1 : nat) : forall fuel2 buffer s,
  String.length buffer < fuel1 -> String.length buffer < fuel2 ->
  OllamaProvider.drain JSON_parse callbacks fuel1 buffer s
  = OllamaProvider.drain JSON_parse callbacks fuel2 buffer s.
Proof.
  induction fuel1 as [|fuel1 IH]; intros [|fuel2] buffer s H1 H2; try lia.
  simpl. destruct (Str.indexOf _ buffer) as [newlineIndex|] eqn:Hfound; [|done].
  destruct (OllamaProvider.processLine _ _ _ s) as [[] s1]; [|done].
  pose proof (rest_shorter _ _ _ 1 (proj1 LF_nonempty) ltac:(lia) Hfound).
  apply IH; lia.
Qed.
End Ollama.

Section Anthropic.
Context {S : Type} (JSON_parse : string -> option AnthropicProvider.AnthropicStreamEvent)
  (callbacks : Legacy.StreamCallbacks S).

Lemma anthropic_drain_fuel (fuel1 : nat) : forall fuel2 buffer s,
  String.length buffer < fuel1 -> String.length buffer < fuel2 ->
  AnthropicProvider.drain JSON_parse callbacks fuel1 buffer s
  = AnthropicProvider.drain JSON_parse callbacks fuel2 buffer s.
Proof.
  induction fuel1 as [|fuel1 IH]; intros [|fuel2] buffer s H1 H2; try lia.
  simpl. destruct (Str.indexOf _ buffer) as [eventEndIndex|] eqn:Hfound; [|done].
  destruct (AnthropicProvider.processEvent _ _ _ s) as [[] s1]; [|done].
  pose proof (rest_shorter _ _ _ 2 (proj2 LF_nonempty) ltac:(lia) Hfound).
  apply IH; lia.
Qed.
End Anthropic.

End BufferLoops.

(** ** Tool lookup *)

Module ToolLookup.
Import LocalToolService.

(** C9, counterexample. With a host command whose id is
    [obsidian_readFile], the built-in reader is not consulted: the
    command is executed. *)
Lemma host_command_shadows_builtin : ~ builtin_first_as_stated.
Proof.
  intros H.
  specialize (H Sample.shadowing_app Sample.lower Sample.stringify Sample.service
                "obsidian_readFile" Sample.read_a_md (succeeded "hello") [] eq_refl).
  vm_compute in H. discriminate H.
Qed.

(** C9, amended. A host command whose id is the tool name is looked up
    first: it is invoked by id, its boolean answer is dropped, and the
    result is the synthetic text with the command's display name (an
    error text when the invocation throws).  The built-in local tools
    are consulted only when no host command has that id, and a name that
    matches nothing gives the not-found error. *)
Theorem host_command_first (app : App) (toLowerCase : string -> string)
    (JSON_stringify : list (string * string) -> string)
    (service : Service) (toolName : string) (args : Args) :
  (forall obsidianCommand,
     find (fun cmd => String.eqb (command_id cmd) toolName) (listCommands app)
     = Some obsidianCommand ->
     exists service' later,
       executeTool app toLowerCase JSON_stringify service toolName args
       = (match executeCommandById app toolName with
          | inr _ =>
              succeeded ("Successfully executed Obsidian command: "
                         +:+ command_name obsidianCommand)
          | inl e =>
              failed ("Error executing Obsidian command '" +:+ toolName +:+ "': "
                      +:+ JS.exn_message e)
          end, service', ExecuteCommandById toolName :: later)
       /\ localTools service' = localTools service)
  /\ (find (fun cmd => String.eqb (command_id cmd) toolName) (listCommands app) = None ->
      executeTool app toLowerCase JSON_stringify service toolName args
      = match builtin app toLowerCase JSON_stringify toolName args with
        | Some (result, effects) => (result, service, effects)
        | None => (failed ("Local tool '" +:+ toolName +:+ "' not found."), service, [])
        end).
Proof.
  split.
  - intros obsidianCommand Hfound. unfold executeTool. rewrite Hfound.
    destruct (executeCommandById app toolName) as [e|b];
      destruct (find _ (localTools service)); simpl; eauto.
  - intros Hnone. unfold executeTool, builtin. rewrite Hnone.
    repeat case_match; simplify_eq/=; reflexivity.
Qed.

Lemma host_command_first_witness :
  (exists service' later,
     executeTool Sample.shadowing_app Sample.lower Sample.stringify Sample.service
       "obsidian_readFile" Sample.read_a_md
     = (succeeded "Successfully executed Obsidian command: Shadow", service',
        ExecuteCommandById "obsidian_readFile" :: later)
     /\ localTools service' = localTools Sample.service)
  /\ executeTool Sample.plain_app Sample.lower Sample.stringify Sample.service
       "obsidian_readFile" Sample.read_a_md
     = (succeeded "hello", Sample.service, []).
Proof.
  split.
  - apply (proj1 (host_command_first Sample.shadowing_app Sample.lower Sample.stringify
                    Sample.service "obsidian_readFile" Sample.read_a_md)
             (mkCommand "obsidian_readFile" "Shadow")).
    reflexivity.
  - apply (proj2 (host_command_first Sample.plain_app Sample.lower Sample.stringify
                    Sample.service "obsidian_readFile" Sample.read_a_md)).
    reflexivity.
Defined.

End ToolLookup.

(** ** The turn orchestrator *)

Module CoreFacts.
Import LocalToolService Core.

(** C4, on the code. Scenario A against the orchestrator with
    [onUpdate]: the adapter delivers "Hi", " there" and then the final
    empty chunk; one assistant entry is appended, and its content is that
    final chunk, the empty string, not "Hi there". *)
Theorem scenario_A_commits_the_final_chunk :
  chatHistory
    (Sample.turn Sample.plain_app (Trace.parse_openai Sample.hi_there_json)
       (Sample.streaming
          [Sample.frame (Sample.content_json "Hi");
           Sample.frame (Sample.content_json " there");
           Sample.frame (Sample.finish_json "stop"); Sample.frame "[DONE]"] None)
       "hello")
  = [Sample.system_prompt;
     mkMessage user (Some "hello") None None;
     mkMessage assistant (Some "") None None].
Proof. vm_compute. reflexivity. Qed.

(** Whatever the deltas, what [onUpdate] commits on the final call is
    the chunk of that call. *)
Lemma onUpdate_commits_last_chunk (el : MessageEl) (deltas : list string)
    (final : string) (st : State) :
  chatHistory
    (onFinish "stop"
       (onUpdate (Some el) final true
          (foldl (fun st delta => onUpdate (Some el) delta false st) st deltas)))
  = chatHistory st ++ [mkMessage assistant (Some final) None None].
Proof.
  simpl. f_equal.
  induction deltas as [|delta deltas IH] using rev_ind; [done|].
  by rewrite foldl_app.
Qed.

(** C7, on the code. A batch of two completed calls whose first has
    arguments that are not JSON: [onToolCall] rejects at the first call,
    no tool entry is appended, for neither call, and no follow-up
    generation is started. *)
Theorem bad_arguments_abort_the_batch :
  let bad :=
    mkOpenAIToolCall "call_0" "function"
      (mkToolCallFunction "obsidian_readFile" ("{" +:+ Sample.q "path" +:+ ":")) in
  let good := mkOpenAIToolCall "call_1" "function" (mkToolCallFunction "foo_bar" "{}") in
  onToolCall Sample.plain_app Sample.lower Sample.stringify Sample.parse_args
    Sample.pretty_args [bad; good] Sample.loaded
  = (Sample.loaded, Some (JS.mkExn "SyntaxError" "Unexpected end of JSON input")).
Proof. vm_compute. reflexivity. Qed.

(** The same batch arriving from the adapter: the rejection is swallowed
    by the adapter's [catch], the transcript gets no tool entry and the
    view is never told that the generation finished. *)
Example bad_arguments_turn :
  let st :=
    Sample.turn Sample.plain_app Sample.tools_json
      (Sample.two_turns
         [Sample.frame (Sample.tool_calls_json (Sample.f0a_json +:+ "," +:+ Sample.f1a_json));
          Sample.frame (Sample.finish_json "tool_calls"); Sample.frame "[DONE]"]
         [Sample.frame (Sample.content_json "Sorry");
          Sample.frame (Sample.finish_json "stop")])
      "read it" in
  chatHistory st = [Sample.system_prompt; mkMessage user (Some "read it") None None]
  /\ chatView st = [StartStreamingResponse]
  /\ length (requests st) = 1.
Proof. vm_compute. done. Qed.

Section ToolCalls.
Variable app : App.
Variable toLowerCase : string -> string.
Variable JSON_stringify : list (string * string) -> string.
Variable JSON_parse : string -> JS.Exn + Args.
Variable JSON_stringify_pretty : Args -> string.

Lemma executeTool_localTools service toolName args :
  localTools (executeTool app toLowerCase JSON_stringify service toolName args).1.2
  = localTools service.
Proof.
  unfold executeTool. repeat case_match; simplify_eq/=; reflexivity.
Qed.

(** With arguments that parse, the loop of [onToolCall] yields one tool
    entry per call, in call order and with the call's id; the entry of a
    name that is not among the local tools is the not-recognized error. *)
Lemma runToolCalls_entries (toolCalls : list OpenAIToolCall) :
  forall (toolResultMessages : list OpenAIMessage) (st : State),
  Forall (fun tc => exists args, JSON_parse (arguments (function tc)) = inr args) toolCalls ->
  exists st' entries,
    runToolCalls app toLowerCase JSON_stringify JSON_parse JSON_stringify_pretty
      toolCalls toolResultMessages st
    = (st', toolResultMessages ++ entries, None)
    /\ Forall2 (fun tc m =>
                  role m = tool /\ tool_call_id m = Some (id tc)
                  /\ (find (fun t => String.eqb (tool_name t) (name (function tc)))
                        (localTools (localToolService st)) = None ->
                      content m = Some (not_recognized (name (function tc)))))
         toolCalls entries
    /\ chatHistory st' = chatHistory st
    /\ localTools (localToolService st') = localTools (localToolService st)
    /\ continuations st' = continuations st
    /\ requests st' = requests st.
Proof.
  induction toolCalls as [|toolCall toolCalls IH]; intros msgs st Hparse.
  - exists st, []. rewrite app_nil_r. repeat split; constructor.
  - apply Forall_cons in Hparse as [[args Hargs] Hparse].
    simpl. rewrite Hargs. simpl.
    destruct (find _ (localTools (localToolService st))) as [localTool|] eqn:Hfind.
    + destruct (executeTool _ _ _ (localToolService st) _ args)
        as [[result service] effects] eqn:Hexec.
      pose proof (executeTool_localTools (localToolService st)
                    (name (function toolCall)) args) as Hsame.
      rewrite Hexec in Hsame. simpl in Hsame.
      match goal with
      | |- context [runToolCalls _ _ _ _ _ toolCalls ?m ?s] =>
          destruct (IH m s Hparse) as (st' & entries & -> & Hall & Hh & Hl & Hc & Hr)
      end.
      eexists st', (_ :: entries). split; [by rewrite <- app_assoc|].
      assert (localTools service = localTools (localToolService st)) as Hsame' by done.
      destruct (isError result); simpl in *.
      all: split; [constructor; [repeat split; congruence|]
                  |repeat split; congruence].
      all: eapply Forall2_impl; [exact Hall|]; simpl.
      all: intros tc m (? & ? & Hnone); repeat split; try done.
      all: intros Hf; apply Hnone; by rewrite Hsame'.
    + match goal with
      | |- context [runToolCalls _ _ _ _ _ toolCalls ?m ?s] =>
          destruct (IH m s Hparse) as (st' & entries & -> & Hall & Hh & Hl & Hc & Hr)
      end.
      eexists st', (_ :: entries). split; [by rewrite <- app_assoc|].
      simpl in *. split; [|done].
      constructor; [done|exact Hall].
Qed.

(** One call of the batch with arguments that are not JSON is enough
    for the loop to throw: whatever the other calls are and wherever
    they stand, the transcript is left as it is. *)
Lemma runToolCalls_throws (toolCalls : list OpenAIToolCall) :
  forall (toolResultMessages : list OpenAIMessage) (st : State),
  Exists (fun tc => exists e, JSON_parse (arguments (function tc)) = inl e) toolCalls ->
  exists st' toolResultMessages' e,
    runToolCalls app toLowerCase JSON_stringify JSON_parse JSON_stringify_pretty
      toolCalls toolResultMessages st
    = (st', toolResultMessages', Some e)
    /\ chatHistory st' = chatHistory st
    /\ continuations st' = continuations st
    /\ requests st' = requests st.
Proof.
  induction toolCalls as [|toolCall toolCalls IH]; intros msgs st Hbad.
  - by apply Exists_nil in Hbad.
  - cbn [runToolCalls]. cbn zeta.
    destruct (JSON_parse (arguments (function toolCall))) as [e|toolArgs] eqn:Hparse.
    + by exists st, msgs, e.
    + apply Exists_cons in Hbad as [[e He]|Hbad]; [congruence|].
      destruct (find _ (localTools (localToolService _))) as [localTool|].
      * destruct (executeTool _ _ _ _ _ toolArgs) as [[result service] effects].
        match goal with
        | |- context [runToolCalls _ _ _ _ _ toolCalls ?m ?s] =>
            destruct (IH m s Hbad) as (st' & msgs' & e & -> & Hh & Hc & Hr)
        end.
        exists st', msgs', e. by destruct (isError result).
      * match goal with
        | |- context [runToolCalls _ _ _ _ _ toolCalls ?m ?s] =>
            destruct (IH m s Hbad) as (st' & msgs' & e & -> & Hh & Hc & Hr)
        end.
        by exists st', msgs', e.
Qed.

(** So [onToolCall] rejects, appends no tool entry and starts no
    follow-up generation. *)
Lemma onToolCall_rejects (toolCalls : list OpenAIToolCall) (st : State) :
  Exists (fun tc => exists e, JSON_parse (arguments (function tc)) = inl e) toolCalls ->
  exists st' e,
    onToolCall app toLowerCase JSON_stringify JSON_parse JSON_stringify_pretty toolCalls st
    = (st', Some e)
    /\ chatHistory st' = chatHistory st
    /\ continuations st' = continuations st
    /\ requests st' = requests st.
Proof.
  intros Hbad. unfold onToolCall.
  destruct toolCalls as [|tc0 tcs] eqn:E; [by apply Exists_nil in Hbad|].
  rewrite <- E in *.
  destruct (runToolCalls_throws toolCalls [] st Hbad) as (st' & msgs' & e & -> & ? & ? & ?).
  by exists st', e.
Qed.

Variable startStreamingResponse : list ViewEvent -> option MessageEl.
Variable settings : ObsigentPluginSettings.
Variable activeLLMProvider :
  StreamCallbacks State -> list OpenAIMessage -> ObsigentPluginSettings -> bool ->
  State -> list Net.Request * State.

(** Where the arguments of every call of the batch are JSON, a call
    whose name is not among the local tools (built-in tools and host
    commands) gets a tool entry in the transcript, with the call's id and
    an error text that quotes the name; the batch goes on, and the
    follow-up generation is started: with the chat view ready, the
    provider is invoked on the transcript that holds the tool entries. *)
Theorem unknown_tool_is_reported (toolCalls : list OpenAIToolCall) (st : State)
    (toolCall : OpenAIToolCall) (abortController : bool) :
  toolCall ∈ toolCalls ->
  Forall (fun tc => exists args, JSON_parse (arguments (function tc)) = inr args) toolCalls ->
  find (fun t => String.eqb (tool_name t) (name (function toolCall)))
    (localTools (localToolService st)) = None ->
  continuations st = 0 ->
  exists st' entries,
    onToolCall app toLowerCase JSON_stringify JSON_parse JSON_stringify_pretty toolCalls st
    = (st', None)
    /\ chatHistory st' = chatHistory st ++ entries
    /\ length entries = length toolCalls
    /\ (exists m, m ∈ entries
                  /\ role m = tool /\ tool_call_id m = Some (id toolCall)
                  /\ content m = Some (not_recognized (name (function toolCall))))
    /\ continuations st' = 1
    /\ forall el,
        startStreamingResponse (chatView st') = Some el ->
        settle startStreamingResponse settings activeLLMProvider abortController st'
        = let asked :=
            view [StartStreamingResponse]
              (mkState (chatHistory st') (localToolService st') (chatView st') (host st')
                 (requests st') 0) in
          let '(sent, st'') :=
            activeLLMProvider
              (mkCallbacks (onUpdate (Some el)) None (onError "Error after tool use: ")
                 onFinish)
              (chatHistory st ++ entries) settings abortController asked in
          mkState (chatHistory st'') (localToolService st'') (chatView st'') (host st'')
            (requests st'' ++ sent) (continuations st'').
Proof.
  intros Hin Hparse Hnone Hzero.
  destruct (runToolCalls_entries toolCalls [] st Hparse)
    as (st1 & entries & Hrun & Hall & Hh & Hl & Hc & Hr).
  unfold onToolCall. destruct toolCalls as [|tc0 tcs] eqn:E; [by apply elem_of_nil in Hin|].
  rewrite <- E in *. rewrite Hrun. simpl.
  eexists _, entries. split; [reflexivity|]. simpl.
  split; [by rewrite Hh|]. split; [symmetry; by eapply Forall2_length|].
  split; [|split; [by rewrite Hc, Hzero|]].
  - apply list_elem_of_lookup in Hin as [k Hk].
    destruct (Forall2_lookup_l _ _ _ _ _ Hall Hk) as (m & Hm & Hrole & Hid & Hcontent).
    exists m. split; [by eapply list_elem_of_lookup_2|]. auto.
  - intros el Hel. simpl in Hel. unfold settle. simpl. rewrite Hc, Hzero. simpl.
    unfold continueGenerationWithTools. simpl.
    rewrite Hel. unfold generate. simpl. by rewrite Hh.
Qed.

End ToolCalls.

Lemma unknown_tool_is_reported_witness :
  let foo_bar := mkOpenAIToolCall "call_1" "function" (mkToolCallFunction "foo_bar" "{}") in
  exists st' entries,
    onToolCall Sample.plain_app Sample.lower Sample.stringify Sample.parse_args
      Sample.pretty_args [foo_bar] Sample.loaded = (st', None)
    /\ chatHistory st' = chatHistory Sample.loaded ++ entries
    /\ length entries = 1
    /\ (exists m, m ∈ entries
                  /\ role m = tool /\ tool_call_id m = Some "call_1"
                  /\ content m = Some (not_recognized "foo_bar"))
    /\ continuations st' = 1.
Proof.
  intros foo_bar.
  destruct (unknown_tool_is_reported Sample.plain_app Sample.lower Sample.stringify
              Sample.parse_args Sample.pretty_args Sample.ready_view Sample.openai_settings
              (OpenAIProvider.generateResponse Sample.tools_json
                 (Sample.streaming [] None))
              [foo_bar] Sample.loaded foo_bar true)
    as (st' & entries & H1 & H2 & H3 & H4 & H5 & _).
  - apply list_elem_of_here.
  - repeat constructor. by eexists.
  - reflexivity.
  - reflexivity.
  - exists st', entries. auto.
Defined.

(** C8, on the code. A batch of two completed calls: the first names
    the tool "foo_bar", which has no handler, the second has arguments
    that are not JSON.  The not-recognized error of "foo_bar" is shown in
    the view, but [onToolCall] rejects at the second call: no tool entry
    is appended to the transcript, not for "foo_bar" either, and no
    follow-up generation is started. *)
Theorem unknown_tool_entry_is_dropped :
  let foo_bar := mkOpenAIToolCall "call_1" "function" (mkToolCallFunction "foo_bar" "{}") in
  let bad :=
    mkOpenAIToolCall "call_2" "function"
      (mkToolCallFunction "obsidian_readFile" ("{" +:+ Sample.q "path" +:+ ":")) in
  let '(st', rejected) :=
    onToolCall Sample.plain_app Sample.lower Sample.stringify Sample.parse_args
      Sample.pretty_args [foo_bar; bad] Sample.loaded in
  rejected = Some (JS.mkExn "SyntaxError" "Unexpected end of JSON input")
  /\ chatHistory st' = chatHistory Sample.loaded
  /\ continuations st' = 0
  /\ chatView st'
     = [DisplayMessage "Running tool: foo_bar with arguments: {}" "tool";
        DisplayMessage "Tool 'foo_bar' is not a recognized local or Obsidian command."
          "error"].
Proof. vm_compute. done. Qed.

(** Scenario C from end to end: the tool entry for "foo_bar" is in the
    transcript, and the second request carries it. *)
Example scenario_C :
  let st :=
    Sample.turn Sample.plain_app Sample.tools_json
      (Sample.two_turns
         [Sample.frame (Sample.tool_calls_json Sample.f1a_json);
          Sample.frame (Sample.finish_json "tool_calls"); Sample.frame "[DONE]"]
         [Sample.frame (Sample.content_json "Sorry");
          Sample.frame (Sample.finish_json "stop")])
      "do foo" in
  chatHistory st
  = [Sample.system_prompt; mkMessage user (Some "do foo") None None;
     toolMessage "call_1" (not_recognized "foo_bar");
     mkMessage assistant (Some "") None None]
  /\ Net.body <$> requests st
     = [Net.OpenAIRequest "gpt-3.5-turbo"
          [Sample.system_prompt; mkMessage user (Some "do foo") None None] true None None;
        Net.OpenAIRequest "gpt-3.5-turbo"
          [Sample.system_prompt; mkMessage user (Some "do foo") None None;
           toolMessage "call_1" (not_recognized "foo_bar")] true None None].
Proof. vm_compute. done. Qed.

End CoreFacts.

(** ** The earlier orchestrator, for comparison *)

Module LegacyCoreFacts.
Import LocalToolService LegacyCore.

(** X19. With the callbacks of the earlier core, the deltas are
    accumulated and [onFinish("stop")] commits their concatenation as one
    assistant entry. *)
Lemma onContent_accumulates (deltas : list string) : forall (st : State) (el : MessageEl),
  aiMessageContentEl st = Some el ->
  currentToolCalls st = [] ->
  chatHistory
    (onFinish "stop" (foldl (fun st delta => onContent delta false st) st deltas))
  = chatHistory st
    ++ [mkMessage assistant (Some (accumulatedContent st +:+ Accumulator.join deltas))
          None None].
Proof.
  induction deltas as [|delta deltas IH]; intros st el Hel Hnone.
  - simpl. unfold onFinish. rewrite Hnone. simpl.
    by rewrite AccumulatorFields.append_nil_r.
  - simpl foldl. unfold onContent at 2. rewrite Hel.
    erewrite IH; [|simpl; reflexivity|simpl; exact Hnone].
    simpl. by rewrite AccumulatorFields.append_assoc.
Qed.

(** Scenario A against the earlier core and the Ollama adapter: the one
    assistant entry appended is "Hi there". *)
Example scenario_A_legacy :
  chatHistory
    (Sample.legacy_turn
       (Sample.streaming
          [Sample.ollama_json "Hi" "false" +:+ Str.LF;
           Sample.ollama_json " there" "false" +:+ Str.LF;
           Sample.ollama_json "" "true" +:+ Str.LF] None))
  = [Sample.system_prompt; mkMessage user (Some "hello") None None;
     mkMessage assistant (Some "Hi there") None None].
Proof. vm_compute. reflexivity. Qed.

(** X20. The loop of [onToolCallsDone] catches a parse failure per call
    and goes on; what ends it early is a tool execution that rejects.
    The calls up to there, all of them when no execution rejects, have
    each appended exactly one tool entry with the call's id, in call
    order; the call whose execution rejects and the calls after it have
    appended none. *)
Lemma runToolCalls_one_entry_per_call JSON_parse JSON_stringify_error
    JSON_stringify_error_pretty JSON_stringify_pretty executeTool
    (typedToolCalls : list OpenAIToolCall) : forall st : State,
  let '(st', rejected) :=
    runToolCalls JSON_parse JSON_stringify_error JSON_stringify_error_pretty
      JSON_stringify_pretty executeTool typedToolCalls st in
  exists served entries,
    chatHistory st' = chatHistory st ++ entries
    /\ Forall2 (fun tc m => role m = tool /\ tool_call_id m = Some (id tc)) served entries
    /\ match rejected with
       | None => typedToolCalls = served
       | Some e =>
           exists toolCall rest args,
             typedToolCalls = served ++ toolCall :: rest
             /\ JSON_parse (arguments (function toolCall)) = inr args
             /\ Str.startsWith "obsidian_" (name (function toolCall)) = true
             /\ executeTool (name (function toolCall)) args = inl e
       end.
Proof.
  induction typedToolCalls as [|toolCall typedToolCalls IH]; intros st.
  - exists [], []. by rewrite app_nil_r.
  - cbn [runToolCalls]. cbn zeta.
    assert (forall (s : State) (m : OpenAIMessage),
              chatHistory s = chatHistory st ++ [m] ->
              role m = tool -> tool_call_id m = Some (id toolCall) ->
              let '(st', rejected) :=
                runToolCalls JSON_parse JSON_stringify_error JSON_stringify_error_pretty
                  JSON_stringify_pretty executeTool typedToolCalls s in
              exists served entries,
                chatHistory st' = chatHistory st ++ entries
                /\ Forall2 (fun tc m => role m = tool /\ tool_call_id m = Some (id tc))
                     served entries
                /\ match rejected with
                   | None => toolCall :: typedToolCalls = served
                   | Some e =>
                       exists tc rest args,
                         toolCall :: typedToolCalls = served ++ tc :: rest
                         /\ JSON_parse (arguments (function tc)) = inr args
                         /\ Str.startsWith "obsidian_" (name (function tc)) = true
                         /\ executeTool (name (function tc)) args = inl e
                   end) as Hstep.
    { intros s m Hs Hrole Hid. specialize (IH s).
      destruct (runToolCalls _ _ _ _ _ typedToolCalls s) as [st' rejected].
      destruct IH as (served & entries & Hh & Hall & Hrej).
      exists (toolCall :: served), (m :: entries).
      split; [by rewrite Hh, Hs, <- app_assoc|].
      split; [by constructor|].
      destruct rejected as [e|]; [|by rewrite Hrej].
      destruct Hrej as (tc & rest & args & -> & ? & ? & ?).
      by exists tc, rest, args. }
    destruct (JSON_parse (arguments (function toolCall))) as [e|args] eqn:Hparse.
    + by eapply Hstep.
    + destruct (Str.startsWith "obsidian_" (name (function toolCall))) eqn:Hlocal.
      * destruct (executeTool (name (function toolCall)) args) as [e|r] eqn:Hexec.
        -- exists [], []. rewrite app_nil_r. split; [done|]. split; [constructor|].
           by exists toolCall, typedToolCalls, args.
        -- by eapply Hstep.
      * by eapply Hstep.
Qed.

(** Arguments that are the JSON text [null] are such a case: the tool
    reads [args.path], the execution rejects, and neither this call nor
    the one behind it gets a tool entry. *)
Example null_arguments_abort_the_loop :
  let null_call :=
    mkOpenAIToolCall "call_0" "function" (mkToolCallFunction "obsidian_readFile" "null") in
  let foo_call := mkOpenAIToolCall "call_1" "function" (mkToolCallFunction "foo_bar" "{}") in
  let '(st', rejected) :=
    runToolCalls Sample.legacy_parse_args (fun e => e) (fun e => e)
      Sample.legacy_pretty_args Sample.legacy_executeTool [null_call; foo_call]
      Sample.legacy_asked in
  chatHistory st' = chatHistory Sample.legacy_asked
  /\ rejected = Some (JS.mkExn "TypeError" "Cannot read properties of null (reading 'path')").
Proof. vm_compute. done. Qed.

End LegacyCoreFacts.

(** ** Strings: a separator found in a buffer is found at the same place
       when more text has arrived *)

Module Framing.

Lemma append_cons a (s t : string) : String a s +:+ t = String a (s +:+ t).
Proof. reflexivity. Qed.

Lemma append_nil_l (t : string) : "" +:+ t = t.
Proof. reflexivity. Qed.

Lemma length_append (s t : string) :
  String.length (s +:+ t) = String.length s + String.length t.
Proof.
  induction s as [|a s IH]; [done|].
  rewrite append_cons. simpl. by rewrite IH.
Qed.

Lemma prefix_app_long (p : string) : forall s t : string,
  String.length p <= String.length s ->
  String.prefix p (s +:+ t) = String.prefix p s.
Proof.
  induction p as [|a p IH]; intros s t Hlen.
  - destruct s, t; reflexivity.
  - destruct s as [|b s]; simpl in Hlen; [lia|].
    rewrite append_cons. simpl. destruct (ascii_dec a b); [|done].
    apply IH. lia.
Qed.

Lemma prefix_length (p : string) : forall s : string,
  String.prefix p s = true -> String.length p <= String.length s.
Proof.
  induction p as [|a p IH]; intros s H; simpl; [lia|].
  destruct s as [|b s]; simpl in *; [done|].
  destruct (ascii_dec a b); [|done]. apply IH in H. lia.
Qed.

Lemma index_cons (p : string) b (s : string) :
  String.index 0 p (String b s)
  = if String.prefix p (String b s) then Some 0
    else match String.index 0 p s with Some n => Some (S n) | None => None end.
Proof. reflexivity. Qed.

Lemma index_length (p : string) : forall (s : string) k,
  String.index 0 p s = Some k -> k + String.length p <= String.length s.
Proof.
  induction s as [|b s IH]; intros k H.
  - simpl in H. destruct p; simplify_eq. simpl. lia.
  - rewrite index_cons in H. destruct (String.prefix p (String b s)) eqn:Hp.
    + simplify_eq. apply prefix_length in Hp. simpl in *. lia.
    + destruct (String.index 0 p s) as [n|]; simplify_eq.
      specialize (IH n eq_refl). simpl. lia.
Qed.

Lemma index_app (p : string) : forall (s t : string) k,
  String.index 0 p s = Some k -> String.index 0 p (s +:+ t) = Some k.
Proof.
  induction s as [|b s IH]; intros t k H.
  - simpl in H. destruct p; simplify_eq. by destruct t.
  - pose proof (index_length _ _ _ H) as Hlen.
    rewrite append_cons, index_cons, <- append_cons. rewrite index_cons in H.
    destruct (String.prefix p (String b s)) eqn:Hp.
    + simplify_eq. rewrite prefix_app_long, Hp; [done|]. by apply prefix_length.
    + destruct (String.index 0 p s) as [n|] eqn:Hn; simplify_eq.
      rewrite prefix_app_long, Hp by (simpl in *; lia).
      by rewrite (IH t n eq_refl).
Qed.

Lemma substring_all (s : string) : String.substring 0 (String.length s) s = s.
Proof. induction s as [|a s IH]; [done|]. simpl. by rewrite IH. Qed.

Lemma substring_to_app (s t : string) : forall k,
  k <= String.length s ->
  Str.substring_to k (s +:+ t) = Str.substring_to k s.
Proof.
  unfold Str.substring_to.
  induction s as [|a s IH]; intros k Hk; simpl in Hk.
  - replace k with 0 by lia. by destruct t.
  - destruct k as [|k]; [done|]. rewrite append_cons. simpl. rewrite IH; [done|lia].
Qed.

Lemma substring_from_app (s t : string) : forall n,
  n <= String.length s ->
  Str.substring_from n (s +:+ t) = Str.substring_from n s +:+ t.
Proof.
  unfold Str.substring_from.
  induction s as [|a s IH]; intros n Hn; simpl in Hn.
  - replace n with 0 by lia. rewrite append_nil_l, Nat.sub_0_r. apply substring_all.
  - destruct n as [|n].
    + rewrite !Nat.sub_0_r, !substring_all. done.
    + rewrite append_cons. simpl. apply IH. lia.
Qed.

Lemma nonempty_Some (x : option string) (s : string) :
  JS.nonempty x = Some s -> x = Some s /\ s <> "".
Proof.
  unfold JS.nonempty, JS.truthy. destruct x as [t|]; [|done].
  destruct (String.eqb_spec t ""); simpl; [done|]. intros [= ->]. done.
Qed.

Lemma omap_cons {A B} (f : A -> option B) (x : A) (l : list A) :
  omap f (x :: l) = match f x with Some y => y :: omap f l | None => omap f l end.
Proof. reflexivity. Qed.

End Framing.

(** ** The adapters buffer partial frames *)

Module Regroup.
Import Net Framing.

Lemma join_cons v (reads : list string) :
  Accumulator.join (v :: reads) = v +:+ Accumulator.join reads.
Proof. reflexivity. Qed.

Lemma substring_from_length (n : nat) (s : string) :
  String.length (Str.substring_from n s) <= String.length s.
Proof.
  unfold Str.substring_from.
  pose proof (BufferLoops.substring_length_le s n (String.length s - n)). lia.
Qed.

Section OpenAI.
Import OpenAIProvider.
Context {S : Type} (JSON_parse : string -> option StreamChunk)
  (callbacks : StreamCallbacks S).

Lemma openai_drain_rest (fuel : nat) : forall buffer acc s flow rest acc' s',
  drain JSON_parse callbacks fuel buffer acc s = (flow, rest, acc', s') ->
  String.length rest <= String.length buffer.
Proof.
  induction fuel as [|fuel IH]; intros buffer acc s flow rest acc' s' H; simpl in H.
  - by simplify_eq.
  - destruct (Str.indexOf _ buffer) as [boundary|]; [|by simplify_eq].
    pose proof (substring_from_length (boundary + 2) buffer).
    destruct (processChunk _ _ _ acc s) as [[[] acc1] s1]; [|by simplify_eq].
    apply IH in H. lia.
Qed.

Lemma openai_drain_app (fuel : nat) : forall fuel1 fuel2 buffer value acc s,
  String.length buffer < fuel ->
  String.length (buffer +:+ value) < fuel1 ->
  String.length (buffer +:+ value) < fuel2 ->
  drain JSON_parse callbacks fuel1 (buffer +:+ value) acc s
  = match drain JSON_parse callbacks fuel buffer acc s with
    | (Return, rest, acc, s) => (Return, rest +:+ value, acc, s)
    | (Next, rest, acc, s) => drain JSON_parse callbacks fuel2 (rest +:+ value) acc s
    end.
Proof.
  induction fuel as [|fuel IH]; intros fuel1 fuel2 buffer value acc s H H1 H2; [lia|].
  simpl. destruct (Str.indexOf _ buffer) as [boundary|] eqn:Hfound.
  2: { by apply BufferLoops.openai_drain_fuel. }
  destruct fuel1 as [|fuel1]; [lia|]. simpl.
  pose proof (BufferLoops.rest_shorter _ _ _ 2 (proj2 BufferLoops.LF_nonempty)
                ltac:(lia) Hfound) as Hshort.
  pose proof (index_length _ _ _ Hfound) as Hlen. simpl in Hlen.
  unfold Str.indexOf in *. rewrite (index_app _ _ value _ Hfound).
  rewrite substring_to_app, substring_from_app by lia.
  destruct (processChunk _ _ _ acc s) as [[[] acc1] s1]; [|done].
  rewrite length_append in *.
  apply IH; rewrite ?length_append; lia.
Qed.

Lemma openai_readLoop_two v1 v2 reads failure buffer acc s :
  readLoop JSON_parse callbacks (v1 :: v2 :: reads) failure buffer acc s
  = readLoop JSON_parse callbacks ((v1 +:+ v2) :: reads) failure buffer acc s.
Proof.
  cbn [readLoop].
  rewrite <- AccumulatorFields.append_assoc.
  rewrite (openai_drain_app (Datatypes.S (String.length (buffer +:+ v1)))
             _ (Datatypes.S (String.length ((buffer +:+ v1) +:+ v2)))
             (buffer +:+ v1) v2) by lia.
  destruct (drain _ _ _ (buffer +:+ v1) acc s) as [[[[] rest] acc1] s1] eqn:E; [|done].
  apply openai_drain_rest in E.
  rewrite (BufferLoops.openai_drain_fuel _ _
             (Datatypes.S (String.length (rest +:+ v2)))
             (Datatypes.S (String.length ((buffer +:+ v1) +:+ v2)))); [done|lia|].
  rewrite !length_append in *. lia.
Qed.

Lemma openai_readLoop_cons (reads : list string) : forall v failure buffer acc s,
  readLoop JSON_parse callbacks (v :: reads) failure buffer acc s
  = readLoop JSON_parse callbacks [v +:+ Accumulator.join reads] failure buffer acc s.
Proof.
  induction reads as [|v2 reads IH]; intros v failure buffer acc s.
  - by rewrite AccumulatorFields.append_nil_r.
  - rewrite openai_readLoop_two, IH, join_cons.
    by rewrite AccumulatorFields.append_assoc.
Qed.

(** X1. The callbacks of the OpenAI-compatible adapter depend on the text of
    the body only, not on how the network cuts it into reads: reading
    the pieces one by one leaves the callbacks' owner in the state that
    reading their concatenation at once does. *)
Theorem openai_reads_regroup (reads : list string) failure acc s :
  readLoop JSON_parse callbacks reads failure "" acc s
  = readLoop JSON_parse callbacks [Accumulator.join reads] failure "" acc s.
Proof.
  destruct reads as [|v reads]; [reflexivity|]. apply openai_readLoop_cons.
Qed.

End OpenAI.

Section Ollama.
Import OllamaProvider.
Context {S : Type} (JSON_parse : string -> option OllamaChatStreamResponse)
  (callbacks : Legacy.StreamCallbacks S).

Lemma ollama_drain_rest (fuel : nat) : forall buffer s flow rest s',
  drain JSON_parse callbacks fuel buffer s = (flow, rest, s') ->
  String.length rest <= String.length buffer.
Proof.
  induction fuel as [|fuel IH]; intros buffer s flow rest s' H; simpl in H.
  - by simplify_eq.
  - destruct (Str.indexOf _ buffer) as [newlineIndex|]; [|by simplify_eq].
    pose proof (substring_from_length (newlineIndex + 1) buffer).
    destruct (processLine _ _ _ s) as [[] s1]; [|by simplify_eq].
    apply IH in H. lia.
Qed.

Lemma ollama_drain_app (fuel : nat) : forall fuel1 fuel2 buffer value s,
  String.length buffer < fuel ->
  String.length (buffer +:+ value) < fuel1 ->
  String.length (buffer +:+ value) < fuel2 ->
  drain JSON_parse callbacks fuel1 (buffer +:+ value) s
  = match drain JSON_parse callbacks fuel buffer s with
    | (Return, rest, s) => (Return, rest +:+ value, s)
    | (Next, rest, s) => drain JSON_parse callbacks fuel2 (rest +:+ value) s
    end.
Proof.
  induction fuel as [|fuel IH]; intros fuel1 fuel2 buffer value s H H1 H2; [lia|].
  simpl. destruct (Str.indexOf _ buffer) as [newlineIndex|] eqn:Hfound.
  2: { by apply BufferLoops.ollama_drain_fuel. }
  destruct fuel1 as [|fuel1]; [lia|]. simpl.
  pose proof (BufferLoops.rest_shorter _ _ _ 1 (proj1 BufferLoops.LF_nonempty)
                ltac:(lia) Hfound) as Hshort.
  pose proof (index_length _ _ _ Hfound) as Hlen. simpl in Hlen.
  unfold Str.indexOf in *. rewrite (index_app _ _ value _ Hfound).
  rewrite substring_to_app, substring_from_app by lia.
  destruct (processLine _ _ _ s) as [[] s1]; [|done].
  rewrite length_append in *.
  apply IH; rewrite ?length_append; lia.
Qed.

Lemma ollama_readLoop_two v1 v2 reads failure buffer s :
  readLoop JSON_parse callbacks (v1 :: v2 :: reads) failure buffer s
  = readLoop JSON_parse callbacks ((v1 +:+ v2) :: reads) failure buffer s.
Proof.
  cbn [readLoop].
  rewrite <- AccumulatorFields.append_assoc.
  rewrite (ollama_drain_app (Datatypes.S (String.length (buffer +:+ v1)))
             _ (Datatypes.S (String.length ((buffer +:+ v1) +:+ v2)))
             (buffer +:+ v1) v2) by lia.
  destruct (drain _ _ _ (buffer +:+ v1) s) as [[[] rest] s1] eqn:E; [|done].
  apply ollama_drain_rest in E.
  rewrite (BufferLoops.ollama_drain_fuel _ _
             (Datatypes.S (String.length (rest +:+ v2)))
             (Datatypes.S (String.length ((buffer +:+ v1) +:+ v2)))); [done|lia|].
  rewrite !length_append in *. lia.
Qed.

Lemma ollama_readLoop_cons (reads : list string) : forall v failure buffer s,
  readLoop JSON_parse callbacks (v :: reads) failure buffer s
  = readLoop JSON_parse callbacks [v +:+ Accumulator.join reads] failure buffer s.
Proof.
  induction reads as [|v2 reads IH]; intros v failure buffer s.
  - by rewrite AccumulatorFields.append_nil_r.
  - rewrite ollama_readLoop_two, IH, join_cons.
    by rewrite AccumulatorFields.append_assoc.
Qed.

(** X2. The same for the Ollama adapter and its NDJSON lines, the
    handling of what is left in the buffer at the end of the body
    included. *)
Theorem ollama_reads_regroup (reads : list string) failure s :
  readLoop JSON_parse callbacks reads failure "" s
  = readLoop JSON_parse callbacks [Accumulator.join reads] failure "" s.
Proof.
  destruct reads as [|v reads]; [reflexivity|]. apply ollama_readLoop_cons.
Qed.

End Ollama.

Section Anthropic.
Import AnthropicProvider.
Context {S : Type} (JSON_parse : string -> option AnthropicStreamEvent)
  (callbacks : Legacy.StreamCallbacks S).

Lemma anthropic_drain_rest (fuel : nat) : forall buffer s flow rest s',
  drain JSON_parse callbacks fuel buffer s = (flow, rest, s') ->
  String.length rest <= String.length buffer.
Proof.
  induction fuel as [|fuel IH]; intros buffer s flow rest s' H; simpl in H.
  - by simplify_eq.
  - destruct (Str.indexOf _ buffer) as [eventEndIndex|]; [|by simplify_eq].
    pose proof (substring_from_length (eventEndIndex + 2) buffer).
    destruct (processEvent _ _ _ s) as [[] s1]; [|by simplify_eq].
    apply IH in H. lia.
Qed.

Lemma anthropic_drain_app (fuel : nat) : forall fuel1 fuel2 buffer value s,
  String.length buffer < fuel ->
  String.length (buffer +:+ value) < fuel1 ->
  String.length (buffer +:+ value) < fuel2 ->
  drain JSON_parse callbacks fuel1 (buffer +:+ value) s
  = match drain JSON_parse callbacks fuel buffer s with
    | (Return, rest, s) => (Return, rest +:+ value, s)
    | (Next, rest, s) => drain JSON_parse callbacks fuel2 (rest +:+ value) s
    end.
Proof.
  induction fuel as [|fuel IH]; intros fuel1 fuel2 buffer value s H H1 H2; [lia|].
  simpl. destruct (Str.indexOf _ buffer) as [eventEndIndex|] eqn:Hfound.
  2: { by apply BufferLoops.anthropic_drain_fuel. }
  destruct fuel1 as [|fuel1]; [lia|]. simpl.
  pose proof (BufferLoops.rest_shorter _ _ _ 2 (proj2 BufferLoops.LF_nonempty)
                ltac:(lia) Hfound) as Hshort.
  pose proof (index_length _ _ _ Hfound) as Hlen. simpl in Hlen.
  unfold Str.indexOf in *. rewrite (index_app _ _ value _ Hfound).
  rewrite substring_to_app, substring_from_app by lia.
  destruct (processEvent _ _ _ s) as [[] s1]; [|done].
  rewrite length_append in *.
  apply IH; rewrite ?length_append; lia.
Qed.

Lemma anthropic_readLoop_two v1 v2 reads failure buffer s :
  readLoop JSON_parse callbacks (v1 :: v2 :: reads) failure buffer s
  = readLoop JSON_parse callbacks ((v1 +:+ v2) :: reads) failure buffer s.
Proof.
  cbn [readLoop].
  rewrite <- AccumulatorFields.append_assoc.
  rewrite (anthropic_drain_app (Datatypes.S (String.length (buffer +:+ v1)))
             _ (Datatypes.S (String.length ((buffer +:+ v1) +:+ v2)))
             (buffer +:+ v1) v2) by lia.
  destruct (drain _ _ _ (buffer +:+ v1) s) as [[[] rest] s1] eqn:E; [|done].
  apply anthropic_drain_rest in E.
  rewrite (BufferLoops.anthropic_drain_fuel _ _
             (Datatypes.S (String.length (rest +:+ v2)))
             (Datatypes.S (String.length ((buffer +:+ v1) +:+ v2)))); [done|lia|].
  rewrite !length_append in *. lia.
Qed.

Lemma anthropic_readLoop_cons (reads : list string) : forall v failure buffer s,
  readLoop JSON_parse callbacks (v :: reads) failure buffer s
  = readLoop JSON_parse callbacks [v +:+ Accumulator.join reads] failure buffer s.
Proof.
  induction reads as [|v2 reads IH]; intros v failure buffer s.
  - by rewrite AccumulatorFields.append_nil_r.
  - rewrite anthropic_readLoop_two, IH, join_cons.
    by rewrite AccumulatorFields.append_assoc.
Qed.

(** X3. The same for the Anthropic adapter and its SSE events. *)
Theorem anthropic_reads_regroup (reads : list string) failure s :
  readLoop JSON_parse callbacks reads failure "" s
  = readLoop JSON_parse callbacks [Accumulator.join reads] failure "" s.
Proof.
  destruct reads as [|v reads]; [reflexivity|]. apply anthropic_readLoop_cons.
Qed.

End Anthropic.
End Regroup.

(** ** How the runs of the adapters end *)

Module StreamEnds.
Import Net Trace Shape.

Lemma ongoing_nil : ongoing [].
Proof. constructor. Qed.

Lemma ongoing_app (evs1 evs2 : list Event) :
  ongoing evs1 -> ongoing evs2 -> ongoing (evs1 ++ evs2).
Proof. intros. by apply Forall_app. Qed.

Lemma closed_by_one (last : Event) (pre : list Event) :
  ongoing pre -> closed_by last (pre ++ [last]).
Proof. intros. by exists pre. Qed.

Lemma closed_by_app (last : Event) (evs1 evs2 : list Event) :
  ongoing evs1 -> closed_by last evs2 -> closed_by last (evs1 ++ evs2).
Proof.
  intros H1 (pre & -> & Hpre). exists (evs1 ++ pre).
  split; [by rewrite app_assoc|by apply ongoing_app].
Qed.

Lemma finished_app (evs1 evs2 : list Event) :
  ongoing evs1 -> finished evs2 -> finished (evs1 ++ evs2).
Proof.
  intros H1 [(r & H2)|(pre & m & -> & Hpre)].
  - left. exists r. by apply closed_by_app.
  - right. exists (evs1 ++ pre), m. split; [by rewrite app_assoc|by apply ongoing_app].
Qed.

Section Ollama.
Import OllamaProvider.
Variable JSON_parse : string -> option OllamaChatStreamResponse.

Lemma ollama_processLine_shape line (t : list Event) flow t' :
  processLine JSON_parse legacy_recorder line t = (flow, t') ->
  exists evs,
    t' = t ++ evs
    /\ match flow with Next => ongoing evs | Return => finished evs end.
Proof.
  unfold processLine. intros H.
  repeat case_match; simplify_eq/=.
  all: try (exists []; split; [by rewrite app_nil_r|constructor]).
  all: try (eexists; split; [rewrite <- ?app_assoc; reflexivity|]).
  all: try (by repeat constructor).
  all: try (right; eexists [], _; split; [reflexivity|constructor]).
  all: left; eexists; first [ apply (closed_by_one _ [_]) | apply (closed_by_one _ [_; _]) ];
    by repeat constructor.
Qed.

Lemma ollama_drain_shape fuel : forall buffer (t : list Event) flow buffer' t',
  drain JSON_parse legacy_recorder fuel buffer t = (flow, buffer', t') ->
  exists evs,
    t' = t ++ evs
    /\ match flow with Next => ongoing evs | Return => finished evs end.
Proof.
  induction fuel as [|fuel IH]; intros buffer t flow buffer' t' H; simpl in H.
  - simplify_eq. exists []. split; [by rewrite app_nil_r|constructor].
  - destruct (Str.indexOf _ buffer) as [newlineIndex|].
    2: { simplify_eq. exists []. split; [by rewrite app_nil_r|constructor]. }
    destruct (processLine _ _ _ t) as [flow1 t1] eqn:Hline.
    apply ollama_processLine_shape in Hline as (evs1 & -> & Hevs1).
    destruct flow1; [|simplify_eq; by exists evs1].
    apply IH in H as (evs2 & -> & Hevs2).
    exists (evs1 ++ evs2). split; [by rewrite app_assoc|].
    destruct flow; [by apply ongoing_app|by apply finished_app].
Qed.

Lemma ollama_atEnd_shape buffer (t : list Event) :
  exists evs, atEnd JSON_parse legacy_recorder buffer t = t ++ evs
              /\ exists reason, closed_by (Finish reason) evs.
Proof.
  unfold atEnd. repeat case_match; simpl.
  all: eexists; split; [rewrite <- ?app_assoc; reflexivity|].
  all: eexists; first [ apply (closed_by_one _ []) | apply (closed_by_one _ [_]) ];
    by repeat constructor.
Qed.

Lemma ollama_readLoop_shape reads failure : forall buffer (t : list Event) result t',
  readLoop JSON_parse legacy_recorder reads failure buffer t = (result, t') ->
  exists evs,
    t' = t ++ evs
    /\ match result with
       | inl e => failure = Some e /\ ongoing evs
       | inr _ => finished evs
       end.
Proof.
  induction reads as [|value reads IH]; intros buffer t result t' H.
  - simpl in H. destruct failure; simplify_eq.
    + exists []. split; [by rewrite app_nil_r|]. split; [done|constructor].
    + destruct (ollama_atEnd_shape buffer t) as (evs & -> & Hevs).
      exists evs. split; [done|by left].
  - cbn [readLoop] in H.
    destruct (drain _ _ _ _ t) as [[flow1 buffer1] t1] eqn:Hdrain.
    apply ollama_drain_shape in Hdrain as (evs1 & -> & Hevs1).
    destruct flow1; [|simplify_eq; by exists evs1].
    apply IH in H as (evs2 & -> & Hevs2).
    exists (evs1 ++ evs2). split; [by rewrite app_assoc|].
    destruct result.
    + destruct Hevs2. split; [done|by apply ongoing_app].
    + by apply finished_app.
Qed.

End Ollama.

(** X5. Once the Ollama adapter reads a body, the run always ends with
    exactly one [onFinish], and it is the last callback; [onError] is
    invoked at most once, and when it is, [onFinish("error")] follows it
    directly and ends the run.  Before the body is read, a
    misconfiguration, an HTTP error and a missing body are reported by
    [onError] alone. *)
Theorem ollama_always_finishes json fetch messages settings abortController :
  let t := snd (run Ollama json fetch messages settings abortController) in
  (exists errorMsg, t = [Error errorMsg]) \/ finished t.
Proof.
  assert (forall e t, ongoing t -> finished (OllamaProvider.catch legacy_recorder e t))
    as Hcatch.
  { intros e t Ht. unfold OllamaProvider.catch. destruct (String.eqb _ _); simpl.
    - left. eexists. by apply closed_by_one.
    - right. exists t. eexists. rewrite <- app_assoc. by split. }
  simpl. unfold run, OllamaProvider.generateResponse.
  repeat case_match; simpl; try (left; by eexists).
  all: try (right; apply (Hcatch _ []); constructor).
  all: match goal with
       | H : OllamaProvider.readLoop _ _ _ _ _ _ = _ |- _ =>
           apply ollama_readLoop_shape in H as (evs & -> & Hevs); simpl in *
       end.
  - right. apply Hcatch. by destruct Hevs.
  - by right.
Qed.

(** The two ways to [onFinish("error")]: a line of the body that reports
    an error is passed to [onError] first; the same text left in the
    buffer when the body ends, without its newline, is not. *)
Example ollama_error_with_and_without_onError :
  snd (run Ollama Fixtures.failed_line
         (Sample.streaming [Fixtures.failed_json +:+ Str.LF] None)
         Sample.hello Sample.ollama_settings true)
  = [Error "Ollama stream error: boom"; Finish "error"]
  /\ snd (run Ollama Fixtures.failed_line
            (Sample.streaming [Fixtures.failed_json] None)
            Sample.hello Sample.ollama_settings true)
     = [Finish "error"].
Proof. vm_compute. done. Qed.

Section Anthropic.
Import AnthropicProvider.
Variable JSON_parse : string -> option AnthropicStreamEvent.

Lemma anthropic_processEvent_shape event (t : list Event) flow t' :
  processEvent JSON_parse legacy_recorder event t = (flow, t') ->
  exists evs,
    t' = t ++ evs
    /\ match flow with
       | Next => ongoing evs
       | Return => exists last, terminal last = true /\ evs = [last]
       end.
Proof.
  unfold processEvent. intros H.
  repeat case_match; simplify_eq/=.
  all: try (exists []; split; [by rewrite app_nil_r|constructor]).
  all: eexists; split; [reflexivity|].
  all: try (by repeat constructor).
  all: eexists; split; [|reflexivity]; done.
Qed.

Lemma anthropic_drain_shape fuel : forall buffer (t : list Event) flow buffer' t',
  drain JSON_parse legacy_recorder fuel buffer t = (flow, buffer', t') ->
  exists evs,
    t' = t ++ evs
    /\ match flow with
       | Next => ongoing evs
       | Return => exists last, terminal last = true /\ closed_by last evs
       end.
Proof.
  induction fuel as [|fuel IH]; intros buffer t flow buffer' t' H; simpl in H.
  - simplify_eq. exists []. split; [by rewrite app_nil_r|constructor].
  - destruct (Str.indexOf _ buffer) as [eventEndIndex|].
    2: { simplify_eq. exists []. split; [by rewrite app_nil_r|constructor]. }
    destruct (processEvent _ _ _ t) as [flow1 t1] eqn:Hevent.
    apply anthropic_processEvent_shape in Hevent as (evs1 & -> & Hevs1).
    destruct flow1.
    + apply IH in H as (evs2 & -> & Hevs2).
      exists (evs1 ++ evs2). split; [by rewrite app_assoc|].
      destruct flow; [by apply ongoing_app|].
      destruct Hevs2 as (last & Hlast & Hclosed).
      exists last. split; [done|by apply closed_by_app].
    + simplify_eq. exists evs1. split; [done|].
      destruct Hevs1 as (last & Hlast & ->).
      exists last. split; [done|]. apply (closed_by_one _ []). constructor.
Qed.

Lemma anthropic_readLoop_shape reads failure : forall buffer (t : list Event) result t',
  readLoop JSON_parse legacy_recorder reads failure buffer t = (result, t') ->
  exists evs,
    t' = t ++ evs
    /\ match result with
       | inl e => failure = Some e /\ ongoing evs
       | inr _ => exists last, terminal last = true /\ closed_by last evs
       end.
Proof.
  induction reads as [|value reads IH]; intros buffer t result t' H.
  - simpl in H. destruct failure; simplify_eq.
    + exists []. split; [by rewrite app_nil_r|]. split; [done|constructor].
    + eexists. split; [reflexivity|].
      eexists. split; [|apply (closed_by_one _ []); constructor]. done.
  - cbn [readLoop] in H.
    destruct (drain _ _ _ _ t) as [[flow1 buffer1] t1] eqn:Hdrain.
    apply anthropic_drain_shape in Hdrain as (evs1 & -> & Hevs1).
    destruct flow1; [|simplify_eq; by exists evs1].
    apply IH in H as (evs2 & -> & Hevs2).
    exists (evs1 ++ evs2). split; [by rewrite app_assoc|].
    destruct result.
    + destruct Hevs2. split; [done|by apply ongoing_app].
    + destruct Hevs2 as (last & Hlast & Hclosed).
      exists last. split; [done|by apply closed_by_app].
Qed.

End Anthropic.

(** X6. Every run of the Anthropic adapter ends with exactly one terminal
    callback, [onFinish] or [onError], and nothing is delivered after
    it: the end of the body without [message_stop] is reported too. *)
Theorem anthropic_one_terminal_callback json fetch messages settings abortController :
  let t := snd (run Anthropic json fetch messages settings abortController) in
  exists last, terminal last = true /\ closed_by last t.
Proof.
  assert (forall ev, terminal ev = true -> closed_by ev [ev]) as Hone.
  { intros ev _. apply (closed_by_one _ []). constructor. }
  assert (forall e t, ongoing t ->
            exists last, terminal last = true
                         /\ closed_by last (AnthropicProvider.catch legacy_recorder e t))
    as Hcatch.
  { intros e t Ht. unfold AnthropicProvider.catch. destruct (String.eqb _ _); simpl.
    - exists (Finish "aborted"). split; [done|by apply closed_by_one].
    - eexists (Error _). split; [done|by apply closed_by_one]. }
  simpl. unfold run, AnthropicProvider.generateResponse.
  repeat case_match; simpl; try (eexists; split; [|apply Hone]; done).
  all: try (apply (Hcatch _ []); constructor).
  all: match goal with
       | H : AnthropicProvider.readLoop _ _ _ _ _ _ = _ |- _ =>
           apply anthropic_readLoop_shape in H as (evs & -> & Hevs); simpl in *
       end.
  - apply Hcatch. by destruct Hevs.
  - done.
Qed.

Lemma openai_readLoop_rejecting JSON_parse reads e :
  forall buffer acc (t : list Event) result t',
  OpenAIProvider.readLoop JSON_parse recorder reads (Some e) buffer acc t = (result, t') ->
  exists evs,
    t' = t ++ evs
    /\ match result with
       | inl e' => e' = e /\ ongoing evs
       | inr _ => exists reason, closed_by (Finish reason) evs
       end.
Proof.
  induction reads as [|value reads IH]; intros buffer acc t result t' H.
  - simpl in H. simplify_eq. exists []. split; [by rewrite app_nil_r|].
    split; [done|constructor].
  - cbn [OpenAIProvider.readLoop] in H.
    destruct (OpenAIProvider.drain _ _ _ _ acc t) as [[[flow1 buffer1] acc1] t1] eqn:Hdrain.
    apply OpenAIStreamFacts.drain_shape in Hdrain as (evs1 & -> & Hevs1).
    destruct flow1; [|simplify_eq; by exists evs1].
    apply IH in H as (evs2 & -> & Hevs2).
    exists (evs1 ++ evs2). split; [by rewrite app_assoc|].
    destruct result.
    + destruct Hevs2. split; [done|by apply ongoing_app].
    + destruct Hevs2 as (reason & Hclosed). exists reason. by apply closed_by_app.
Qed.

(** X7. The OpenAI-compatible adapter, cancelled while the body
    streams in: with an endpoint and a model configured and a response
    that is [ok], when a read of the body rejects with an [AbortError]
    the run is closed by exactly one [onFinish], and [onError] is never
    invoked. *)
Theorem openai_abort_mid_stream json fetch messages settings abortController
    (response : Response) (reads : list string) (e : JS.Exn) :
  JS.truthy (effectiveEndpoint OpenAI settings) = true ->
  JS.truthy (effectiveModel OpenAI settings) = true ->
  (forall request, fetch request = Resolves response) ->
  ok response = true ->
  stream response = Some (mkBody reads (Some e)) ->
  JS.exn_name e = "AbortError" ->
  let t := snd (run OpenAI json fetch messages settings abortController) in
  (exists reason, closed_by (Finish reason) t)
  /\ Forall (fun ev => is_error ev = false) t.
Proof.
  intros Hendpoint Hmodel Hfetch Hok Hstream Habort.
  assert (forall reason t, closed_by (Finish reason) t ->
            Forall (fun ev => is_error ev = false) t) as Hclean.
  { intros reason t (pre & -> & Hpre). apply Forall_app. split; [|by repeat constructor].
    eapply Forall_impl; [exact Hpre|]. by intros []. }
  cut (exists reason,
         closed_by (Finish reason) (run OpenAI json fetch messages settings abortController).2).
  { intros [reason H]. split; [by exists reason|by eapply Hclean]. }
  unfold run, OpenAIProvider.generateResponse, OpenAIProvider.providerName.
  unfold effectiveEndpoint, effectiveModel in *.
  unfold JS.nonempty. rewrite Hendpoint, Hmodel.
  destruct (JS.or (apiEndpoint _) _) as [endpoint|]; [|done].
  destruct (JS.or (defaultModel _) _) as [model|]; [|done].
  rewrite Hfetch, Hok, Hstream. simpl.
  destruct (OpenAIProvider.readLoop _ _ _ _ _ _ _) as [[e'|[]] t] eqn:Hloop.
  all: apply openai_readLoop_rejecting in Hloop as (evs & -> & Hevs); simpl in *.
  - destruct Hevs as [-> Hevs]. unfold OpenAIProvider.catch. rewrite Habort. simpl.
    exists "aborted". by apply closed_by_one.
  - done.
Qed.

End StreamEnds.

(** ** What the Anthropic adapter sends *)

Module AnthropicFacts.
Import Net Trace AnthropicProvider Conversion Framing.

Lemma convert_spec (messages : list OpenAIMessage) :
  forall (anthropicMessages : list AnthropicMessage) (systemPrompt : option string),
  convert messages anthropicMessages systemPrompt
  = (anthropicMessages ++ omap kept messages,
     default systemPrompt (Some <$> last (omap prompt messages))).
Proof.
  induction messages as [|msg messages IH]; intros anthropicMessages systemPrompt.
  - simpl. by rewrite app_nil_r.
  - cbn [convert]. rewrite !omap_cons.
    assert (kept msg = match role msg with
                       | user | assistant =>
                           mkAnthropicMessage (role msg) <$> JS.nonempty (content msg)
                       | _ => None
                       end) as -> by done.
    assert (prompt msg = match role msg with
                         | system => JS.nonempty (content msg)
                         | _ => None
                         end) as -> by done.
    destruct (role msg).
    + rewrite IH. unfold JS.nonempty. destruct (content msg) as [c|]; [|done].
      destruct (JS.truthy (Some c)); [|done].
      rewrite last_cons. by destruct (last (omap prompt messages)).
    + destruct (JS.nonempty (content msg)); rewrite IH; simpl; [|done].
      by rewrite <- app_assoc.
    + destruct (JS.nonempty (content msg)); rewrite IH; simpl; [|done].
      by rewrite <- app_assoc.
    + by rewrite IH.
Qed.

Lemma convert_from_empty (messages : list OpenAIMessage) :
  convert messages [] None = (omap kept messages, last (omap prompt messages)).
Proof. rewrite convert_spec. simpl. by destruct (last _). Qed.

(** X8. [convertToAnthropicMessages] keeps the user and assistant entries
    with non-empty content, in transcript order and with their role, and
    drops all others; the system prompt is the content of the last system
    entry with non-empty content. *)
Theorem convertToAnthropicMessages_spec (messages : list OpenAIMessage) :
  convertToAnthropicMessages messages
  = (omap kept messages, last (omap prompt messages)).
Proof. unfold convertToAnthropicMessages. apply convert_from_empty. Qed.

Lemma kept_wellformed (messages : list OpenAIMessage) :
  Forall (fun m => (a_role m = user \/ a_role m = assistant) /\ a_text m <> "")
    (omap kept messages).
Proof.
  induction messages as [|msg messages IH]; [constructor|].
  rewrite omap_cons. unfold kept at 1.
  destruct (role msg) eqn:Hrole; try done.
  all: destruct (JS.nonempty (content msg)) as [c|] eqn:Hc; simpl; [|done].
  all: apply nonempty_Some in Hc as [_ Hc].
  all: constructor; [simpl; auto|done].
Qed.

(** X9. What the Anthropic adapter puts on the wire: every request it
    sends carries the configured, non-empty API key, a non-empty model,
    only user and assistant messages with non-empty text, and is never an
    empty conversation (no message and no system prompt); an empty system
    prompt is left out. *)
Theorem anthropic_request_wellformed json fetch messages settings abortController :
  Forall (fun request =>
            exists model msgs system_prompt key,
              body request = AnthropicRequest model msgs "4096" true "0.7" system_prompt
              /\ model <> ""
              /\ Forall (fun m => (a_role m = user \/ a_role m = assistant)
                                  /\ a_text m <> "") msgs
              /\ (msgs <> [] \/ is_Some system_prompt)
              /\ system_prompt <> Some ""
              /\ providerSettings settings anthropic ≫= apiKey = Some key
              /\ key <> ""
              /\ headers request
                 = [("Content-Type", "application/json"); ("x-api-key", key);
                    ("anthropic-version", "2023-06-01")])
    (fst (run Anthropic json fetch messages settings abortController)).
Proof.
  unfold run, generateResponse.
  destruct (JS.nonempty (apiKey _)) as [key|] eqn:Hkey; [|constructor].
  destruct (String.eqb_spec
              (JS.or_default
                 (defaultModel (default noProviderSettings
                                  (providerSettings settings providerName)))
                 "claude-3-haiku-20240307") "") as [|Hmodel]; [constructor|].
  unfold convertToAnthropicMessages. rewrite convert_from_empty.
  destruct (Nat.eqb _ 0 && _) eqn:Hempty; [constructor|].
  simpl. constructor; [|constructor].
  eexists _, _, _, key. split; [reflexivity|]. split; [done|].
  split; [apply kept_wellformed|].
  apply nonempty_Some in Hkey as [Hkey Hne].
  repeat split; try done.
  - apply andb_false_iff in Hempty as [Hlen|Hsys].
    + left. apply Nat.eqb_neq in Hlen. by destruct (omap kept messages).
    + right. apply negb_false_iff in Hsys. unfold JS.nonempty. rewrite Hsys.
      unfold JS.truthy in Hsys. by destruct (last _).
  - intros Hs. by apply nonempty_Some in Hs as [_ ?].
  - unfold providerName in *.
    by destruct (providerSettings settings anthropic).
Qed.

End AnthropicFacts.

(** ** The tools of the later [LocalToolService] *)

Module ToolFacts.
Import LocalToolService ToolEffects.

Lemma registered_app name (l1 l2 : list McpTool) :
  registered name (l1 ++ l2) = registered name l1 || registered name l2.
Proof. apply existsb_app. Qed.

Section AddTool.







End AddTool.

Section Tools.
Variable app : App.
Variable toLowerCase : string -> string.
Variable JSON_stringify : list (string * string) -> string.

(** X12. [readFile] answers with the text of a file exactly when the path
    is given and not empty, names a file and not a folder, and the read
    succeeds; it then has no effect on the host. *)
Theorem readFile_succeeds_iff (path : option string) (text : string) effects :
  readFile app path = (succeeded text, effects)
  <-> exists p, path = Some p /\ p <> ""
                /\ getAbstractFileByPath app p = Some TFile
                /\ read app p = inr text /\ effects = [].
Proof.
  unfold readFile. split.
  - destruct (JS.nonempty path) as [p|] eqn:Hp; [|done].
    apply Framing.nonempty_Some in Hp as [-> Hp].
    destruct (getAbstractFileByPath app p) as [[]|] eqn:Hfile; try done.
    destruct (read app p) as [e|content] eqn:Hread; [done|].
    intros [= -> <-]. by exists p.
  - intros (p & -> & Hp & Hfile & Hread & ->).
    unfold JS.nonempty, JS.truthy. apply String.eqb_neq in Hp. rewrite Hp. simpl.
    by rewrite Hfile, Hread.
Qed.

(** X13. [writeFile] reports what it did: when it answers with success
    the given content was written to the given path exactly once, by
    [create] or by [modify], and nothing was written when it answers with
    an error; a folder is created at most once and before the file. *)
Theorem writeFile_reports_what_it_did (path content : option string) :
  let '(result, effects) := writeFile app path content in
  if isError result
  then filter (fun e => writes e = true) effects = []
  else exists p c,
         path = Some p /\ content = Some c
         /\ (effects = [Modify p c] \/ effects = [Create p c]
             \/ exists parentPath, effects = [CreateFolder parentPath; Create p c]).
Proof.
  unfold writeFile.
  repeat case_match; simplify_eq/=; try done.
  all: match goal with
       | H : JS.nonempty _ = Some _ |- _ =>
           apply Framing.nonempty_Some in H as [-> _]
       end.
  all: eexists _, _; split; [reflexivity|split; [reflexivity|]]; eauto.
Qed.

(** X14. What the loop of [searchNotes] returns: the hits are appended
    to the results, never more than the limit allows, in the order of the
    vault's files, and each hit is a file whose text contains the query;
    while the limit is not reached, no file that contains the query is
    left out. *)
Theorem searchLoop_results (query : string) (limit : nat) (files : list string) :
  forall searchResults : list (string * string),
  match searchLoop app toLowerCase query limit files searchResults with
  | inl _ => True
  | inr results =>
      exists found,
        results = searchResults ++ found
        /\ length results <= limit `max` length searchResults
        /\ fst <$> found `sublist_of` files
        /\ Forall (fun hit => matches app toLowerCase query hit.1) found
        /\ (length results < limit ->
            forall file, file ∈ files -> matches app toLowerCase query file ->
                         file ∈ fst <$> found)
  end.
Proof.
  induction files as [|file files IH]; intros searchResults.
  - simpl. exists []. rewrite app_nil_r.
    split; [done|]. split; [lia|]. split; [done|]. split; [constructor|].
    intros _ file Hin. by apply elem_of_nil in Hin.
  - cbn [searchLoop]. destruct (Nat.leb_spec limit (length searchResults)) as [Hfull|Hroom].
    { exists []. rewrite app_nil_r.
      split; [done|]. split; [lia|]. split; [apply sublist_nil_l|].
      split; [constructor|lia]. }
    destruct (cachedRead app file) as [e|fileContent] eqn:Hread; [done|].
    destruct (Str.indexOf _ (toLowerCase fileContent)) as [queryIndex|] eqn:Hfound.
    + match goal with
      | |- context [searchLoop _ _ _ _ _ (searchResults ++ [?h])] =>
          specialize (IH (searchResults ++ [h])); set (hit := h) in *
      end.
      destruct (searchLoop _ _ _ _ _ _) as [e|results]; [done|].
      destruct IH as (found & -> & Hlen & Hsub & Hall & Hcomplete).
      exists (hit :: found). rewrite <- app_assoc. split; [done|].
      rewrite !length_app in *. simpl in *. split; [lia|].
      split; [by apply sublist_skip|]. split.
      * constructor; [|done]. exists fileContent. by rewrite Hfound.
      * intros Hlt file' [->|Hin]%elem_of_cons Hmatch; [apply elem_of_cons; by left|].
        apply elem_of_cons. right. apply Hcomplete; [lia|done..].
    + specialize (IH searchResults).
      destruct (searchLoop _ _ _ _ _ _) as [e|results]; [done|].
      destruct IH as (found & -> & Hlen & Hsub & Hall & Hcomplete).
      exists found. split; [done|]. split; [done|].
      split; [by apply sublist_cons|]. split; [done|].
      intros Hlt file' [->|Hin]%elem_of_cons Hmatch; [|by apply Hcomplete].
      destruct Hmatch as (fileContent' & Hread' & Hsome).
      rewrite Hread in Hread'. simplify_eq. rewrite Hfound in Hsome.
      by destruct Hsome.
Qed.

Lemma builtin_effects (toolName : string) (args : Args) result effects :
  builtin app toLowerCase JSON_stringify toolName args = Some (result, effects) ->
  Forall (fun e => on_commands e = false) effects.
Proof.
  unfold builtin, readFile, writeFile, searchNotes.
  intros H. repeat case_match; simplify_eq/=; by repeat constructor.
Qed.

Lemma executeTool_builtin service toolName args :
  find (fun cmd => String.eqb (command_id cmd) toolName) (listCommands app) = None ->
  executeTool app toLowerCase JSON_stringify service toolName args
  = match builtin app toLowerCase JSON_stringify toolName args with
    | Some (result, effects) => (result, service, effects)
    | None => (failed ("Local tool '" +:+ toolName +:+ "' not found."), service, [])
    end.
Proof.
  intros Hnone. unfold executeTool, builtin. rewrite Hnone.
  repeat case_match; simplify_eq/=; congruence.
Qed.

(** X15. What [executeTool] may change: the list of tools is left as it
    is, and of the command cache at most the entry of the executed name;
    the cache is written to disk only as it then stands.  A name that is
    not the id of a host command leaves the service as it is, writes
    no cache and runs no host command, while the id of a host command
    runs that command, and no other, before anything else. *)
Theorem executeTool_frame (service : Service) (toolName : string) (args : Args) :
  let '(result, service', effects) :=
    executeTool app toLowerCase JSON_stringify service toolName args in
  localTools service' = localTools service
  /\ (forall id, id <> toolName ->
                 commandMcpCache service' !! id = commandMcpCache service !! id)
  /\ (forall cache, SaveCommandMcpCacheToFile cache ∈ effects ->
                    cache = commandMcpCache service')
  /\ (forall id, ExecuteCommandById id ∈ effects -> id = toolName)
  /\ if bool_decide (toolName ∈ command_id <$> listCommands app)
     then head effects = Some (ExecuteCommandById toolName)
     else service' = service
          /\ Forall (fun e => on_commands e = false) effects.
Proof.
  destruct (find (fun cmd => String.eqb (command_id cmd) toolName) (listCommands app))
    as [cmd|] eqn:Hfind.
  - assert (toolName ∈ command_id <$> listCommands app) as Hin.
    { apply find_some in Hfind as [Hin Heq]. apply String.eqb_eq in Heq as <-.
      apply list_elem_of_fmap. exists cmd. split; [done|]. by apply list_elem_of_In. }
    rewrite bool_decide_eq_true_2 by done.
    unfold executeTool. rewrite Hfind.
    destruct (executeCommandById app toolName);
      destruct (find _ (localTools service)); simpl.
    all: repeat split; try done.
    all: try (intros id Hne; by rewrite lookup_insert_ne).
    all: intros x Hx.
    all: repeat first [ apply elem_of_app in Hx as [Hx|Hx]
                      | apply elem_of_cons in Hx as [Hx|Hx]
                      | apply elem_of_nil in Hx as [] ].
    all: by simplify_eq.
  - assert (toolName ∉ command_id <$> listCommands app) as Hnot.
    { intros (cmd & -> & Hin)%list_elem_of_fmap.
      eapply find_none in Hfind; [|by apply list_elem_of_In].
      by rewrite String.eqb_refl in Hfind. }
    rewrite bool_decide_eq_false_2 by done.
    rewrite executeTool_builtin by done.
    destruct (builtin _ _ _ toolName args) as [[result effects]|] eqn:Hb.
    + apply builtin_effects in Hb.
      repeat split; try done.
      all: intros x Hx; rewrite Forall_forall in Hb; by apply Hb in Hx.
    + repeat split; try done.
      all: intros x Hx; by apply elem_of_nil in Hx.
Qed.

End Tools.

End ToolFacts.

(** ** The adapter acts through the callbacks only *)

Module CallbackInvariants.
Import Net.

Section OpenAI.
Import OpenAIProvider.
Context {S : Type} (JSON_parse : string -> option StreamChunk)
  (fetch : Request -> FetchResult) (callbacks : StreamCallbacks S).
Variable P : S -> Prop.
Hypothesis P_onUpdate : forall chunk isFinal s, P s -> P (onUpdate callbacks chunk isFinal s).
Hypothesis P_onToolCall : forall f toolCalls s,
  onToolCall callbacks = Some f -> P s -> P (f toolCalls s).1.
Hypothesis P_onError : forall errorMsg s, P s -> P (onError callbacks errorMsg s).
Hypothesis P_onFinish : forall reason s, P s -> P (onFinish callbacks reason s).

Lemma openai_processChunk_invariant chunk acc s :
  P s -> P (processChunk JSON_parse callbacks chunk acc s).2.
Proof.
  intros Hs. unfold processChunk.
  destruct (Str.startsWith _ _); [|done].
  destruct (String.eqb _ _); [done|].
  destruct (JSON_parse _) as [parsed|]; [|done].
  destruct (choices parsed) as [[|choice others]|]; [done| |done].
  match goal with
  | |- context [match finish_reason choice with
                | Some _ => _ | None => (Next, ?acc1, ?s1) end] =>
      assert (P s1) as Hs1 by (repeat case_match; auto);
      generalize dependent s1; generalize acc1
  end.
  intros acc1 s1 Hs1.
  destruct (finish_reason choice) as [reason|]; [|done].
  destruct (JS.truthy (Some reason)); [|done].
  destruct (String.eqb reason "tool_calls"); [|simpl; auto].
  destruct (onToolCall callbacks) as [f|] eqn:Hf; [|simpl; auto].
  pose proof (P_onToolCall f (Accumulator.completed acc1) s1 eq_refl Hs1) as Hcall.
  destruct (f _ s1) as [s2 [e|]]; simpl in *; auto.
Qed.

Lemma openai_drain_invariant fuel : forall buffer acc s,
  P s -> P (drain JSON_parse callbacks fuel buffer acc s).2.
Proof.
  induction fuel as [|fuel IH]; intros buffer acc s Hs; [done|].
  simpl. destruct (Str.indexOf _ buffer) as [boundary|]; [|done].
  pose proof (openai_processChunk_invariant (Str.substring_to boundary buffer) acc s Hs)
    as Hchunk.
  destruct (processChunk _ _ _ acc s) as [[[] acc1] s1]; simpl in *; auto.
Qed.

Lemma openai_readLoop_invariant reads failure : forall buffer acc s,
  P s -> P (readLoop JSON_parse callbacks reads failure buffer acc s).2.
Proof.
  induction reads as [|value reads IH]; intros buffer acc s Hs.
  - simpl. by destruct failure.
  - cbn [readLoop].
    pose proof (openai_drain_invariant (Datatypes.S (String.length (buffer +:+ value)))
                  (buffer +:+ value) acc s Hs) as Hdrain.
    destruct (drain _ _ _ _ acc s) as [[[[] buffer1] acc1] s1]; simpl in *; auto.
Qed.

Lemma openai_catch_invariant e s : P s -> P (catch callbacks e s).
Proof. unfold catch. case_match; auto. Qed.

(** The adapter acts on the state of the callbacks' owner through the
    callbacks only: what they all preserve holds after the call. *)
Lemma openai_generateResponse_invariant messages settings abortController s :
  P s ->
  P (generateResponse JSON_parse fetch callbacks messages settings abortController s).2.
Proof.
  intros Hs. unfold generateResponse.
  repeat case_match; simpl; auto using openai_catch_invariant.
  all: match goal with
       | H : readLoop _ _ ?r ?f ?b ?a ?s0 = (_, ?s1) |- _ =>
           pose proof (openai_readLoop_invariant r f b a s0 Hs) as Hloop;
           rewrite H in Hloop; simpl in Hloop
       end.
  all: auto using openai_catch_invariant.
Qed.

End OpenAI.

Section Quiet.
Import OpenAIProvider.
Context {S : Type} (JSON_parse : string -> option StreamChunk)
  (callbacks : StreamCallbacks S).
Variable Q : S -> Prop.
Hypothesis no_finish_reason : forall text parsed choice others,
  JSON_parse text = Some parsed -> choices parsed = Some (choice :: others) ->
  JS.truthy (finish_reason choice) = false.
Hypothesis Q_onUpdate : forall chunk s, Q s -> Q (onUpdate callbacks chunk false s).




End Quiet.
End CallbackInvariants.

(** ** The transcript over a turn *)

Module TranscriptFacts.
Import LocalToolService Core.

Section Turn.
Variable app : App.
Variable toLowerCase : string -> string.
Variable JSON_stringify : list (string * string) -> string.
Variable JSON_parse : string -> JS.Exn + Args.
Variable JSON_stringify_pretty : Args -> string.
Variable startStreamingResponse : list ViewEvent -> option MessageEl.
Variable settings : ObsigentPluginSettings.
Variable parse_chunk : string -> option OpenAIProvider.StreamChunk.
Variable fetch : Net.Request -> Net.FetchResult.

Lemma runToolCalls_chatHistory (toolCalls : list OpenAIToolCall) :
  forall (toolResultMessages : list OpenAIMessage) (st : State),
  chatHistory
    (runToolCalls app toLowerCase JSON_stringify JSON_parse JSON_stringify_pretty
       toolCalls toolResultMessages st).1.1
  = chatHistory st.
Proof.
  induction toolCalls as [|toolCall toolCalls IH]; intros msgs st; [done|].
  cbn [runToolCalls].
  destruct (JSON_parse _) as [e|toolArgs]; [done|].
  cbn zeta. destruct (find _ _) as [localTool|].
  - destruct (executeTool _ _ _ _ _ toolArgs) as [[result service] effects].
    rewrite IH. by destruct (isError result).
  - by rewrite IH.
Qed.

Lemma onToolCall_prefix (toolCalls : list OpenAIToolCall) (st : State) :
  chatHistory st `prefix_of`
  chatHistory (onToolCall app toLowerCase JSON_stringify JSON_parse JSON_stringify_pretty
                 toolCalls st).1.
Proof.
  unfold onToolCall. destruct toolCalls as [|toolCall toolCalls]; [done|].
  pose proof (runToolCalls_chatHistory (toolCall :: toolCalls) [] st) as Hrun.
  destruct (runToolCalls _ _ _ _ _ _ _ _) as [[st1 msgs] [e|]]; simpl in *.
  - by rewrite Hrun.
  - rewrite Hrun. by apply prefix_app_r.
Qed.

Lemma generate_prefix (el : MessageEl) (old : list OpenAIMessage) tools prefix
    abortController (st : State) :
  tools = None
  \/ tools = Some (onToolCall app toLowerCase JSON_stringify JSON_parse
                     JSON_stringify_pretty) ->
  old `prefix_of` chatHistory st ->
  old `prefix_of`
  chatHistory
    (generate settings (OpenAIProvider.generateResponse parse_chunk fetch)
       (mkCallbacks (onUpdate (Some el)) tools (onError prefix) onFinish)
       abortController st).
Proof.
  intros Htools Hold. unfold generate.
  pose proof (CallbackInvariants.openai_generateResponse_invariant parse_chunk fetch
                (mkCallbacks (onUpdate (Some el)) tools (onError prefix) onFinish)
                (fun st => old `prefix_of` chatHistory st)) as Hinv.
  match goal with
  | |- context [OpenAIProvider.generateResponse _ _ _ ?m ?s ?a ?st0] =>
      specialize (fun H1 H2 H3 H4 => Hinv H1 H2 H3 H4 m s a st0 Hold)
  end.
  destruct (OpenAIProvider.generateResponse _ _ _ _ _ _ _) as [sent st']. simpl in *.
  apply Hinv; clear Hinv.
  - intros chunk [] s Hs; simpl; [|done]. etrans; [exact Hs|by apply prefix_app_r].
  - intros f toolCalls s Hf Hs. simpl in Hf.
    destruct Htools as [->| ->]; simplify_eq.
    etrans; [exact Hs|apply onToolCall_prefix].
  - done.
  - done.
Qed.

Lemma continueGenerationWithTools_prefix (old : list OpenAIMessage) abortController
    (st : State) :
  old `prefix_of` chatHistory st ->
  old `prefix_of`
  chatHistory
    (continueGenerationWithTools startStreamingResponse settings
       (OpenAIProvider.generateResponse parse_chunk fetch) abortController st).
Proof.
  intros Hold. unfold continueGenerationWithTools.
  destruct (startStreamingResponse (chatView st)) as [el|].
  - apply generate_prefix; [by left|done].
  - simpl. etrans; [exact Hold|by apply prefix_app_r].
Qed.

Lemma settle_prefix (old : list OpenAIMessage) abortController (st : State) :
  old `prefix_of` chatHistory st ->
  old `prefix_of`
  chatHistory
    (settle startStreamingResponse settings
       (OpenAIProvider.generateResponse parse_chunk fetch) abortController st).
Proof.
  intros Hold. unfold settle.
  induction (continuations st) as [|n IH]; [done|].
  simpl. by apply continueGenerationWithTools_prefix.
Qed.

(** X17. A user turn against the OpenAI-compatible adapter only ever
    appends to the transcript: whatever the network answers and whatever
    the tools do, the transcript after the turn starts with the transcript
    before it, followed by the user's entry. *)
Theorem transcript_is_append_only (messageText : string) (abortController : bool)
    (st : State) :
  chatHistory st ++ [mkMessage user (Some messageText) None None]
  `prefix_of`
  chatHistory
    (handleUserMessage app toLowerCase JSON_stringify JSON_parse JSON_stringify_pretty
       startStreamingResponse settings
       (OpenAIProvider.generateResponse parse_chunk fetch)
       messageText abortController st).
Proof.
  unfold handleUserMessage.
  destruct (startStreamingResponse _) as [el|].
  - apply settle_prefix, generate_prefix; [by right|done].
  - simpl. by apply prefix_app_r.
Qed.

(** X16. With arguments that are JSON, [onToolCall] appends exactly one
    tool entry per call of the batch, in the order of the calls and each
    with the id of its call, after everything that was in the transcript,
    and starts one follow-up generation for the whole batch. *)
Theorem onToolCall_one_entry_per_call (toolCalls : list OpenAIToolCall) (st : State) :
  toolCalls <> [] ->
  Forall (fun tc => exists args, JSON_parse (arguments (function tc)) = inr args) toolCalls ->
  exists st' entries,
    onToolCall app toLowerCase JSON_stringify JSON_parse JSON_stringify_pretty toolCalls st
    = (st', None)
    /\ chatHistory st' = chatHistory st ++ entries
    /\ Forall2 (fun tc m => role m = tool /\ tool_call_id m = Some (id tc)
                            /\ is_Some (content m) /\ tool_calls m = None)
         toolCalls entries
    /\ continuations st' = Datatypes.S (continuations st)
    /\ requests st' = requests st.
Proof.
  intros Hne Hparse.
  assert (forall toolCalls msgs st,
            Forall (fun m => role m = tool /\ is_Some (content m) /\ tool_calls m = None) msgs ->
            Forall (fun m => role m = tool /\ is_Some (content m) /\ tool_calls m = None)
              (runToolCalls app toLowerCase JSON_stringify JSON_parse
                 JSON_stringify_pretty toolCalls msgs st).1.2) as Hshape.
  { clear. induction toolCalls as [|toolCall toolCalls IH]; intros msgs st Hmsgs; [done|].
    cbn [runToolCalls]. destruct (JSON_parse _) as [e|toolArgs]; [done|].
    cbn zeta. destruct (find _ _) as [localTool|].
    - destruct (executeTool _ _ _ _ _ toolArgs) as [[result service] effects].
      apply IH. apply Forall_app. split; [done|].
      repeat constructor; by eexists.
    - apply IH. apply Forall_app. split; [done|].
      repeat constructor; by eexists. }
  destruct (CoreFacts.runToolCalls_entries app toLowerCase JSON_stringify JSON_parse
              JSON_stringify_pretty toolCalls [] st Hparse)
    as (st1 & entries & Hrun & Hall & Hh & Hl & Hc & Hr).
  specialize (Hshape toolCalls [] st ltac:(constructor)). rewrite Hrun in Hshape.
  simpl in Hshape.
  unfold onToolCall. destruct toolCalls as [|tc0 tcs] eqn:E; [done|].
  rewrite <- E in *. rewrite Hrun. simpl.
  eexists _, entries. split; [reflexivity|]. simpl.
  split; [by rewrite Hh|]. split; [|by rewrite Hc, Hr].
  clear -Hall Hshape. induction Hall as [|tc m tcs ms (? & ? & _) Hall IH]; [constructor|].
  apply Forall_cons in Hshape as [(? & ? & ?) Hshape].
  constructor; [done|by apply IH].
Qed.


End Turn.
End TranscriptFacts.

(** ** Completed tool calls stay complete *)

Module AccumulatorMonotone.
Import Accumulator AccumulatorFacts.

Lemma truthy_append (s t : string) :
  JS.truthy (Some s) = true -> JS.truthy (Some (s +:+ t)) = true.
Proof. unfold JS.truthy. by destruct s. Qed.

Lemma merge_complete (tc : OpenAIToolCall) (tcChunk : ToolCallChunk) :
  complete tc = true -> complete (merge tc tcChunk) = true.
Proof.
  unfold complete. intros [[Hid Hname]%andb_true_iff Hargs]%andb_true_iff.
  rewrite AccumulatorFields.merge_id, AccumulatorFields.merge_name,
    AccumulatorFields.merge_arguments.
  rewrite !andb_true_iff. repeat split.
  - unfold id_part. destruct (JS.truthy (chunk_id tcChunk)) eqn:E; [|done].
    by destruct (chunk_id tcChunk).
  - by apply truthy_append.
  - by apply truthy_append.
Qed.

(** X10. A tool call that is complete stays complete: once the record at
    an index has an id, a name and arguments, no later fragment, for
    this index or another, takes one of them away or removes the record. *)
Theorem complete_is_stable (l : list ToolCallChunk) :
  forall (acc : list (option OpenAIToolCall)) (i : nat) (tc : OpenAIToolCall),
  get acc i = Some tc -> complete tc = true ->
  exists tc', get (accumulate_all acc l) i = Some tc' /\ complete tc' = true.
Proof.
  induction l as [|c l IH]; intros acc i tc Hget Hcomplete; [by exists tc|].
  unfold accumulate_all in *. simpl.
  destruct (decide (chunk_index c = i)) as [<-|Hne].
  - apply (IH _ _ (merge tc c)); [|by apply merge_complete].
    unfold accumulate. rewrite Hget, Hget. apply get_set_eq.
  - apply (IH _ _ tc); [|done].
    rewrite get_accumulate. by rewrite decide_False.
Qed.

End AccumulatorMonotone.

(** ** The earlier orchestrator, cancelled *)

Module LegacyTurnFacts.
Import Net LocalToolService LegacyCore.

Section Quiet.
Import OllamaProvider.
Context {S : Type} (JSON_parse : string -> option OllamaChatStreamResponse)
  (callbacks : Legacy.StreamCallbacks S).
Variable Q : S -> Prop.
Hypothesis not_done : forall line parsed,
  JSON_parse line = Some parsed ->
  done parsed = false /\ JS.truthy (line_error parsed) = false.
Hypothesis Q_onContent : forall chunk s, Q s -> Q (Legacy.onContent callbacks chunk false s).




End Quiet.

Section Turn.
Variable toLowerCase : string -> string.
Variable JSON_parse : string -> JS.Exn + option Args.
Variable JSON_stringify_error : string -> string.
Variable JSON_stringify_error_pretty : string -> string.
Variable JSON_stringify_pretty : option Args -> string.
Variable executeTool : string -> option Args -> JS.Exn + ToolExecutionResult.
Variable displayMessage : list ViewEvent -> option MessageEl.
Variable settings : ObsigentPluginSettings.
Variable parse_line : string -> option OllamaProvider.OllamaChatStreamResponse.
Variable fetch : Request -> FetchResult.


End Turn.
End LegacyTurnFacts.

(** ** Generation flags and the choice of the provider *)

Module CommandGenerationFacts.
Import CommandGeneration.

Lemma after_snoc (ops : list (string * bool)) (op : string * bool) :
  after (ops ++ [op]) = setCommandGenerationInProgress (after ops) op.1 op.2.
Proof. unfold after. by rewrite foldl_app. Qed.

Lemma lastSet_snoc (commandId : string) (ops : list (string * bool)) (op : string * bool) :
  lastSet commandId (ops ++ [op])
  = if decide (op.1 = commandId) then Some op.2 else lastSet commandId ops.
Proof.
  unfold lastSet. rewrite omap_app. simpl.
  case_decide; [by rewrite last_snoc|by rewrite app_nil_r].
Qed.

(** The own properties of the record: a key is there, with [true], when
    the last call for it raised the flag, and ["__proto__"] never is. *)
Lemma after_lookup (ops : list (string * bool)) (commandId : string) :
  after ops !! commandId
  = match lastSet commandId ops with
    | Some true => if String.eqb commandId "__proto__" then None else Some true
    | _ => None
    end.
Proof.
  induction ops as [|[k b] ops IH] using rev_ind; [done|].
  rewrite after_snoc, lastSet_snoc. simpl.
  unfold setCommandGenerationInProgress.
  case_decide as Hk; [subst k|].
  - destruct b.
    + destruct (String.eqb commandId "__proto__") eqn:Hproto.
      * rewrite IH. by destruct (lastSet commandId ops) as [[]|].
      * by rewrite lookup_insert_eq.
    + by rewrite lookup_delete_eq.
  - destruct b.
    + destruct (String.eqb k "__proto__"); [done|].
      by rewrite lookup_insert_ne.
    + by rewrite lookup_delete_ne.
Qed.

(** X22. The per-command generation flags, from the empty record the
    field starts with: after any calls of
    [setCommandGenerationInProgress] the flag of a command reads what the
    last call for it has set, and [false] when there was none, unless its
    id names a property of [Object.prototype], such as ["constructor"]:
    such a flag reads [true] whatever was set.  Clearing a flag removes
    its key, so that raising and clearing the flag of a command that had
    no key leaves the record as it was. *)
Theorem generation_flag_round_trip (ops : list (string * bool)) (commandId : string) :
  isCommandGenerationInProgress (after ops) commandId
  = inherited commandId || default false (lastSet commandId ops)
  /\ forall status : gmap string bool,
       status !! commandId = None ->
       setCommandGenerationInProgress
         (setCommandGenerationInProgress status commandId true) commandId false
       = status.
Proof.
  split.
  - unfold isCommandGenerationInProgress. rewrite after_lookup.
    destruct (lastSet commandId ops) as [[]|]; simpl.
    + rewrite orb_true_r. destruct (String.eqb commandId "__proto__") eqn:Hproto; [|done].
      by apply String.eqb_eq in Hproto as ->.
    + by rewrite orb_false_r.
    + by rewrite orb_false_r.
  - intros status Hnone. unfold setCommandGenerationInProgress.
    destruct (String.eqb commandId "__proto__"); [by apply delete_id|].
    rewrite delete_insert_eq. by apply delete_id.
Qed.

(** The flag of a command called ["constructor"] cannot be cleared, and
    an ordinary flag can. *)
Example constructor_flag_reads_true :
  isCommandGenerationInProgress
    (after [("constructor", true); ("constructor", false)]) "constructor" = true
  /\ isCommandGenerationInProgress
       (after [("editor:save-file", true); ("editor:save-file", false)])
       "editor:save-file" = false.
Proof. vm_compute. done. Qed.

End CommandGenerationFacts.

Module ProviderSelectionFacts.
Import ProviderSelection Trace.

(** X23. After [ensureLLMProviderReady] a provider is set.  It is unusable
    ([getActiveLLMProvider] gives [null]) exactly when the notice was
    raised, which is exactly when no usable provider was there before and
    the settings select Google or Cohere; an unusable provider sends no
    request and reports one error.  A usable provider that was there
    before is kept, whatever the settings select now. *)
Theorem ensureLLMProviderReady_spec (settings : ObsigentPluginSettings)
    (activeLLMProvider : option ActiveProvider) :
  let '(provider, notices) := ensureLLMProviderReady settings activeLLMProvider in
  exists p,
    provider = Some p
    /\ (getActiveLLMProvider provider = None <-> notices <> [])
    /\ (notices <> [] <->
        getActiveLLMProvider activeLLMProvider = None
        /\ (selectedProvider settings = google \/ selectedProvider settings = cohere))
    /\ (getActiveLLMProvider provider = None ->
        forall json fetch messages abortController,
        exists errorMsg,
          generateResponse p json fetch messages settings abortController
          = ([], [Error errorMsg]))
    /\ (getActiveLLMProvider activeLLMProvider <> None -> provider = activeLLMProvider).
Proof.
  unfold ensureLLMProviderReady, getActiveLLMProvider.
  destruct (notReady activeLLMProvider) eqn:Hready.
  - unfold updateActiveLLMProvider.
    destruct (selectedProvider settings) eqn:Hsel; simpl.
    all: eexists; split; [reflexivity|]; simpl.
    all: repeat split; try done; try (intros; by eexists).
    all: try (intros [_ [?|?]]; congruence).
    all: try (intros; split; [done|auto]).
    all: auto.
  - destruct activeLLMProvider as [p|]; [|done]. simpl in Hready.
    exists p. simpl. rewrite Hready. repeat split; try done.
    by intros [? _].
Qed.

(** X24. The checks of [handleUserMessage] and the checks of the adapters:
    for Ollama the two agree, a request is sent exactly when no field is
    reported missing; for Anthropic and for the OpenAI-compatible adapter
    a configuration without missing field can still be refused by the
    adapter, but only for what [handleUserMessage] does not look at, an
    empty conversation and a missing endpoint; for the providers without
    adapter nothing is ever reported missing. *)
Theorem missingFields_and_adapter_checks (settings : ObsigentPluginSettings)
    (json : JSON) (fetch : Net.Request -> Net.FetchResult)
    (messages : list OpenAIMessage) (abortController : bool) :
  match selectedProvider settings with
  | ollama =>
      missingFields settings = []
      <-> exists request,
            (run Ollama json fetch messages settings abortController).1 = [request]
  | anthropic =>
      missingFields settings = [] ->
      (exists request,
         (run Anthropic json fetch messages settings abortController).1 = [request])
      \/ run Anthropic json fetch messages settings abortController
         = ([], [Error "No messages to send to Anthropic."])
  | openai =>
      missingFields settings = [] ->
      (exists request,
         (run OpenAI json fetch messages settings abortController).1 = [request])
      \/ run OpenAI json fetch messages settings abortController
         = ([], [Error "OpenAI API endpoint is not set. Please configure it in settings."])
  | google | cohere => missingFields settings = []
  end.
Proof.
  unfold missingFields.
  destruct (selectedProvider settings) eqn:Hsel; try done.
  - (* openai *)
    unfold run, OpenAIProvider.generateResponse, OpenAIProvider.providerName.
    destruct (providerSettings settings openai) as [ps|]; simpl; [|done].
    destruct (JS.truthy (defaultModel ps)) eqn:Hmodel; [|done]. intros _.
    unfold JS.or at 2. rewrite Hmodel. unfold JS.nonempty at 2. rewrite Hmodel.
    destruct (defaultModel ps) as [model|]; [|done].
    destruct (JS.nonempty _) as [endpoint|]; [left; by eexists|by right].
  - (* anthropic *)
    unfold run, AnthropicProvider.generateResponse, AnthropicProvider.providerName.
    destruct (providerSettings settings anthropic) as [ps|]; simpl; [|done].
    destruct (JS.truthy (apiKey ps)) eqn:Hkey; [|done].
    destruct (JS.truthy (defaultModel ps)) eqn:Hmodel; [|done]. intros _.
    unfold JS.nonempty. rewrite Hkey.
    destruct (apiKey ps) as [key|]; [|done].
    destruct (defaultModel ps) as [model|]; [|done]. simpl.
    unfold JS.truthy in Hmodel. apply negb_true_iff in Hmodel. rewrite Hmodel, Hmodel.
    destruct (AnthropicProvider.convertToAnthropicMessages messages) as [msgs sys].
    destruct (_ && _); [by right|left; by eexists].
  - (* ollama *)
    unfold run, OllamaProvider.generateResponse, OllamaProvider.providerName.
    destruct (providerSettings settings ollama) as [ps|]; simpl.
    2: { split; [done|]. by intros [? ?]. }
    unfold JS.nonempty.
    destruct (JS.truthy (defaultModel ps)) eqn:Hmodel;
      destruct (JS.truthy (apiEndpoint ps)) eqn:Hendpoint; simpl.
    all: try (split; [done|]; repeat case_match; by intros [? ?]).
    destruct (apiEndpoint ps), (defaultModel ps); try done.
    split; [by eexists|done].
Qed.

End ProviderSelectionFacts.

(** ** The two generations of the vault tools *)

Module LegacyToolFacts.
Import LocalToolService ToolEffects.

Section Tools.
Variable app : App.
Variable toLowerCase : string -> string.
Variable JSON_stringify : list (string * string) -> string.

(** X25. The two generations of [readFile] agree: the earlier one answers
    with a text exactly when the later one succeeds, and with the same
    text; where one reports an error so does the other. *)
Theorem readFile_generations_agree (path : option string) :
  match LegacyLocalToolService.readFile app path with
  | LegacyLocalToolService.Result result =>
      exists text,
        result = LegacyLocalToolService.Text text
        /\ readFile app path = (succeeded text, [])
  | LegacyLocalToolService.Error _ => isError (readFile app path).1 = true
  end.
Proof.
  unfold LegacyLocalToolService.readFile, readFile.
  repeat case_match; simplify_eq/=; try done. by eexists.
Qed.

(** X26. The two generations of [writeFile]: whenever the earlier one
    reports an error, so does the later one; when the earlier one has
    written, the later one has done the same to the vault and reports
    success, unless the path is empty or the creation of the parent
    folder failed, which only the later one takes for an error. *)
Theorem writeFile_generations_compared (path content : option string) :
  let '(outcome, effects) := LegacyLocalToolService.writeFile app path content in
  let '(result, effects') := writeFile app path content in
  match outcome with
  | LegacyLocalToolService.Result _ =>
      (isError result = false /\ effects' = effects)
      \/ (isError result = true
          /\ (path = Some "" \/ exists parentDir e, createFolder app parentDir = inl e))
  | LegacyLocalToolService.Error _ =>
      isError result = true /\ filter (fun e => writes e = true) effects = []
  end.
Proof.
  unfold LegacyLocalToolService.writeFile, writeFile.
  destruct path as [path|]; [|done].
  destruct content as [content|].
  2: { destruct (JS.nonempty (Some path)); simpl; by split. }
  unfold JS.nonempty, JS.truthy.
  destruct (String.eqb_spec path "") as [->|Hpath]; simpl.
  { repeat case_match; simplify_eq/=; try done; right; eauto. }
  destruct (getAbstractFileByPath app path) as [[]|].
  - destruct (modify app path content); simpl; auto.
  - done.
  - destruct (negb _ && negb _).
    + destruct (createFolder app _) as [e|] eqn:Hfolder;
        destruct (create app path content); simpl; eauto 6.
    + destruct (create app path content); simpl; auto.
Qed.

(** X27. The loop of the earlier [searchNotes]: a file that cannot be read
    is skipped and the search goes on; the hits are appended in the order
    of the vault's files, each one a file whose text contains the query,
    and the loop stops with the hit that reaches [max_results], so that
    from an empty list there are never more than [max_results] hits, or
    one when [max_results] is 0; while [max_results] is not reached, no
    file that contains the query is left out. *)
Theorem legacy_searchLoop_results (query : string) (max_results : nat)
    (markdownFiles : list string) :
  forall results : list (string * string),
  exists found,
    LegacyLocalToolService.searchLoop app toLowerCase query max_results markdownFiles results
    = results ++ found
    /\ length (results ++ found) <= max_results `max` Datatypes.S (length results)
    /\ (found <> [] -> length (results ++ found) <= max_results `max` 1 + length results)
    /\ fst <$> found `sublist_of` markdownFiles
    /\ Forall (fun hit => matches app toLowerCase query hit.1) found
    /\ (length (results ++ found) < max_results ->
        forall file, file ∈ markdownFiles -> matches app toLowerCase query file ->
                     file ∈ fst <$> found).
Proof.
  induction markdownFiles as [|file files IH]; intros results.
  - exists []. rewrite app_nil_r. simpl.
    split; [done|]. split; [lia|]. split; [done|]. split; [done|].
    split; [constructor|]. intros _ file Hin. by apply elem_of_nil in Hin.
  - cbn [LegacyLocalToolService.searchLoop].
    destruct (cachedRead app file) as [e|content] eqn:Hread.
    { destruct (IH results) as (found & -> & Hlen & Hlen' & Hsub & Hall & Hcomplete).
      exists found. split; [done|]. split; [done|]. split; [done|].
      split; [by apply sublist_cons|]. split; [done|].
      intros Hlt file' [->|Hin]%elem_of_cons Hmatch; [|by apply Hcomplete].
      destruct Hmatch as (content & Hread' & _). by rewrite Hread in Hread'. }
    destruct (Str.indexOf _ (toLowerCase content)) as [matchIndex|] eqn:Hfound.
    + cbn zeta.
      match goal with
      | |- context [results ++ [?h]] => set (hit := h) in *
      end.
      assert (matches app toLowerCase query file) as Hmatch.
      { exists content. by rewrite Hfound. }
      destruct (Nat.leb_spec max_results (length (results ++ [hit]))) as [Hfull|Hroom].
      * exists [hit]. rewrite length_app in *. simpl in *.
        split; [done|]. split; [lia|]. split; [lia|].
        split; [apply sublist_skip, sublist_nil_l|]. split; [by constructor|]. lia.
      * destruct (IH (results ++ [hit])) as (found & -> & Hlen & Hlen' & Hsub & Hall & Hcomplete).
        exists (hit :: found). rewrite <- app_assoc. split; [done|].
        rewrite !length_app in *. simpl in *.
        split; [lia|]. split; [lia|]. split; [by apply sublist_skip|].
        split; [by constructor|].
        intros Hlt file' [->|Hin]%elem_of_cons Hmatch'; [apply elem_of_cons; by left|].
        apply elem_of_cons. right. apply Hcomplete; [lia|done..].
    + destruct (IH results) as (found & -> & Hlen & Hlen' & Hsub & Hall & Hcomplete).
      exists found. split; [done|]. split; [done|]. split; [done|].
      split; [by apply sublist_cons|]. split; [done|].
      intros Hlt file' [->|Hin]%elem_of_cons Hmatch; [|by apply Hcomplete].
      destruct Hmatch as (content' & Hread' & Hsome).
      rewrite Hread in Hread'. simplify_eq. rewrite Hfound in Hsome. by destruct Hsome.
Qed.

(** The earlier [executeTool] rejects exactly when the arguments are
    [null] and the name is that of one of the three tools, which read a
    field of the arguments; an unknown name is answered with an error. *)
Lemma legacy_executeTool_rejects_iff (toolName : string) (args : option Args) :
  (exists e, LegacyLocalToolService.executeTool app toLowerCase toolName args = inl e)
  <-> args = None /\ toolName ∈ static_names.
Proof.
  unfold LegacyLocalToolService.executeTool, static_names.
  rewrite !elem_of_cons, elem_of_nil.
  destruct (String.eqb_spec toolName "obsidian_readFile") as [|H1];
    [|destruct (String.eqb_spec toolName "obsidian_writeFile") as [|H2];
      [|destruct (String.eqb_spec toolName "obsidian_searchNotes") as [|H3]]].
  all: destruct args as [args|]; split.
  all: try (intros [e He]; by simplify_eq).
  all: try (intros [? ?]; by simplify_eq).
  all: try (intros _; split; [done|]; by auto).
  all: try (intros _; by eexists).
  all: intros [_ [?|[?|[?|[]]]]]; done.
Qed.

End Tools.
End LegacyToolFacts.

(** ** Host commands as tools *)

Module CommandToolFacts.
Import LocalToolService ToolEffects CommandTools.

Lemma registered_elem_of (name : string) (localTools : list McpTool) :
  registered name localTools = true <-> name ∈ tool_name <$> localTools.
Proof.
  unfold registered. rewrite existsb_exists, list_elem_of_fmap. split.
  - intros (t & Hin & Heq). apply String.eqb_eq in Heq. exists t.
    split; [done|by apply list_elem_of_In].
  - intros (t & -> & Hin). exists t. split; [by apply list_elem_of_In|apply String.eqb_refl].
Qed.

Lemma isStatic_name (tool : McpTool) :
  isStatic tool = true <-> tool_name tool ∈ static_names.
Proof.
  unfold isStatic, static_names. rewrite !orb_true_iff, !String.eqb_eq.
  rewrite !elem_of_cons, elem_of_nil. tauto.
Qed.

Lemma upsert_names (localTools : list McpTool) (tool : McpTool) :
  tool_name <$> upsert localTools tool
  = if bool_decide (tool_name tool ∈ tool_name <$> localTools)
    then tool_name <$> localTools
    else (tool_name <$> localTools) ++ [tool_name tool].
Proof.
  unfold upsert.
  destruct (list_find _ localTools) as [[i t]|] eqn:Hfind.
  - apply list_find_Some in Hfind as (Hi & Hname & _).
    rewrite bool_decide_eq_true_2.
    2: { apply list_elem_of_fmap. exists t. split; [done|by eapply list_elem_of_lookup_2]. }
    rewrite list_fmap_insert. apply list_insert_id.
    by rewrite list_lookup_fmap, Hi, <- Hname.
  - apply list_find_None in Hfind.
    rewrite bool_decide_eq_false_2; [by rewrite fmap_app|].
    intros (t & Hname & Hin)%list_elem_of_fmap.
    rewrite Forall_forall in Hfind. by apply (Hfind t).
Qed.

Lemma filter_static_names (name : string) (localTools : list McpTool) :
  name ∈ tool_name <$> filter (fun tool => isStatic tool = true) localTools
  <-> name ∈ static_names /\ name ∈ tool_name <$> localTools.
Proof.
  rewrite !list_elem_of_fmap. split.
  - intros (t & -> & [Hstatic Hin]%list_elem_of_filter).
    split; [by apply isStatic_name|by exists t].
  - intros (Hstatic & t & -> & Hin). exists t. split; [done|].
    apply list_elem_of_filter. split; [by apply isStatic_name|done].
Qed.

Lemma upsert_elem_of (localTools : list McpTool) (tool t : McpTool) :
  t ∈ upsert localTools tool -> t ∈ localTools \/ t = tool.
Proof.
  unfold upsert. destruct (list_find _ localTools) as [[i t0]|] eqn:Hfind.
  - intros [j Hj]%list_elem_of_lookup.
    destruct (decide (i = j)) as [->|Hne].
    + apply list_find_Some in Hfind as (Hi & _).
      rewrite list_lookup_insert_eq in Hj by (by eapply lookup_lt_Some).
      right. congruence.
    + rewrite list_lookup_insert_ne in Hj by done.
      left. by eapply list_elem_of_lookup_2.
  - rewrite elem_of_app, list_elem_of_singleton. tauto.
Qed.

Lemma upsert_present (localTools : list McpTool) (tool : McpTool) :
  tool ∈ upsert localTools tool.
Proof.
  unfold upsert. destruct (list_find _ localTools) as [[i t0]|] eqn:Hfind.
  - apply list_find_Some in Hfind as (Hi & _).
    apply list_elem_of_lookup. exists i.
    apply list_lookup_insert_eq. by eapply lookup_lt_Some.
  - apply elem_of_app. right. by apply list_elem_of_singleton.
Qed.

Lemma upsert_keeps (localTools : list McpTool) (tool t : McpTool) :
  t ∈ localTools -> tool_name t <> tool_name tool -> t ∈ upsert localTools tool.
Proof.
  intros [j Hj]%list_elem_of_lookup Hne. unfold upsert.
  destruct (list_find _ localTools) as [[i t0]|] eqn:Hfind.
  - apply list_find_Some in Hfind as (Hi & Hname & _).
    apply list_elem_of_lookup. exists j. rewrite list_lookup_insert_ne; [done|].
    intros ->. congruence.
  - apply elem_of_app. left. by eapply list_elem_of_lookup_2.
Qed.

(** Tools with distinct names are determined by the sequence of the
    names and the tool of each name. *)
Lemma tools_ext (l1 l2 : list McpTool) :
  NoDup (tool_name <$> l1) ->
  tool_name <$> l1 = tool_name <$> l2 ->
  (forall t, t ∈ l2 -> t ∈ l1) ->
  l2 = l1.
Proof.
  intros Hnodup Hnames Hsub. apply list_eq. intros i.
  destruct (l2 !! i) as [t2|] eqn:H2.
  - assert (t2 ∈ l1) as [j Hj]%list_elem_of_lookup
      by (apply Hsub; by eapply list_elem_of_lookup_2).
    assert ((tool_name <$> l1) !! i = Some (tool_name t2)) as Hi.
    { by rewrite Hnames, list_lookup_fmap, H2. }
    assert ((tool_name <$> l1) !! j = Some (tool_name t2)) as Hj'.
    { by rewrite list_lookup_fmap, Hj. }
    by rewrite (NoDup_lookup _ _ _ _ Hnodup Hi Hj').
  - apply lookup_ge_None in H2. symmetry. apply lookup_ge_None.
    rewrite <- (length_fmap tool_name l1), Hnames, length_fmap. done.
Qed.

Lemma filter_static_fmap (localTools : list McpTool) :
  tool_name <$> filter (fun tool => isStatic tool = true) localTools
  = filter (fun name => name ∈ static_names) (tool_name <$> localTools).
Proof.
  induction localTools as [|t l IH]; [done|].
  rewrite fmap_cons, !filter_cons.
  destruct (isStatic t) eqn:Hstatic.
  - rewrite decide_True by done. rewrite decide_True by (by apply isStatic_name).
    by rewrite fmap_cons, IH.
  - rewrite decide_False by done. rewrite decide_False; [done|].
    intros H%isStatic_name. congruence.
Qed.

Lemma filter_static_added (ids : list string) : forall names : list string,
  Forall (fun name => name ∈ names) static_names ->
  filter (fun name => name ∈ static_names)
    (foldl (fun names id => if bool_decide (id ∈ names) then names else names ++ [id])
       names ids)
  = filter (fun name => name ∈ static_names) names.
Proof.
  induction ids as [|id ids IH]; intros names Hstatic; simpl; [done|].
  case_bool_decide as Hin; [by apply IH|].
  assert (id ∉ static_names) as Hnot.
  { intros H. rewrite Forall_forall in Hstatic. by apply Hstatic in H. }
  rewrite IH.
  - rewrite filter_app, filter_cons, decide_False by done.
    by rewrite filter_nil, app_nil_r.
  - eapply Forall_impl; [exact Hstatic|]. intros name Hname.
    apply elem_of_app. by left.
Qed.

Section Registration.
Variable app : App.
Variable hotkeys : Command -> option (list string).

Lemma toolOf_name cachedCommands command :
  tool_name (toolOf hotkeys cachedCommands command) = command_id command.
Proof. unfold toolOf. by repeat case_match. Qed.

Lemma upserts_names cachedCommands (commands : list Command) :
  forall (localTools : list McpTool) (name : string),
  name ∈ tool_name <$> registerTools hotkeys cachedCommands localTools commands
  <-> name ∈ tool_name <$> localTools \/ name ∈ command_id <$> commands.
Proof.
  unfold registerTools.
  induction commands as [|command commands IH]; intros localTools name; simpl.
  - rewrite elem_of_nil. tauto.
  - rewrite IH, upsert_names, toolOf_name, elem_of_cons.
    case_bool_decide as Hin.
    + split; [tauto|]. intros [?|[->|?]]; auto.
    + rewrite elem_of_app, list_elem_of_singleton. tauto.
Qed.

Lemma upserts_NoDup cachedCommands (commands : list Command) :
  forall localTools : list McpTool,
  NoDup (tool_name <$> localTools) ->
  NoDup (tool_name <$> registerTools hotkeys cachedCommands localTools commands).
Proof.
  unfold registerTools.
  induction commands as [|command commands IH]; intros localTools Hnodup; [done|].
  simpl. apply IH. rewrite upsert_names, toolOf_name.
  case_bool_decide as Hin; [done|].
  apply NoDup_app. split; [done|]. split; [|apply NoDup_singleton].
  intros name Hname ->%list_elem_of_singleton. done.
Qed.

Lemma registration_tools (service : Service) :
  let localTools' :=
    localTools (registerObsidianCommandsAsTools app hotkeys true service).1 in
  (forall name,
     registered name localTools' = true
     <-> name ∈ command_id <$> listCommands app
         \/ (name ∈ static_names /\ registered name (localTools service) = true))
  /\ (NoDup (tool_name <$> localTools service) -> NoDup (tool_name <$> localTools')).
Proof.
  unfold registerObsidianCommandsAsTools. simpl.
  destruct (cacheCommands _ _ (listCommands app)) as [cachedCommands newCacheRequired].
  simpl. split.
  - intros name.
    rewrite !registered_elem_of, upserts_names, filter_static_names. tauto.
  - intros Hnodup. apply upserts_NoDup.
    induction (localTools service) as [|t l IH]; [constructor|].
    apply NoDup_cons in Hnodup as [Hnotin Hnodup].
    rewrite filter_cons. case_decide; [|by apply IH].
    simpl. apply NoDup_cons. split; [|by apply IH].
    intros (t' & Hname & Hin)%list_elem_of_fmap. apply list_elem_of_filter in Hin as [_ Hin].
    apply Hnotin. apply list_elem_of_fmap. by exists t'.
Qed.

(** X28. The tools after [registerObsidianCommandsAsTools]: a name is
    registered exactly when it is the id of a host command or the name of
    a static tool that was registered before; tools of commands that are
    gone are dropped, and names that were distinct stay distinct. *)
Theorem tools_after_registration (service : Service) :
  let localTools' :=
    localTools (registerObsidianCommandsAsTools app hotkeys true service).1 in
  (forall name,
     registered name localTools' = true
     <-> name ∈ command_id <$> listCommands app
         \/ (name ∈ static_names /\ registered name (localTools service) = true))
  /\ (NoDup (tool_name <$> localTools service) -> NoDup (tool_name <$> localTools')).
Proof. apply registration_tools. Qed.

Lemma isStale_false (commands : list Command) (localTools : list McpTool) (k : string) :
  isStale commands localTools k = false
  <-> k ∈ command_id <$> commands \/ registered k localTools = true.
Proof.
  unfold isStale, registered.
  rewrite andb_false_iff, !negb_false_iff, bool_decide_eq_true. tauto.
Qed.

Lemma dropStale_lookup commands localTools
    (cachedCommands : gmap string CachedCommandMcpDetails) k d :
  dropStale commands localTools cachedCommands !! k = Some d
  <-> cachedCommands !! k = Some d /\ isStale commands localTools k = false.
Proof. unfold dropStale. by rewrite map_lookup_filter_Some. Qed.

Lemma dropStale_unflagged commands localTools
    (cachedCommands : gmap string CachedCommandMcpDetails) :
  existsb (fun entry => isStale commands localTools entry.1) (map_to_list cachedCommands)
  = false ->
  dropStale commands localTools cachedCommands = cachedCommands.
Proof.
  intros Hnone. apply map_filter_id. intros k d Hk. simpl.
  destruct (isStale commands localTools k) eqn:Hstale; [|done].
  assert (existsb (fun entry => isStale commands localTools entry.1)
            (map_to_list cachedCommands) = true); [|congruence].
  apply existsb_exists. exists (k, d). split; [|done].
  apply list_elem_of_In. by apply elem_of_map_to_list.
Qed.

Lemma cacheCommand_lookup_ne cachedCommands command k :
  k <> command_id command ->
  (cacheCommand cachedCommands command).1 !! k = cachedCommands !! k.
Proof.
  intros Hne. unfold cacheCommand. case_match; simpl; [|done].
  by rewrite lookup_insert_ne.
Qed.

Lemma cacheCommand_lookup_eq cachedCommands command :
  exists d,
    (cacheCommand cachedCommands command).1 !! command_id command = Some d
    /\ originalName d = command_name command.
Proof.
  unfold cacheCommand.
  destruct (cachedCommands !! command_id command) as [d|] eqn:Hd; simpl.
  - destruct (String.eqb_spec (originalName d) (command_name command)); simpl.
    + by exists d.
    + rewrite lookup_insert_eq. by eexists.
  - rewrite lookup_insert_eq. by eexists.
Qed.

Lemma cacheCommand_unflagged cachedCommands command :
  (cacheCommand cachedCommands command).2 = false ->
  (cacheCommand cachedCommands command).1 = cachedCommands.
Proof. unfold cacheCommand. by case_match. Qed.

Lemma cacheCommand_stable cachedCommands command d :
  cachedCommands !! command_id command = Some d ->
  originalName d = command_name command ->
  cacheCommand cachedCommands command = (cachedCommands, false).
Proof.
  intros Hd Hname. unfold cacheCommand. rewrite Hd, Hname, String.eqb_refl. done.
Qed.

Lemma cacheCommands_cons cachedCommands flag command (commands : list Command) :
  cacheCommands cachedCommands flag (command :: commands)
  = cacheCommands (cacheCommand cachedCommands command).1
      (flag || (cacheCommand cachedCommands command).2) commands.
Proof. unfold cacheCommands. simpl. by destruct (cacheCommand cachedCommands command). Qed.

Lemma cacheCommands_lookup_other (commands : list Command) :
  forall cachedCommands flag k,
  k ∉ command_id <$> commands ->
  (cacheCommands cachedCommands flag commands).1 !! k = cachedCommands !! k.
Proof.
  induction commands as [|command commands IH]; intros m flag k Hk; [done|].
  rewrite cacheCommands_cons. rewrite fmap_cons in Hk. apply not_elem_of_cons in Hk as [? ?].
  rewrite IH by done. by apply cacheCommand_lookup_ne.
Qed.

Lemma cacheCommands_lookup_command (commands : list Command) :
  forall cachedCommands flag command,
  NoDup (command_id <$> commands) -> command ∈ commands ->
  exists d,
    (cacheCommands cachedCommands flag commands).1 !! command_id command = Some d
    /\ originalName d = command_name command.
Proof.
  induction commands as [|c commands IH]; intros m flag command Hnodup Hin.
  - by apply elem_of_nil in Hin.
  - rewrite cacheCommands_cons. rewrite fmap_cons in Hnodup.
    apply NoDup_cons in Hnodup as [Hnotin Hnodup].
    apply elem_of_cons in Hin as [->|Hin]; [|by apply IH].
    rewrite cacheCommands_lookup_other by done. apply cacheCommand_lookup_eq.
Qed.

Lemma cacheCommands_unflagged (commands : list Command) :
  forall cachedCommands flag,
  (cacheCommands cachedCommands flag commands).2 = false ->
  flag = false /\ (cacheCommands cachedCommands flag commands).1 = cachedCommands.
Proof.
  induction commands as [|command commands IH]; intros m flag H; [done|].
  rewrite cacheCommands_cons in *. apply IH in H as [[-> Hc]%orb_false_iff ->].
  split; [done|]. by apply cacheCommand_unflagged.
Qed.

Lemma cacheCommands_stable (commands : list Command) :
  forall cachedCommands flag,
  (forall command, command ∈ commands ->
     exists d, cachedCommands !! command_id command = Some d
               /\ originalName d = command_name command) ->
  cacheCommands cachedCommands flag commands = (cachedCommands, flag).
Proof.
  induction commands as [|command commands IH]; intros m flag H; [done|].
  rewrite cacheCommands_cons.
  destruct (H command) as (d & Hd & Hname); [apply list_elem_of_here|].
  rewrite (cacheCommand_stable _ _ _ Hd Hname). simpl. rewrite orb_false_r.
  apply IH. intros c Hc. apply H. by apply list_elem_of_further.
Qed.

Lemma cacheCommands_dom (commands : list Command) :
  forall cachedCommands flag k,
  is_Some ((cacheCommands cachedCommands flag commands).1 !! k) ->
  k ∈ command_id <$> commands \/ is_Some (cachedCommands !! k).
Proof.
  intros m flag k Hk.
  destruct (decide (k ∈ command_id <$> commands)) as [?|Hnot]; [by left|right].
  by rewrite cacheCommands_lookup_other in Hk.
Qed.

Lemma registration_cache (service : Service) :
  let '(service', effects) := registerObsidianCommandsAsTools app hotkeys true service in
  (forall k d,
     commandMcpCache service' !! k = Some d ->
     k ∈ command_id <$> listCommands app
     \/ (registered k (localTools service) = true /\ commandMcpCache service !! k = Some d))
  /\ (NoDup (command_id <$> listCommands app) ->
      forall command, command ∈ listCommands app ->
      exists d, commandMcpCache service' !! command_id command = Some d
                /\ originalName d = command_name command)
  /\ ((effects = [] /\ commandMcpCache service' = commandMcpCache service)
      \/ effects = [SaveCommandMcpCacheToFile (commandMcpCache service')]).
Proof.
  unfold registerObsidianCommandsAsTools. simpl.
  match goal with
  | |- context [cacheCommands ?m ?b ?cs] =>
      pose proof (cacheCommands_lookup_other cs m b) as Hother;
      pose proof (cacheCommands_lookup_command cs m b) as Hcommand;
      pose proof (cacheCommands_unflagged cs m b) as Hflag;
      destruct (cacheCommands m b cs) as [cachedCommands newCacheRequired]
  end.
  simpl in *. split; [|split].
  - intros k d Hk.
    destruct (decide (k ∈ command_id <$> listCommands app)) as [?|Hnot]; [by left|right].
    rewrite Hother in Hk by done. apply dropStale_lookup in Hk as [Hk Hstale].
    apply isStale_false in Hstale as [?|?]; done.
  - intros Hnodup command Hin. by apply Hcommand.
  - destruct newCacheRequired; [by right|left].
    destruct Hflag as [Hnone ->]; [done|]. split; [done|].
    by apply dropStale_unflagged.
Qed.

(** X29. The command cache after [registerObsidianCommandsAsTools]: what
    it holds is an entry for the id of a host command, or an entry that
    was there before under the name of a registered tool; the entries of
    other ids than those of the commands are as they were; every command
    has an entry under its id, with its name when the ids are distinct;
    and the cache is written to disk, as it then stands, whenever it has
    changed. *)
Theorem cache_after_registration (service : Service) :
  let '(service', effects) := registerObsidianCommandsAsTools app hotkeys true service in
  (forall k d,
     commandMcpCache service' !! k = Some d ->
     k ∈ command_id <$> listCommands app
     \/ (registered k (localTools service) = true /\ commandMcpCache service !! k = Some d))
  /\ (NoDup (command_id <$> listCommands app) ->
      forall command, command ∈ listCommands app ->
      exists d, commandMcpCache service' !! command_id command = Some d
                /\ originalName d = command_name command)
  /\ ((effects = [] /\ commandMcpCache service' = commandMcpCache service)
      \/ effects = [SaveCommandMcpCacheToFile (commandMcpCache service')]).
Proof. apply registration_cache. Qed.

Lemma registerTools_names cachedCommands (commands : list Command) :
  forall localTools : list McpTool,
  tool_name <$> registerTools hotkeys cachedCommands localTools commands
  = foldl (fun names id => if bool_decide (id ∈ names) then names else names ++ [id])
      (tool_name <$> localTools) (command_id <$> commands).
Proof.
  unfold registerTools.
  induction commands as [|command commands IH]; intros localTools; [done|].
  simpl. by rewrite IH, upsert_names, toolOf_name.
Qed.

Lemma registerTools_members cachedCommands (commands : list Command) :
  forall (localTools : list McpTool) (t : McpTool),
  t ∈ registerTools hotkeys cachedCommands localTools commands ->
  t ∈ localTools
  \/ exists command, command ∈ commands /\ t = toolOf hotkeys cachedCommands command.
Proof.
  unfold registerTools.
  induction commands as [|command commands IH]; intros localTools t Ht; [by left|].
  simpl in Ht. apply IH in Ht as [Ht|(c & Hc & ->)].
  - apply upsert_elem_of in Ht as [? | ->]; [by left|right].
    exists command. split; [apply list_elem_of_here|done].
  - right. exists c. split; [by apply list_elem_of_further|done].
Qed.

Lemma registerTools_keeps cachedCommands (commands : list Command) :
  forall (localTools : list McpTool) (t : McpTool),
  t ∈ localTools -> tool_name t ∉ command_id <$> commands ->
  t ∈ registerTools hotkeys cachedCommands localTools commands.
Proof.
  unfold registerTools.
  induction commands as [|command commands IH]; intros localTools t Ht Hnot; [done|].
  rewrite fmap_cons in Hnot. apply not_elem_of_cons in Hnot as [Hne Hnot].
  simpl. apply IH; [|done]. apply upsert_keeps; [done|]. by rewrite toolOf_name.
Qed.

Lemma registerTools_present cachedCommands (commands : list Command) :
  forall (localTools : list McpTool) (command : Command),
  NoDup (command_id <$> commands) -> command ∈ commands ->
  toolOf hotkeys cachedCommands command
  ∈ registerTools hotkeys cachedCommands localTools commands.
Proof.
  induction commands as [|c commands IH]; intros localTools command Hnodup Hin.
  - by apply elem_of_nil in Hin.
  - rewrite fmap_cons in Hnodup. apply NoDup_cons in Hnodup as [Hnotin Hnodup].
    apply elem_of_cons in Hin as [->|Hin].
    + change (registerTools hotkeys cachedCommands localTools (c :: commands))
        with (registerTools hotkeys cachedCommands
                (upsert localTools (toolOf hotkeys cachedCommands c)) commands).
      apply registerTools_keeps; [apply upsert_present|by rewrite toolOf_name].
    + by apply (IH (upsert localTools (toolOf hotkeys cachedCommands c))).
Qed.

(** X30. Registering again changes nothing.  When the ids of the host
    commands are distinct, the names of the registered tools are distinct,
    the three static tools are registered and every other registered tool
    is the tool of a command that is still there, then after
    [registerObsidianCommandsAsTools] a second call with the same
    commands leaves the tools and the cache as they are and does not
    write the cache. *)
Theorem registration_is_idempotent (service : Service) :
  NoDup (command_id <$> listCommands app) ->
  NoDup (tool_name <$> localTools service) ->
  Forall (fun name => registered name (localTools service) = true) static_names ->
  Forall (fun tool => isStatic tool = true
                      \/ tool_name tool ∈ command_id <$> listCommands app)
    (localTools service) ->
  let service' := (registerObsidianCommandsAsTools app hotkeys true service).1 in
  registerObsidianCommandsAsTools app hotkeys true service' = (service', []).
Proof.
  intros Hids Hnames Hstatic Hcurrent.
  pose proof (registration_tools service) as [Htools Hnodup].
  pose proof (registration_cache service) as Hcache.
  simpl in *. specialize (Hnodup Hnames).
  destruct (registerObsidianCommandsAsTools app hotkeys true service)
    as [[localTools1 cache1] effects] eqn:Hrun.
  destruct Hcache as (Hkeys & Hentries & _). specialize (Hentries Hids).
  simpl in *.
  assert (localTools1
          = registerTools hotkeys cache1
              (filter (fun tool => isStatic tool = true) (localTools service))
              (listCommands app)) as Hshape.
  { unfold registerObsidianCommandsAsTools in Hrun. simpl in Hrun.
    destruct (cacheCommands _ _ _) as [c f]. by simplify_eq. }
  (* the cache is not touched *)
  assert (forall k d, cache1 !! k = Some d ->
            isStale (listCommands app) localTools1 k = false) as Hfresh.
  { intros k d Hk. apply isStale_false.
    destruct (Hkeys k d Hk) as [?|[Hreg _]]; [by left|].
    apply registered_elem_of, list_elem_of_fmap in Hreg as (t & -> & Ht).
    rewrite Forall_forall in Hcurrent. destruct (Hcurrent t Ht) as [Hs|?]; [|by left].
    right. apply Htools. right. split; [by apply isStatic_name|].
    apply registered_elem_of, list_elem_of_fmap. by exists t. }
  unfold registerObsidianCommandsAsTools. simpl.
  assert (existsb (fun entry => isStale (listCommands app) localTools1 entry.1)
            (map_to_list cache1) = false) as ->.
  { apply not_true_is_false. intros ([k d] & Hin & Hstale)%existsb_exists.
    apply list_elem_of_In, elem_of_map_to_list in Hin. simpl in Hstale.
    by rewrite (Hfresh k d Hin) in Hstale. }
  assert (dropStale (listCommands app) localTools1 cache1 = cache1) as ->.
  { apply map_filter_id. intros k d Hk. by apply (Hfresh k d). }
  rewrite cacheCommands_stable by done.
  f_equal. f_equal.
  (* the tools are the same *)
  apply tools_ext; [done| |].
  - rewrite registerTools_names, filter_static_fmap.
    rewrite Hshape, registerTools_names, filter_static_fmap.
    rewrite filter_static_added.
    + f_equal. symmetry. by apply list_filter_filter_l.
    + apply Forall_forall. intros name Hin. apply list_elem_of_filter.
      split; [done|]. rewrite Forall_forall in Hstatic.
      by apply registered_elem_of, Hstatic.
  - intros t Ht. apply registerTools_members in Ht as [Ht|(c & Hc & ->)].
    + by apply list_elem_of_filter in Ht as [_ Ht].
    + rewrite Hshape. by apply registerTools_present.
Qed.

End Registration.
End CommandToolFacts.

(** ** The properties with hypotheses, at concrete runs *)

Module Instances.
Import Trace.

Lemma openai_abort_mid_stream_witness :
  let t :=
    snd (run OpenAI (mkJSON Fixtures.content_only (fun _ => None) (fun _ => None))
           Fixtures.cut_off Sample.hello Sample.openai_settings true) in
  (exists reason, closed_by (Finish reason) t)
  /\ Forall (fun ev => is_error ev = false) t.
Proof.
  apply (StreamEnds.openai_abort_mid_stream
           (mkJSON Fixtures.content_only (fun _ => None) (fun _ => None))
           Fixtures.cut_off Sample.hello Sample.openai_settings true
           Fixtures.cut_off_response [Sample.frame (Sample.content_json "Hi")]
           Fixtures.abortError); reflexivity.
Defined.

Lemma complete_is_stable_witness :
  exists tc',
    Accumulator.get
      (Accumulator.accumulate_all
         (Accumulator.accumulate_all [] [Sample.f0a; Sample.f0b])
         [Sample.f0c; Sample.f1a]) 0 = Some tc'
    /\ Accumulator.complete tc' = true.
Proof.
  eapply (AccumulatorMonotone.complete_is_stable [Sample.f0c; Sample.f1a]
            (Accumulator.accumulate_all [] [Sample.f0a; Sample.f0b]) 0);
    reflexivity.
Defined.

Lemma onToolCall_one_entry_per_call_witness :
  exists st' entries,
    Core.onToolCall Sample.plain_app Sample.lower Sample.stringify Sample.parse_args
      Sample.pretty_args [Fixtures.read_call; Fixtures.foo_call] Sample.loaded
    = (st', None)
    /\ Core.chatHistory st' = Core.chatHistory Sample.loaded ++ entries
    /\ Forall2 (fun tc m => role m = tool /\ tool_call_id m = Some (id tc)
                            /\ is_Some (content m) /\ tool_calls m = None)
         [Fixtures.read_call; Fixtures.foo_call] entries
    /\ Core.continuations st' = 1
    /\ Core.requests st' = [].
Proof.
  apply (TranscriptFacts.onToolCall_one_entry_per_call Sample.plain_app Sample.lower
           Sample.stringify Sample.parse_args Sample.pretty_args
           [Fixtures.read_call; Fixtures.foo_call] Sample.loaded).
  - discriminate.
  - repeat constructor; by eexists.
Defined.



Lemma onContent_accumulates_witness :
  LegacyCore.chatHistory
    (LegacyCore.onFinish "stop"
       (foldl (fun st delta => LegacyCore.onContent delta false st)
          Sample.legacy_asked ["Hi"; " there"]))
  = LegacyCore.chatHistory Sample.legacy_asked
    ++ [mkMessage assistant (Some ("" +:+ Accumulator.join ["Hi"; " there"])) None None].
Proof.
  apply (LegacyCoreFacts.onContent_accumulates ["Hi"; " there"] Sample.legacy_asked
           "thinking"); reflexivity.
Defined.



Lemma registration_is_idempotent_witness :
  let service' :=
    (CommandTools.registerObsidianCommandsAsTools Fixtures.editor_app Fixtures.no_hotkeys
       true Sample.service).1 in
  CommandTools.registerObsidianCommandsAsTools Fixtures.editor_app Fixtures.no_hotkeys
    true service'
  = (service', []).
Proof.
  apply (CommandToolFacts.registration_is_idempotent Fixtures.editor_app
           Fixtures.no_hotkeys Sample.service).
  - apply (bool_decide_unpack _). vm_compute. reflexivity.
  - apply (bool_decide_unpack _). vm_compute. reflexivity.
  - repeat constructor.
  - repeat constructor; by left.
Defined.

End Instances.
